(** * Repeat-detection suppression (find_repeat_detections.py)

    A shallow embedding of the repeat-detection engine of
    [api/batch_processing/postprocessing/find_repeat_detections.py]:
    the directory partitioner, the per-directory clustering loop
    ([find_matches_in_directory]), the occurrence filter, the reload-mode
    filter, the table update ([update_detection_table]) and the driver
    ([find_repeat_detections]).

    Modelling choices.
    - A Python float is an IEEE 754 double and is modelled by the rational
      number it is.  Comparisons, [abs] and the multiplication of a
      confidence by [-1] are exact on doubles and are the operations of [Q];
      the product of a width and a height and the difference of two maxima
      are rounded to the nearest double ([float_mul], [float_sub]).
      Comparisons use [Qle_bool], so two representations of the same number
      behave alike.  A decimal literal of the source, such as [0.2], is the
      double [float (2 # 10)].
    - Python exceptions are the constructors of [exn]; a computation that can
      raise returns [result].
    - A pandas table is a [list] of rows addressed by position; the dict
      [rowsByDirectory] keeps insertion order and is an association list;
      the dict [filenameToRow] is a [gmap].
    - Functions of other modules ([ct_utils], [os.path], the file system) are
      the fields of the class [Externals].
    - A detection is a record with its three fields, so the assertion that
      the keys ['category'], ['conf'] and ['bbox'] are present has no
      counterpart.  Progress bars, printing, the rendering of images and
      the HTML report ([bRenderHtml], off by default) are left out; the
      comparisons run in table order, as the serial loop does and as the
      parallel map returns them. *)

From Stdlib Require Import QArith Qabs Qround ZArith String Ascii Bool DecimalString.
From Stdlib Require Import DecimalNat.
From stdpp Require Import base option list gmap strings.

Local Open Scope string_scope.
Local Open Scope list_scope.
Local Open Scope Z_scope.

(** ** Exceptions *)

Inductive exn : Type :=
  | AssertionError
  | IndexError
  | KeyError
  | ValueError
  | TypeError.

Inductive result (A : Type) : Type :=
  | Ok (a : A)
  | Raise (e : exn).

Arguments Ok {A} a.
Arguments Raise {A} e.

#[global] Instance result_ret : MRet result := fun A a => Ok a.
#[global] Instance result_bind : MBind result := fun A B f m =>
  match m with
  | Ok a => f a
  | Raise e => Raise e
  end.

#[global] Instance result_fmap : FMap result := fun A B f m =>
  match m with
  | Ok a => Ok (f a)
  | Raise e => Raise e
  end.

(** [assert b] *)
Definition assert (b : bool) : result unit :=
  if b then Ok tt else Raise AssertionError.

(** ** Numbers *)

Definition Qlt_bool (a b : Q) : bool := negb (Qle_bool b a).

(** *** Doubles

    The doubles are the rationals [m * 2 ^ e] with [|m| < 2 ^ 53] and
    [-1074 <= e]; [float x] is the double nearest to [x], the one with the
    even mantissa when two are as near.  Beyond the largest double Python
    has [inf], which is no rational: there [float] keeps the rounded value,
    which compares with every double as [inf] does. *)

(** The integer nearest to [q], the even one on a tie. *)
Definition round_half_even (q : Q) : Z :=
  let f := Qfloor q in
  match (q - inject_Z f ?= 1 # 2)%Q with
  | Lt => f
  | Gt => f + 1
  | Eq => if Z.even f then f else f + 1
  end.

(** [2 ^ e] for an integer [e] of any sign. *)
Definition pow2 (e : Z) : Q :=
  if 0 <=? e then inject_Z (2 ^ e) else 1 # Z.to_pos (2 ^ (- e)).

(** The exponent [e] with [2 ^ e <= a < 2 ^ (e + 1)], for a positive [a]. *)
Definition binade (a : Q) : Z :=
  let e := Z.log2 (Qnum a) - Z.log2 (Zpos (Qden a)) in
  if Qle_bool (pow2 e) a then e else e - 1.

(** Rounding to the nearest double: 53 bits of mantissa, and steps of
    [2 ^ -1074] below the normal range. *)
Definition float (x : Q) : Q :=
  if Qeq_bool x 0 then 0%Q else
  let a := Qabs x in
  let e := Z.max (binade a - 52) (-1074) in
  let r := Qred (inject_Z (round_half_even (a / pow2 e)) * pow2 e) in
  if Qlt_bool x 0 then Qopp r else r.

(** The rational is a double. *)
Definition double (x : Q) : Prop := (float x == x)%Q.

(** [a * b] and [a - b] on floats.  The operands are doubles, on which
    [float] is the identity; a rational that is no double is read as Python
    reads a decimal literal. *)
Definition float_mul (a b : Q) : Q := float (float a * float b).
Definition float_sub (a b : Q) : Q := float (float a - float b).

Arguments float : simpl never.
Arguments float_mul : simpl never.
Arguments float_sub : simpl never.

(** [a == b] on two lists of floats *)
Fixpoint list_Qeq_bool (a b : list Q) : bool :=
  match a, b with
  | [], [] => true
  | x :: a', y :: b' => Qeq_bool x y && list_Qeq_bool a' b'
  | _, _ => false
  end.

(** ** Python sequence operations *)

(** [l[i]] for an integer [i]: a negative index counts from the end, an index
    out of range raises IndexError. *)
Definition py_getitem {A} (l : list A) (i : Z) : result A :=
  let n := Z.of_nat (length l) in
  let j := if i <? 0 then i + n else i in
  if (j <? 0) || (n <=? j) then Raise IndexError
  else match l !! Z.to_nat j with
       | Some x => Ok x
       | None => Raise IndexError
       end.

(** [l[i] = x] at the position [py_getitem] reads. *)
Definition py_setitem {A} (l : list A) (i : Z) (x : A) : list A :=
  let n := Z.of_nat (length l) in
  let j := if i <? 0 then i + n else i in
  if (j <? 0) || (n <=? j) then l else <[Z.to_nat j := x]> l.

(** [l[0:stop]]: a negative [stop] counts from the end, and the bound is
    clipped to the list. *)
Definition py_slice_to {A} (l : list A) (stop : Z) : list A :=
  let n := Z.of_nat (length l) in
  let s := if stop <? 0 then Z.max 0 (stop + n) else Z.min stop n in
  take (Z.to_nat s) l.

(** ** Ordered dictionaries (insertion order is iteration order) *)

Section Dict.
Context {V : Type}.

Fixpoint dict_get (d : list (string * V)) (k : string) : option V :=
  match d with
  | [] => None
  | (k', v) :: d' => if decide (k = k') then Some v else dict_get d' k
  end.

Definition dict_mem (d : list (string * V)) (k : string) : bool :=
  match dict_get d k with Some _ => true | None => false end.

(** [d[k] = v]: an existing key keeps its place, a new key goes last. *)
Fixpoint dict_set (d : list (string * V)) (k : string) (v : V) : list (string * V) :=
  match d with
  | [] => [(k, v)]
  | (k', v') :: d' =>
      if decide (k = k') then (k', v) :: d' else (k', v') :: dict_set d' k v
  end.

Definition dict_keys (d : list (string * V)) : list string := d.*1.
End Dict.

(** ** Data model *)

(** One element of a row's ['detections'] list. *)
Record Detection : Type := mkDetection {
  category : string;
  conf : Q;
  bbox : list Q
}.

(** One row of the detection table. *)
Record Row : Type := mkRow {
  file : string;
  max_detection_conf : Q;
  detections : list Detection
}.

Record IndexedDetection : Type := mkIndexedDetection {
  iDetection : Z;
  filename : string;
  i_bbox : list Q;
  confidence : Q;
  i_category : string
}.

Record DetectionLocation : Type := mkDetectionLocation {
  instances : list IndexedDetection;
  l_bbox : list Q;
  relativeDir : string;
  sampleImageRelativeFileName : string
}.

(** [DetectionLocation.__init__] *)
Definition DetectionLocation_init (instance : IndexedDetection)
    (detection : Detection) (relativeDir : string) : DetectionLocation :=
  {| instances := [instance];
     l_bbox := bbox detection;
     relativeDir := relativeDir;
     sampleImageRelativeFileName := "" |}.

Record RepeatDetectionOptions : Type := mkOptions {
  imageBase : string;
  outputBase : string;
  confidenceMin : Q;
  confidenceMax : Q;
  iouThreshold : Q;
  occurrenceThreshold : Z;
  maxSuspiciousDetectionSize : Q;
  excludeClasses : list Z;
  filterFileToLoad : string;
  filteredFileListToLoad : option string;
  bWriteFilteringFolder : bool;
  debugMaxDir : Z;
  nDirLevelsFromLeaf : Z
}.

(** The class attributes of [RepeatDetectionOptions]. *)
Definition default_options : RepeatDetectionOptions :=
  {| imageBase := "";
     outputBase := "";
     confidenceMin := float (849 # 1000);
     confidenceMax := 1;
     iouThreshold := float (9 # 10);
     occurrenceThreshold := 15;
     maxSuspiciousDetectionSize := float (2 # 10);
     excludeClasses := [];
     filterFileToLoad := "";
     filteredFileListToLoad := None;
     bWriteFilteringFolder := true;
     debugMaxDir := -1;
     nDirLevelsFromLeaf := 0 |}.

Record RepeatDetectionResults : Type := mkResults {
  detectionResults : list Row;
  rowsByDirectory : list (string * list Row);
  filenameToRow : gmap string nat;
  suspiciousDetections : list (list DetectionLocation)
}.

(** ** Functions of other modules *)

Class Externals : Type := {
  (** [ct_utils.get_iou] *)
  get_iou : list Q → list Q → Q;
  (** [ct_utils.is_image_file] *)
  is_image_file : string → bool;
  (** [os.path.dirname] *)
  dirname : string → string;
  (** [os.path.join] *)
  join : string → string → string;
  (** [os.path.isfile] *)
  isfile : string → bool;
  (** [int(s)], which raises ValueError on a string that is no integer *)
  py_int : string → option Z;
  (** [jsonpickle.decode(open(name).read())] on the review file *)
  load_filter_file : string → list (list DetectionLocation);
  (** [open(name).readlines()] on the keep-list file *)
  readlines : string → list string;
  (** [str.strip] *)
  strip : string → string
}.

(** ['{:0>4d}'.format(n)] *)
Fixpoint zeros (n : nat) : string :=
  match n with
  | O => ""
  | S n' => String "0" (zeros n')
  end.

Definition format_04d (n : nat) : string :=
  let s := NilEmpty.string_of_uint (Nat.to_uint n) in
  zeros (4 - String.length s) +:+ s.

(** [itertools.compress(data, selectors)] *)
Fixpoint compress {A} (data : list A) (selectors : list bool) : list A :=
  match data, selectors with
  | x :: data', b :: selectors' =>
      if b then x :: compress data' selectors' else compress data' selectors'
  | _, _ => []
  end.

Definition set_instances (c : DetectionLocation) (l : list IndexedDetection) : DetectionLocation :=
  {| instances := l;
     l_bbox := l_bbox c;
     relativeDir := relativeDir c;
     sampleImageRelativeFileName := sampleImageRelativeFileName c |}.

Definition set_sampleImageRelativeFileName (c : DetectionLocation) (s : string) : DetectionLocation :=
  {| instances := instances c;
     l_bbox := l_bbox c;
     relativeDir := relativeDir c;
     sampleImageRelativeFileName := s |}.

Definition set_conf (d : Detection) (p : Q) : Detection :=
  {| category := category d; conf := p; bbox := bbox d |}.

Definition set_detections (r : Row) (l : list Detection) : Row :=
  {| file := file r; max_detection_conf := max_detection_conf r; detections := l |}.

Definition set_max_detection_conf (r : Row) (p : Q) : Row :=
  {| file := file r; max_detection_conf := p; detections := detections r |}.

Definition set_maxSuspiciousDetectionSize (o : RepeatDetectionOptions) (s : Q)
    : RepeatDetectionOptions :=
  {| imageBase := imageBase o;
     outputBase := outputBase o;
     confidenceMin := confidenceMin o;
     confidenceMax := confidenceMax o;
     iouThreshold := iouThreshold o;
     occurrenceThreshold := occurrenceThreshold o;
     maxSuspiciousDetectionSize := s;
     excludeClasses := excludeClasses o;
     filterFileToLoad := filterFileToLoad o;
     filteredFileListToLoad := filteredFileListToLoad o;
     bWriteFilteringFolder := bWriteFilteringFolder o;
     debugMaxDir := debugMaxDir o;
     nDirLevelsFromLeaf := nDirLevelsFromLeaf o |}.

(** ** The engine *)

Section Engine.
Context `{Externals}.
Variable options : RepeatDetectionOptions.

(** *** Separate files into directories *)

(** The directory of a row: [os.path.dirname] of its path, then
    [nDirLevelsFromLeaf] more levels up. *)
Definition dir_key (relativePath : string) : string :=
  let dirName := dirname relativePath in
  if 0 <? nDirLevelsFromLeaf options
  then Nat.iter (Z.to_nat (nDirLevelsFromLeaf options)) dirname dirName
  else dirName.

Definition Partition : Type := (list (string * list Row) * gmap string nat)%type.

(** The body of the loop over [detectionResults.iterrows()]. *)
Definition separate_row (st : Partition) (iRow : nat) (row : Row) : result Partition :=
  let '(rowsByDirectory, filenameToRow) := st in
  let relativePath := file row in
  let dirName := dir_key relativePath in
  _ ← assert (0 <? Z.of_nat (String.length dirName));
  let rowsByDirectory :=
    if negb (dict_mem rowsByDirectory dirName)
    then dict_set rowsByDirectory dirName []
    else rowsByDirectory in
  rows ← from_option Ok (Raise KeyError) (dict_get rowsByDirectory dirName);
  let rowsByDirectory := dict_set rowsByDirectory dirName (rows ++ [row]) in
  _ ← assert (negb (bool_decide (is_Some (filenameToRow !! relativePath))));
  Ok (rowsByDirectory, <[relativePath := iRow]> filenameToRow).

Fixpoint separate_rows (rows : list Row) (iRow : nat) (st : Partition) : result Partition :=
  match rows with
  | [] => Ok st
  | row :: rest =>
      st' ← separate_row st iRow row;
      separate_rows rest (S iRow) st'
  end.

Definition separate_files (table : list Row) : result Partition :=
  separate_rows table 0%nat ([], ∅).

(** *** Look for matches (one directory) *)

(** The loop over [candidateDetections]: the instance is appended to every
    candidate whose box matches; the flag says whether one did. *)
Definition match_candidate (bbox : list Q) (instance : IndexedDetection)
    (st : bool * list DetectionLocation) (candidate : DetectionLocation)
    : bool * list DetectionLocation :=
  let '(bFoundSimilarDetection, done) := st in
  let iou := get_iou bbox (l_bbox candidate) in
  if Qle_bool (iouThreshold options) iou
  then (true, done ++ [set_instances candidate (instances candidate ++ [instance])])
  else (bFoundSimilarDetection, done ++ [candidate]).

Definition match_candidates (bbox : list Q) (instance : IndexedDetection)
    (candidateDetections : list DetectionLocation) : bool * list DetectionLocation :=
  fold_left (match_candidate bbox instance) candidateDetections (false, []).

(** The part of the detection loop after the filters. *)
Definition add_detection (dirName : string) (row : Row) (iDet : nat)
    (detection : Detection) (candidateDetections : list DetectionLocation)
    : list DetectionLocation :=
  let instance :=
    {| iDetection := Z.of_nat iDet;
       filename := file row;
       i_bbox := bbox detection;
       confidence := conf detection;
       i_category := category detection |} in
  let '(bFoundSimilarDetection, candidateDetections) :=
    match_candidates (bbox detection) instance candidateDetections in
  if negb bFoundSimilarDetection
  then candidateDetections ++ [DetectionLocation_init instance detection dirName]
  else candidateDetections.

(** Is the class of the detection excluded? *)
Definition class_excluded (detection : Detection) : result bool :=
  if 0 <? Z.of_nat (length (excludeClasses options))
  then iClass ← from_option Ok (Raise ValueError) (py_int (category detection));
       Ok (bool_decide (iClass ∈ excludeClasses options))
  else Ok false.

(** The body of the loop over [enumerate(detections)]. *)
Definition process_detection (dirName : string) (row : Row) (iDet : nat)
    (detection : Detection) (candidateDetections : list DetectionLocation)
    : result (list DetectionLocation) :=
  let confidence := conf detection in
  _ ← assert (Qle_bool 0 confidence && Qle_bool confidence 1);
  if Qlt_bool confidence (confidenceMin options) then Ok candidateDetections else
  if Qlt_bool (confidenceMax options) confidence then Ok candidateDetections else
  excluded ← class_excluded detection;
  if (excluded : bool) then Ok candidateDetections else
  w ← py_getitem (bbox detection) 2;
  h ← py_getitem (bbox detection) 3;
  let area := float_mul h w in
  _ ← assert (Qle_bool 0 area && Qle_bool area 1);
  if Qlt_bool (maxSuspiciousDetectionSize options) area then Ok candidateDetections else
  Ok (add_detection dirName row iDet detection candidateDetections).

Fixpoint process_detections (dirName : string) (row : Row) (iDet : nat)
    (dets : list Detection) (candidateDetections : list DetectionLocation)
    : result (list DetectionLocation) :=
  match dets with
  | [] => Ok candidateDetections
  | detection :: rest =>
      candidateDetections ← process_detection dirName row iDet detection candidateDetections;
      process_detections dirName row (S iDet) rest candidateDetections
  end.

(** The body of the loop over [rows.iterrows()]. *)
Definition process_row (dirName : string) (row : Row)
    (candidateDetections : list DetectionLocation) : result (list DetectionLocation) :=
  if negb (is_image_file (file row)) then Ok candidateDetections else
  let maxP := max_detection_conf row in
  if Qlt_bool maxP (confidenceMin options) then Ok candidateDetections else
  _ ← assert (0 <? Z.of_nat (length (detections row)));
  process_detections dirName row 0%nat (detections row) candidateDetections.

Fixpoint process_rows (dirName : string) (rows : list Row)
    (candidateDetections : list DetectionLocation) : result (list DetectionLocation) :=
  match rows with
  | [] => Ok candidateDetections
  | row :: rest =>
      candidateDetections ← process_row dirName row candidateDetections;
      process_rows dirName rest candidateDetections
  end.

Definition find_matches_in_directory (dirName : string)
    (rowsByDirectory : list (string * list Row)) : result (list DetectionLocation) :=
  rows ← from_option Ok (Raise KeyError) (dict_get rowsByDirectory dirName);
  process_rows dirName rows [].

(** *** Find suspicious locations based on match results *)

Definition keep_suspicious (suspiciousDetectionsThisDir : list DetectionLocation)
    (candidateLocation : DetectionLocation) : list DetectionLocation :=
  let nOccurrences := Z.of_nat (length (instances candidateLocation)) in
  if nOccurrences <? occurrenceThreshold options
  then suspiciousDetectionsThisDir
  else suspiciousDetectionsThisDir ++ [candidateLocation].

Definition find_suspicious (candidateDetectionsThisDir : list DetectionLocation)
    : list DetectionLocation :=
  fold_left keep_suspicious candidateDetectionsThisDir [].

Fixpoint find_all_matches (dirsToSearch : list string)
    (rowsByDirectory : list (string * list Row)) : result (list (list DetectionLocation)) :=
  match dirsToSearch with
  | [] => Ok []
  | dirName :: rest =>
      c ← find_matches_in_directory dirName rowsByDirectory;
      cs ← find_all_matches rest rowsByDirectory;
      Ok (c :: cs)
  end.

(** Discover mode: the candidates of every searched directory, filtered. *)
Definition discover (dirsToSearch : list string)
    (rowsByDirectory : list (string * list Row)) : result (list (list DetectionLocation)) :=
  allCandidateDetections ← find_all_matches dirsToSearch rowsByDirectory;
  Ok (map find_suspicious allCandidateDetections).

(** *** Load the candidates from a review file *)

Definition is_valid_detection (fileList : option (list string))
    (filteringBaseDir : string) (detection : DetectionLocation) : bool :=
  match fileList with
  | None =>
      let imageFullPath := join filteringBaseDir (sampleImageRelativeFileName detection) in
      isfile imageFullPath
  | Some l => bool_decide (sampleImageRelativeFileName detection ∈ l)
  end.

(** The loop over [enumerate(detections)] that clears the flag of every
    candidate that is not valid. *)
Fixpoint check_detections (fileList : option (list string)) (filteringBaseDir : string)
    (dets : list DetectionLocation) (iDet : nat) (bValidDetection : list bool) : list bool :=
  match dets with
  | [] => bValidDetection
  | detection :: rest =>
      let bValidDetection :=
        if negb (is_valid_detection fileList filteringBaseDir detection)
        then <[iDet := false]> bValidDetection
        else bValidDetection in
      check_detections fileList filteringBaseDir rest (S iDet) bValidDetection
  end.

Definition filter_directory (fileList : option (list string)) (filteringBaseDir : string)
    (dets : list DetectionLocation) : list DetectionLocation :=
  let bValidDetection := replicate (length dets) true in
  let bValidDetection := check_detections fileList filteringBaseDir dets 0%nat bValidDetection in
  compress dets bValidDetection.

Definition load_file_list : option (list string) :=
  match filteredFileListToLoad options with
  | Some f => Some (map strip (readlines f))
  | None => None
  end.

(** Reload mode. *)
Definition reload (dirsToSearch : list string) : result (list (list DetectionLocation)) :=
  let suspiciousDetections := load_filter_file (filterFileToLoad options) in
  let filteringBaseDir := dirname (filterFileToLoad options) in
  _ ← assert (bool_decide (length suspiciousDetections = length dirsToSearch));
  let fileList := load_file_list in
  Ok (map (filter_directory fileList filteringBaseDir) suspiciousDetections).

(** *** Update the detection table *)

(** The body of the loop over the instances of one suspicious location. *)
Definition negate_instance (filenameToRow : gmap string nat) (locationBbox : list Q)
    (st : list Row * nat) (instance : IndexedDetection) : result (list Row * nat) :=
  let '(detectionResults, nBboxChanges) := st in
  let instanceBbox := i_bbox instance in
  let iou := get_iou instanceBbox locationBbox in
  _ ← assert (Qle_bool (iouThreshold options) iou);
  _ ← assert (bool_decide (is_Some (filenameToRow !! filename instance)));
  iRow ← from_option Ok (Raise KeyError) (filenameToRow !! filename instance);
  row ← from_option Ok (Raise IndexError) (detectionResults !! iRow);
  let rowDetections := detections row in
  detectionToModify ← py_getitem rowDetections (iDetection instance);
  _ ← assert (list_Qeq_bool (py_slice_to instanceBbox 3)
                            (py_slice_to (bbox detectionToModify) 3));
  if Qle_bool 0 (conf detectionToModify)
  then
    let detectionToModify := set_conf detectionToModify (-1 * conf detectionToModify)%Q in
    let rowDetections := py_setitem rowDetections (iDetection instance) detectionToModify in
    Ok (<[iRow := set_detections row rowDetections]> detectionResults, S nBboxChanges)
  else Ok st.

Fixpoint negate_instances (filenameToRow : gmap string nat) (locationBbox : list Q)
    (l : list IndexedDetection) (st : list Row * nat) : result (list Row * nat) :=
  match l with
  | [] => Ok st
  | instance :: rest =>
      st ← negate_instance filenameToRow locationBbox st instance;
      negate_instances filenameToRow locationBbox rest st
  end.

Fixpoint negate_events (filenameToRow : gmap string nat)
    (directoryEvents : list DetectionLocation) (st : list Row * nat) : result (list Row * nat) :=
  match directoryEvents with
  | [] => Ok st
  | detectionEvent :: rest =>
      st ← negate_instances filenameToRow (l_bbox detectionEvent) (instances detectionEvent) st;
      negate_events filenameToRow rest st
  end.

(** The first loop nest of [update_detection_table]. *)
Fixpoint negate_suspicious (filenameToRow : gmap string nat)
    (suspiciousDetectionsByDirectory : list (list DetectionLocation))
    (st : list Row * nat) : result (list Row * nat) :=
  match suspiciousDetectionsByDirectory with
  | [] => Ok st
  | directoryEvents :: rest =>
      st ← negate_events filenameToRow directoryEvents st;
      negate_suspicious filenameToRow rest st
  end.

(** The loop over the detections of one row: the running maximum and the
    number of negative confidences. *)
Definition scan_detection (st : option Q * nat) (detection : Detection) : option Q * nat :=
  let '(maxP, nNegative) := st in
  let p := conf detection in
  let nNegative := if Qlt_bool p 0 then S nNegative else nNegative in
  let maxP :=
    match maxP with
    | None => Some p
    | Some m => if Qlt_bool m p then Some p else Some m
    end in
  (maxP, nNegative).

Definition scan_detections (dets : list Detection) : option Q * nat :=
  fold_left scan_detection dets (None, 0%nat).

(** nProbChanges, nProbChangesToNegative, nProbChangesAcrossThreshold *)
Record Counters : Type := mkCounters {
  nProbChanges : nat;
  nProbChangesToNegative : nat;
  nProbChangesAcrossThreshold : nat
}.

(** [0.00000001] *)
Definition tolerance : Q := Eval vm_compute in float (1 # 100000000).

(** The body of the second loop of [update_detection_table]. *)
Definition update_max (st : list Row * Counters) (iRow : nat) (row : Row)
    : result (list Row * Counters) :=
  let '(detectionResults, c) := st in
  let dets := detections row in
  if bool_decide (length dets = 0%nat) then Ok st else
  let maxPOriginal := max_detection_conf row in
  _ ← assert (Qle_bool 0 maxPOriginal);
  let '(maxP, nNegative) := scan_detections dets in
  maxP ← from_option Ok (Raise TypeError) maxP;
  if Qlt_bool tolerance (Qabs (float_sub maxP maxPOriginal))
  then
    _ ← assert (Qlt_bool maxP maxPOriginal);
    let detectionResults :=
      alter (λ r, set_max_detection_conf r maxP) iRow detectionResults in
    let c :=
      {| nProbChanges := S (nProbChanges c);
         nProbChangesToNegative :=
           if Qlt_bool maxP 0 then S (nProbChangesToNegative c)
           else nProbChangesToNegative c;
         nProbChangesAcrossThreshold :=
           if Qle_bool (confidenceMin options) maxPOriginal
              && Qlt_bool maxP (confidenceMin options)
           then S (nProbChangesAcrossThreshold c)
           else nProbChangesAcrossThreshold c |} in
    _ ← assert (bool_decide (0 < nNegative)%nat);
    Ok (detectionResults, c)
  else Ok st.

Fixpoint update_maxes (rows : list Row) (iRow : nat) (st : list Row * Counters)
    : result (list Row * Counters) :=
  match rows with
  | [] => Ok st
  | row :: rest =>
      st ← update_max st iRow row;
      update_maxes rest (S iRow) st
  end.

(** [update_detection_table]; the result carries the table and the four
    counters of the final message. *)
Definition update_detection_table (detectionResults : list Row)
    (filenameToRow : gmap string nat)
    (suspiciousDetectionsByDirectory : list (list DetectionLocation))
    : result (list Row * (nat * Counters)) :=
  '(detectionResults, nBboxChanges) ←
    negate_suspicious filenameToRow suspiciousDetectionsByDirectory (detectionResults, 0%nat);
  '(detectionResults, c) ←
    update_maxes detectionResults 0%nat (detectionResults, mkCounters 0 0 0);
  Ok (detectionResults, (nBboxChanges, c)).

(** *** Create the filtering folder *)

Definition write_sample (iDir iDet : nat) (detection : DetectionLocation)
    : result DetectionLocation :=
  instance ← py_getitem (instances detection) 0;
  let relativePath := filename instance in
  let inputFullPath := join (imageBase options) relativePath in
  _ ← assert (isfile inputFullPath);
  let outputRelativePath :=
    "dir" +:+ format_04d iDir +:+ "_det" +:+ format_04d iDet +:+ ".jpg" in
  Ok (set_sampleImageRelativeFileName detection outputRelativePath).

Fixpoint write_samples (iDir : nat) (dets : list DetectionLocation) (iDet : nat)
    : result (list DetectionLocation) :=
  match dets with
  | [] => Ok []
  | detection :: rest =>
      d ← write_sample iDir iDet detection;
      ds ← write_samples iDir rest (S iDet);
      Ok (d :: ds)
  end.

Fixpoint write_filtering_folder (suspiciousDetections : list (list DetectionLocation))
    (iDir : nat) : result (list (list DetectionLocation)) :=
  match suspiciousDetections with
  | [] => Ok []
  | suspiciousDetectionsThisDir :: rest =>
      d ← write_samples iDir suspiciousDetectionsThisDir 0%nat;
      ds ← write_filtering_folder rest (S iDir);
      Ok (d :: ds)
  end.

(** *** Main function *)

(** The rows of the groups hold the detection dicts of the rows of the
    table, which [update_detection_table] changes in place: after the update
    a row of a group shows the detections of the updated table, beside the
    [max_detection_conf] it had when the groups were built. *)
Definition shared_row (detectionResults : list Row) (filenameToRow : gmap string nat)
    (row : Row) : Row :=
  match filenameToRow !! file row ≫= (detectionResults !!.) with
  | Some r => set_detections row (detections r)
  | None => row
  end.

Definition shared_rows (detectionResults : list Row) (filenameToRow : gmap string nat)
    (rowsByDirectory : list (string * list Row)) : list (string * list Row) :=
  map (λ '(dirName, rows),
         (dirName, map (shared_row detectionResults filenameToRow) rows))
      rowsByDirectory.

(** [find_repeat_detections] on a loaded table, with [bRenderHtml] off. *)
Definition find_repeat_detections (detectionResults : list Row)
    : result RepeatDetectionResults :=
  '(rowsByDirectory, filenameToRow) ← separate_files detectionResults;
  let dirsToSearch := py_slice_to (dict_keys rowsByDirectory) (debugMaxDir options) in
  suspiciousDetections ←
    (if bool_decide (String.length (filterFileToLoad options) = 0%nat)
     then discover dirsToSearch rowsByDirectory
     else reload dirsToSearch);
  '(detectionResults, _) ←
    update_detection_table detectionResults filenameToRow suspiciousDetections;
  suspiciousDetections ←
    (if bWriteFilteringFolder options
     then write_filtering_folder suspiciousDetections 0%nat
     else Ok suspiciousDetections);
  Ok {| detectionResults := detectionResults;
        rowsByDirectory := shared_rows detectionResults filenameToRow rowsByDirectory;
        filenameToRow := filenameToRow;
        suspiciousDetections := suspiciousDetections |}.

End Engine.

(** ** A POSIX instance of the external functions *)

Module Posix.

Definition is_sep (c : ascii) : bool := bool_decide (c = "/"%char).

(** [p[:p.rfind('/') + 1]] *)
Fixpoint head_to_last_sep (p : string) : option string :=
  match p with
  | EmptyString => None
  | String c rest =>
      match head_to_last_sep rest with
      | Some h => Some (String c h)
      | None => if is_sep c then Some (String c EmptyString) else None
      end
  end.

(** [s.rstrip('/')] *)
Fixpoint rstrip_sep (s : string) : string :=
  match s with
  | EmptyString => EmptyString
  | String c rest =>
      match rstrip_sep rest with
      | EmptyString => if is_sep c then EmptyString else String c EmptyString
      | r => String c r
      end
  end.

(** [posixpath.dirname]: the head up to the last separator, without its
    trailing separators unless it consists of separators only. *)
Definition dirname (p : string) : string :=
  let head := default "" (head_to_last_sep p) in
  match rstrip_sep head with
  | EmptyString => head
  | h => h
  end.

Fixpoint ends_with_sep (s : string) : bool :=
  match s with
  | EmptyString => false
  | String c EmptyString => is_sep c
  | String _ rest => ends_with_sep rest
  end.

(** [posixpath.join] of two components *)
Definition join (a b : string) : string :=
  match b with
  | String c _ =>
      if is_sep c then b
      else if bool_decide (a = "") || ends_with_sep a then a +:+ b
      else a +:+ "/" +:+ b
  | EmptyString =>
      if bool_decide (a = "") || ends_with_sep a then a else a +:+ "/"
  end.

Definition is_space (c : ascii) : bool :=
  bool_decide (c = " "%char) || bool_decide (c = "009"%char)
  || bool_decide (c = "010"%char) || bool_decide (c = "011"%char)
  || bool_decide (c = "012"%char) || bool_decide (c = "013"%char).

Fixpoint lstrip (s : string) : string :=
  match s with
  | EmptyString => EmptyString
  | String c rest => if is_space c then lstrip rest else s
  end.

Fixpoint rstrip (s : string) : string :=
  match s with
  | EmptyString => EmptyString
  | String c rest =>
      match rstrip rest with
      | EmptyString => if is_space c then EmptyString else String c EmptyString
      | r => String c r
      end
  end.

(** [str.strip] on ASCII white space *)
Definition strip (s : string) : string := rstrip (lstrip s).

(** [int(s)] on a decimal numeral with an optional minus sign *)
Definition py_int (s : string) : option Z :=
  Z.of_int <$> NilZero.int_of_string s.

Fixpoint has_suffix (suffix s : string) : bool :=
  bool_decide (s = suffix) ||
  match s with
  | EmptyString => false
  | String _ rest => has_suffix suffix rest
  end.

(** An image file is recognised by its extension. *)
Definition is_image_file (s : string) : bool :=
  has_suffix ".jpg" s || has_suffix ".jpeg" s || has_suffix ".gif" s
  || has_suffix ".png" s.

Definition Qmin (a b : Q) : Q := if Qle_bool a b then a else b.
Definition Qmax (a b : Q) : Q := if Qle_bool a b then b else a.

(** Modelled from the spec: [ct_utils.get_iou] is not part of the sources.
    The spec gives the standard overlap ratio of two axis-aligned boxes
    [(x_min, y_min, w, h)], with union area
    [area(A) + area(B) - intersection(A, B)], and the value 0 for
    disjoint boxes. *)
Definition get_iou (a b : list Q) : Q :=
  match a, b with
  | [ax; ay; aw; ah], [bx; by'; bw; bh] =>
      let iw := (Qmin (ax + aw) (bx + bw) - Qmax ax bx)%Q in
      let ih := (Qmin (ay + ah) (by' + bh) - Qmax ay by')%Q in
      if Qle_bool iw 0 || Qle_bool ih 0 then 0%Q
      else
        let inter := (iw * ih)%Q in
        (inter / (aw * ah + bw * bh - inter))%Q
  | _, _ => 0%Q
  end.

End Posix.

(** The file system is the list of the files that exist, the content of the
    review file and the lines of the keep-list file. *)
Definition posix_env (files : list string) (review : list (list DetectionLocation))
    (keep : list string) : Externals :=
  {| get_iou := Posix.get_iou;
     is_image_file := Posix.is_image_file;
     dirname := Posix.dirname;
     join := Posix.join;
     isfile := λ f, bool_decide (f ∈ files);
     py_int := Posix.py_int;
     load_filter_file := λ _, review;
     readlines := λ _, keep;
     strip := Posix.strip |}.

(** ** The scenario of the specification *)

Module Scenario.

(** The numbers of the scenario are written as the decimal fractions of the
    specification.  The rounded operations read each as the double nearest
    to it, and every comparison that a run of the scenario makes comes out
    the same on the fractions and on those doubles. *)

Definition box : list Q := [1 # 10; 1 # 10; 5 # 100; 5 # 100]%Q.

Definition image_in (d : string) (i : nat) : string :=
  d +:+ "/image" +:+ format_04d i +:+ ".jpg".

Definition row_in (d : string) (p : Q) (i : nat) : Row :=
  {| file := image_in d i;
     max_detection_conf := 9 # 10;
     detections := [ {| category := "1"; conf := p; bbox := box |} ] |}.

(** [n] images of directory [d], each with one detection at [box] with
    confidence 0.9 and category "1". *)
Definition table_in (d : string) (n : nat) : list Row :=
  row_in d (9 # 10) <$> seq 0 n.

Definition image : nat → string := image_in "A".
Definition row : Q → nat → Row := row_in "A".
Definition table : nat → list Row := table_in "A".

(** The same table with every confidence negated. *)
Definition suppressed (n : nat) : list Row :=
  (λ i, set_max_detection_conf (row (-9 # 10) i) (-9 # 10)) <$> seq 0 n.

Definition options : RepeatDetectionOptions :=
  {| imageBase := "";
     outputBase := "";
     confidenceMin := 85 # 100;
     confidenceMax := 1;
     iouThreshold := 9 # 10;
     occurrenceThreshold := 15;
     maxSuspiciousDetectionSize := 2 # 10;
     excludeClasses := [];
     filterFileToLoad := "";
     filteredFileListToLoad := None;
     bWriteFilteringFolder := true;
     debugMaxDir := debugMaxDir default_options;
     nDirLevelsFromLeaf := 0 |}.

(** The options with the directory limit set to [k]. *)
Definition options_max_dir (k : Z) : RepeatDetectionOptions :=
  {| imageBase := "";
     outputBase := "";
     confidenceMin := 85 # 100;
     confidenceMax := 1;
     iouThreshold := 9 # 10;
     occurrenceThreshold := 15;
     maxSuspiciousDetectionSize := 2 # 10;
     excludeClasses := [];
     filterFileToLoad := "";
     filteredFileListToLoad := None;
     bWriteFilteringFolder := true;
     debugMaxDir := k;
     nDirLevelsFromLeaf := 0 |}.

(** Every image of the table exists on disk. *)
Definition env (n : nat) : Externals := posix_env (image <$> seq 0 n) [] [].

(** Twenty images in directory [A], then twenty in directory [B]. *)
Definition two_directories : list Row := table_in "A" 20 ++ table_in "B" 20.

Definition no_results : RepeatDetectionResults :=
  {| detectionResults := []; rowsByDirectory := []; filenameToRow := ∅;
     suspiciousDetections := [] |}.

(** What the run on [two_directories] returns, every image being on disk. *)
Definition two_directories_result : RepeatDetectionResults :=
  Eval vm_compute in
    match find_repeat_detections (H := posix_env (file <$> two_directories) [] [])
            options two_directories with
    | Ok res => res
    | Raise _ => no_results
    end.

End Scenario.

(** ** The occurrence test *)

(** The candidate has at least [occurrenceThreshold] instances. *)
Definition enough_occurrences (options : RepeatDetectionOptions)
    (c : DetectionLocation) : Prop :=
  occurrenceThreshold options ≤ Z.of_nat (length (instances c)).

#[global] Instance enough_occurrences_dec options c :
  Decision (enough_occurrences options c).
Proof. unfold enough_occurrences. apply _. Defined.

(** ** Relations between a table and the updated table *)

(** A confidence and what suppression can make of it: the same value, or the
    negation of a value that was not negative. *)
Definition suppressed_conf (a b : Q) : Prop :=
  b = a ∨ ((0 <= a)%Q ∧ b = (-1 * a)%Q).

Definition suppressed_detection (d d' : Detection) : Prop :=
  category d' = category d ∧ bbox d' = bbox d ∧ suppressed_conf (conf d) (conf d').

Definition suppressed_row (r r' : Row) : Prop :=
  file r' = file r
  ∧ max_detection_conf r' = max_detection_conf r
  ∧ Forall2 suppressed_detection (detections r) (detections r').

Definition suppressed_table (t t' : list Row) : Prop := Forall2 suppressed_row t t'.

(** Row [k] is the row of an instance of a suspicious candidate. *)
Definition targeted (filenameToRow : gmap string nat)
    (susp : list (list DetectionLocation)) (k : nat) : Prop :=
  ∃ cands c inst,
    cands ∈ susp ∧ c ∈ cands ∧ inst ∈ instances c
    ∧ filenameToRow !! filename inst = Some k.

(** The maximum confidence that the second pass recomputes for a row. *)
Definition recomputed_max (dets : list Detection) : option Q :=
  (scan_detections dets).1.

(** What the second pass does to row [r] of the table when it visits [row]:
    nothing when the row has no detection or the recomputed maximum is within
    the tolerance of the cached one (the difference is the floating-point
    one, [float_sub]), and otherwise the cache takes the
    recomputed maximum, which is smaller. *)
Definition refreshed (row r r' : Row) : Prop :=
  (detections row = [] ∧ r' = r)
  ∨ ∃ maxP,
      recomputed_max (detections row) = Some maxP
      ∧ detections row ≠ []
      ∧ (0 <= max_detection_conf row)%Q
      ∧ ((¬ (tolerance < Qabs (float_sub maxP (max_detection_conf row)))%Q ∧ r' = r)
         ∨ ((tolerance < Qabs (float_sub maxP (max_detection_conf row)))%Q
            ∧ (maxP < max_detection_conf row)%Q
            ∧ max_detection_conf r' = maxP)).

(** A row whose recomputed maximum moved away from the cached one without
    getting smaller. *)
Definition offending (row : Row) : Prop :=
  detections row ≠ []
  ∧ ∃ maxP,
      recomputed_max (detections row) = Some maxP
      ∧ (tolerance < Qabs (float_sub maxP (max_detection_conf row)))%Q
      ∧ ¬ (maxP < max_detection_conf row)%Q.

(** ** The partition of a table *)

(** The row is added to the group of its key; a new key goes last. *)
Fixpoint group_add (k : string) (row : Row) (d : list (string * list Row))
    : list (string * list Row) :=
  match d with
  | [] => [(k, [row])]
  | (k', rows) :: d' =>
      if decide (k = k') then (k', rows ++ [row]) :: d'
      else (k', rows) :: group_add k row d'
  end.

(** No row has an empty directory key and no path occurs twice. *)
Definition well_formed_table `{Externals} (options : RepeatDetectionOptions)
    (table : list Row) : Prop :=
  (∀ r, r ∈ table → dir_key options (file r) ≠ "")
  ∧ NoDup (file <$> table).

(** The directory groups and the index of the paths of a table: the keys are
    distinct, the group of a key holds the rows of that key, in table order,
    and a path is mapped to the position of its row. *)
Definition partitions `{Externals} (options : RepeatDetectionOptions)
    (table : list Row) (rbd : list (string * list Row)) (f2r : gmap string nat) : Prop :=
  NoDup (dict_keys rbd)
  ∧ (∀ k, dict_get rbd k
          = match filter (λ r, dir_key options (file r) = k) table with
            | [] => None
            | g => Some g
            end)
  ∧ (∀ f i, f2r !! f = Some i ↔ ∃ r, table !! i = Some r ∧ file r = f).

(** The candidates of directory [d] whose instances come from [files]. *)
Definition from_directory (d : string) (files : list string)
    (cands : list DetectionLocation) : Prop :=
  ∀ c, c ∈ cands →
    relativeDir c = d ∧ ∀ inst, inst ∈ instances c → filename inst ∈ files.

(** Two lists of candidates that differ in the sample image names only. *)
Definition same_candidates (l l' : list DetectionLocation) : Prop :=
  Forall2 (λ c c', instances c' = instances c
                   ∧ l_bbox c' = l_bbox c
                   ∧ relativeDir c' = relativeDir c) l l'.

(** ** What clustering guarantees *)

(** The detection passes every filter of the detection loop. *)
Definition passes_filters `{Externals} (options : RepeatDetectionOptions)
    (d : Detection) : Prop :=
  (0 <= conf d)%Q ∧ (conf d <= 1)%Q
  ∧ (confidenceMin options <= conf d)%Q
  ∧ (conf d <= confidenceMax options)%Q
  ∧ class_excluded options d = Ok false
  ∧ ∃ w h,
      py_getitem (bbox d) 2 = Ok w ∧ py_getitem (bbox d) 3 = Ok h
      ∧ (0 <= float_mul h w)%Q ∧ (float_mul h w <= 1)%Q
      ∧ (float_mul h w <= maxSuspiciousDetectionSize options)%Q.

(** The instance records a detection of the row that passes the filters: its
    position, box, confidence and category. *)
Definition instance_of `{Externals} (options : RepeatDetectionOptions)
    (row : Row) (inst : IndexedDetection) : Prop :=
  filename inst = file row
  ∧ ∃ j d,
      iDetection inst = Z.of_nat j ∧ detections row !! j = Some d
      ∧ i_bbox inst = bbox d ∧ confidence inst = conf d
      ∧ i_category inst = category d
      ∧ passes_filters options d.

(** The instance comes from a row of [rows] that the row loop did not skip. *)
Definition searched_row `{Externals} (options : RepeatDetectionOptions)
    (rows : list Row) (inst : IndexedDetection) : Prop :=
  ∃ row,
    row ∈ rows ∧ is_image_file (file row) = true
    ∧ (confidenceMin options <= max_detection_conf row)%Q
    ∧ instance_of options row inst.

(** A candidate as the clustering of directory [d] builds it: it has a first
    instance, whose box is the box of the candidate; every later instance
    matched that box; and every instance comes from a row of the directory. *)
Definition well_clustered `{Externals} (options : RepeatDetectionOptions)
    (d : string) (rows : list Row) (c : DetectionLocation) : Prop :=
  relativeDir c = d
  ∧ sampleImageRelativeFileName c = ""
  ∧ ∃ first rest,
      instances c = first :: rest
      ∧ l_bbox c = i_bbox first
      ∧ Forall (λ inst, (iouThreshold options <= get_iou (i_bbox inst) (l_bbox c))%Q) rest
      ∧ Forall (searched_row options rows) (first :: rest).

(** Candidate [c'] is candidate [c] with more instances at the end. *)
Definition extends (c c' : DetectionLocation) : Prop :=
  l_bbox c' = l_bbox c
  ∧ relativeDir c' = relativeDir c
  ∧ sampleImageRelativeFileName c' = sampleImageRelativeFileName c
  ∧ instances c `prefix_of` instances c'.

(** The candidates [cands'] are the candidates [cands], each one extended,
    followed by new ones. *)
Definition grows (cands cands' : list DetectionLocation) : Prop :=
  ∃ old new, cands' = old ++ new ∧ Forall2 extends cands old.

(** A detection on which the detection loop raises nothing: a confidence in
    [0, 1], a category that [int] reads when classes are excluded, and a box
    with a width and a height whose floating-point product is in [0, 1]. *)
Definition clean_detection `{Externals} (options : RepeatDetectionOptions)
    (det : Detection) : Prop :=
  (0 <= conf det)%Q ∧ (conf det <= 1)%Q
  ∧ (excludeClasses options = [] ∨ is_Some (py_int (category det)))
  ∧ ∃ w h,
      py_getitem (bbox det) 2 = Ok w ∧ py_getitem (bbox det) 3 = Ok h
      ∧ (0 <= float_mul h w)%Q ∧ (float_mul h w <= 1)%Q.

(** A row on which the row loop raises nothing: when it is an image whose
    cached maximum reaches [confidenceMin], it has detections and they are
    clean. *)
Definition clean_row `{Externals} (options : RepeatDetectionOptions)
    (row : Row) : Prop :=
  is_image_file (file row) = true →
  (confidenceMin options <= max_detection_conf row)%Q →
  detections row ≠ [] ∧ Forall (clean_detection options) (detections row).

(** The exceptions of the detection loop: a failed assertion, a box that is
    too short, or a category that is no integer while classes are excluded. *)
Definition clustering_exn (options : RepeatDetectionOptions) (e : exn) : Prop :=
  e = AssertionError ∨ e = IndexError
  ∨ (e = ValueError ∧ excludeClasses options ≠ []).

(** ** The two passes of the table update, as functions *)

(** Does the second pass move the cached maximum of the row? *)
Definition row_changes (row : Row) : bool :=
  match detections row, recomputed_max (detections row) with
  | _ :: _, Some maxP => Qlt_bool tolerance (Qabs (float_sub maxP (max_detection_conf row)))
  | _, _ => false
  end.

(** The row as a successful second pass leaves it. *)
Definition refresh_row (row : Row) : Row :=
  match detections row, recomputed_max (detections row) with
  | _ :: _, Some maxP =>
      if Qlt_bool tolerance (Qabs (float_sub maxP (max_detection_conf row)))
      then set_max_detection_conf row maxP
      else row
  | _, _ => row
  end.

(** The position that the index [i] denotes in a Python list of length [n]. *)
Definition py_index (n : nat) (i : Z) : option nat :=
  let j := if i <? 0 then i + Z.of_nat n else i in
  if (j <? 0) || (Z.of_nat n <=? j) then None else Some (Z.to_nat j).

(** The instances of the suspicious candidates, in the order of the three
    loops of the first pass, each with the box of its candidate. *)
Definition flagged (susp : list (list DetectionLocation))
    : list (list Q * IndexedDetection) :=
  c ← concat susp; (λ inst, (l_bbox c, inst)) <$> instances c.

(** The first pass as one loop over [flagged]. *)
Fixpoint negate_pairs `{Externals} (options : RepeatDetectionOptions)
    (filenameToRow : gmap string nat) (l : list (list Q * IndexedDetection))
    (st : list Row * nat) : result (list Row * nat) :=
  match l with
  | [] => Ok st
  | (locationBbox, instance) :: rest =>
      st ← negate_instance options filenameToRow locationBbox st instance;
      negate_pairs options filenameToRow rest st
  end.

(** The assertions and lookups of the body of the first pass, for one
    instance, against table [t]. *)
Definition verifiable `{Externals} (options : RepeatDetectionOptions)
    (filenameToRow : gmap string nat) (t : list Row)
    (p : list Q * IndexedDetection) : Prop :=
  (iouThreshold options <= get_iou (i_bbox p.2) p.1)%Q
  ∧ ∃ i r d,
      filenameToRow !! filename p.2 = Some i
      ∧ t !! i = Some r
      ∧ py_getitem (detections r) (iDetection p.2) = Ok d
      ∧ list_Qeq_bool (py_slice_to (i_bbox p.2) 3) (py_slice_to (bbox d) 3) = true.

Definition count_rows (f : Row → bool) (rows : list Row) : nat :=
  length (List.filter f rows).

(** The second pass moves the cached maximum of the row below zero. *)
Definition changes_to_negative (r : Row) : bool :=
  row_changes r && Qlt_bool (max_detection_conf (refresh_row r)) 0.

(** The second pass moves the cached maximum of the row from [confidenceMin]
    or above to below [confidenceMin]. *)
Definition changes_across (options : RepeatDetectionOptions) (r : Row) : bool :=
  row_changes r
  && Qle_bool (confidenceMin options) (max_detection_conf r)
  && Qlt_bool (max_detection_conf (refresh_row r)) (confidenceMin options).

(** ** The names of the sample images *)

(** ['dir{:0>4d}_det{:0>4d}.jpg'.format(iDir, iDetection)] *)
Definition sample_name (iDir iDet : nat) : string :=
  "dir" +:+ format_04d iDir +:+ "_det" +:+ format_04d iDet +:+ ".jpg".

(** The candidates of directory number [iDir], each with the name of its
    sample image, counting from [iDet]. *)
Definition named_from (iDir iDet : nat) (dets : list DetectionLocation)
    : list DetectionLocation :=
  imap (λ k c, set_sampleImageRelativeFileName c (sample_name iDir (iDet + k))) dets.

(** The candidates of every directory, each with the name of its sample
    image. *)
Definition named (susp : list (list DetectionLocation))
    : list (list DetectionLocation) :=
  imap (λ i dets, named_from i 0 dets) susp.

(** The first instance of the candidate exists and its image is on disk. *)
Definition sample_source_exists `{Externals} (options : RepeatDetectionOptions)
    (c : DetectionLocation) : Prop :=
  ∃ first rest,
    instances c = first :: rest
    ∧ isfile (join (imageBase options) (filename first)) = true.

Definition is_digit (c : ascii) : bool :=
  match c with
  | "0" | "1" | "2" | "3" | "4" | "5" | "6" | "7" | "8" | "9" => true
  | _ => false
  end%char.

Fixpoint all_digits (s : string) : bool :=
  match s with
  | EmptyString => true
  | String c rest => is_digit c && all_digits rest
  end.

(** The number that a string of decimal digits, leading zeros included,
    denotes. *)
Definition decode (s : string) : option nat :=
  Nat.of_uint <$> NilEmpty.uint_of_string s.

(** Options of a reload run that reads the review file [out/detectionIndex.json]
    and no keep-list. *)
Definition review_options : RepeatDetectionOptions :=
  {| imageBase := "";
     outputBase := "";
     confidenceMin := 85 # 100;
     confidenceMax := 1;
     iouThreshold := 9 # 10;
     occurrenceThreshold := 15;
     maxSuspiciousDetectionSize := 2 # 10;
     excludeClasses := [];
     filterFileToLoad := "out/detectionIndex.json";
     filteredFileListToLoad := None;
     bWriteFilteringFolder := false;
     debugMaxDir := 1;
     nDirLevelsFromLeaf := 0 |}.

(** ** The order of the directories *)

(** [keys] is in the order in which the directory keys first occur in
    [table]: a key listed before another has a row before every row of the
    other. *)
Definition first_occurrence_order `{Externals} (options : RepeatDetectionOptions)
    (table : list Row) (keys : list string) : Prop :=
  ∀ i j a b, keys !! i = Some a → keys !! j = Some b → (i < j)%nat →
    ∃ n r, table !! n = Some r ∧ dir_key options (file r) = a
           ∧ ∀ m r', table !! m = Some r' → dir_key options (file r') = b →
                     (n < m)%nat.

(** The candidates of a list all belong to directory [d]. *)
Definition candidates_of (d : string) (cands : list DetectionLocation) : Prop :=
  ∀ c, c ∈ cands → relativeDir c = d.

(** Three rows: directory [A], directory [B], directory [A] again. *)
Definition interleaved : list Row :=
  [Scenario.row_in "A" (9 # 10) 0; Scenario.row_in "B" (9 # 10) 0;
   Scenario.row_in "A" (9 # 10) 1].

(** ** A review file that names the last directory *)

(** One image in directory [A], then one in directory [B]. *)
Definition reviewed_table : list Row :=
  [Scenario.row_in "A" (9 # 10) 0; Scenario.row_in "B" (9 # 10) 0].

(** The candidate of the review file: the detection of the image of [B]. *)
Definition reviewed_candidate : DetectionLocation :=
  {| instances :=
       [ {| iDetection := 0;
            filename := Scenario.image_in "B" 0;
            i_bbox := Scenario.box;
            confidence := 9 # 10;
            i_category := "1" |} ];
     l_bbox := Scenario.box;
     relativeDir := "B";
     sampleImageRelativeFileName := "dir0000_det0000.jpg" |}.

(** A reload run on the review file [out/detectionIndex.json], with
    [debugMaxDir] at its default. *)
Definition reviewed_options : RepeatDetectionOptions :=
  {| imageBase := "";
     outputBase := "";
     confidenceMin := 85 # 100;
     confidenceMax := 1;
     iouThreshold := 9 # 10;
     occurrenceThreshold := 15;
     maxSuspiciousDetectionSize := 2 # 10;
     excludeClasses := [];
     filterFileToLoad := "out/detectionIndex.json";
     filteredFileListToLoad := None;
     bWriteFilteringFolder := false;
     debugMaxDir := debugMaxDir default_options;
     nDirLevelsFromLeaf := 0 |}.

(** The review file holds one list, for the one directory searched, with
    that candidate; its sample image is in the folder of the review file. *)
Definition reviewed_env : Externals :=
  posix_env ["out/dir0000_det0000.jpg"] [[reviewed_candidate]] [].

(** * Properties *)

(** ** Reasoning about [result] and rational comparisons *)

Lemma bind_Ok {A B} (m : result A) (f : A → result B) (b : B) :
  m ≫= f = Ok b ↔ ∃ a, m = Ok a ∧ f a = Ok b.
Proof.
  destruct m as [a|e]; simpl; split.
  - intros Hf. exists a. by split.
  - intros (a' & Ha & Hf). by simplify_eq.
  - intros Hf. discriminate Hf.
  - intros (a' & Ha & Hf). discriminate Ha.
Qed.

Lemma assert_Ok (b : bool) (u : unit) : assert b = Ok u ↔ b = true.
Proof. destruct b, u; simpl; split; intros Hb; done. Qed.

Lemma assert_true (b : bool) : b = true → assert b = Ok tt.
Proof. by intros ->. Qed.

Lemma bind_Raise {A B} (m : result A) (f : A → result B) (e : exn) :
  m ≫= f = Raise e → m = Raise e ∨ ∃ a, m = Ok a ∧ f a = Raise e.
Proof.
  destruct m as [a|e']; intros Hf.
  - right. eauto.
  - left. simpl in Hf. injection Hf as ->. reflexivity.
Qed.

Lemma assert_Raise (b : bool) (e : exn) : assert b = Raise e → e = AssertionError.
Proof. destruct b; simpl; intros He; by simplify_eq. Qed.

Lemma from_option_Ok {A} (o : option A) (e : exn) (a : A) :
  from_option Ok (Raise e) o = Ok a ↔ o = Some a.
Proof. destruct o; simpl; split; intros Ho; by simplify_eq. Qed.

Lemma Qlt_bool_iff (a b : Q) : Qlt_bool a b = true ↔ (a < b)%Q.
Proof.
  unfold Qlt_bool. rewrite negb_true_iff, <- not_true_iff_false, Qle_bool_iff.
  split; [apply Qnot_le_lt | apply Qlt_not_le].
Qed.

Lemma Qlt_bool_false (a b : Q) : Qlt_bool a b = false ↔ (b <= a)%Q.
Proof.
  unfold Qlt_bool. by rewrite negb_false_iff, Qle_bool_iff.
Qed.

Lemma Qle_bool_false (a b : Q) : Qle_bool a b = false ↔ (b < a)%Q.
Proof.
  rewrite <- not_true_iff_false, Qle_bool_iff.
  split; [apply Qnot_le_lt | apply Qlt_not_le].
Qed.

(** Decompose a hypothesis that says a monadic computation succeeded. *)
Ltac inv_ok :=
  repeat match goal with
  | Hb : (_ ≫= _) = Ok _ |- _ =>
      let a := fresh "a" in
      let Ha := fresh "Ha" in
      apply bind_Ok in Hb as (a & Ha & Hb)
  | Hb : assert _ = Ok _ |- _ => apply assert_Ok in Hb
  | Hb : from_option Ok (Raise _) _ = Ok _ |- _ => apply from_option_Ok in Hb
  | Hb : Ok _ = Ok _ |- _ => injection Hb as Hb
  end.

(** ** The occurrence filter *)

Section Classifier.
Variable options : RepeatDetectionOptions.

Lemma keep_suspicious_fold (cands acc : list DetectionLocation) :
  fold_left (keep_suspicious options) cands acc
  = acc ++ filter (enough_occurrences options) cands.
Proof.
  revert acc. induction cands as [|c cands IH]; intros acc; simpl.
  - by rewrite app_nil_r.
  - rewrite IH. unfold keep_suspicious. rewrite filter_cons.
    destruct (Z.ltb_spec (Z.of_nat (length (instances c))) (occurrenceThreshold options))
      as [Hlt|Hge].
    + rewrite decide_False; [done | unfold enough_occurrences; lia].
    + rewrite decide_True; [by rewrite <- app_assoc | done].
Qed.

Lemma find_suspicious_filter (cands : list DetectionLocation) :
  find_suspicious options cands = filter (enough_occurrences options) cands.
Proof. unfold find_suspicious. by rewrite keep_suspicious_fold. Qed.
End Classifier.

Lemma discover_filter `{Externals} options dirs rbd susp :
  discover options dirs rbd = Ok susp →
  ∃ allCandidates,
    find_all_matches options dirs rbd = Ok allCandidates
    ∧ susp = map (find_suspicious options) allCandidates.
Proof.
  unfold discover. intros Hd. inv_ok. eauto.
Qed.

(** C5. In every directory searched, a candidate is flagged suspicious exactly
    when its number of instances is at least [occurrenceThreshold]: the
    flagged candidates are the candidates filtered by that test, in the same
    order.  A candidate with [occurrenceThreshold - 1] instances is not
    flagged and one with [occurrenceThreshold] instances is. *)
Theorem occurrence_threshold_boundary options cands c :
  c ∈ cands →
  find_suspicious options cands
  = filter (λ c, occurrenceThreshold options ≤ Z.of_nat (length (instances c))) cands
  ∧ (c ∈ find_suspicious options cands
     ↔ occurrenceThreshold options ≤ Z.of_nat (length (instances c)))
  ∧ (Z.of_nat (length (instances c)) = occurrenceThreshold options - 1
     → c ∉ find_suspicious options cands)
  ∧ (Z.of_nat (length (instances c)) = occurrenceThreshold options
     → c ∈ find_suspicious options cands).
Proof.
  intros Hc. rewrite find_suspicious_filter. split; [done|].
  split; [|split].
  - rewrite list_elem_of_filter. unfold enough_occurrences. tauto.
  - rewrite list_elem_of_filter. unfold enough_occurrences. lia.
  - rewrite list_elem_of_filter. unfold enough_occurrences. intros Hn.
    split; [lia | done].
Qed.

Lemma occurrence_threshold_boundary_witness :
  let i := mkIndexedDetection 0 "A/image0000.jpg" Scenario.box (9 # 10) "1" in
  let c := mkDetectionLocation (replicate 15 i) Scenario.box "A" "" in
  let c' := mkDetectionLocation (replicate 14 i) Scenario.box "A" "" in
  c ∈ [c'; c]
  ∧ find_suspicious default_options [c'; c] = [c]
  ∧ c ∈ find_suspicious default_options [c'; c].
Proof.
  intros i c c'.
  assert (Hc : c ∈ [c'; c]) by (apply list_elem_of_further, list_elem_of_here).
  destruct (occurrence_threshold_boundary default_options [c'; c] c Hc)
    as (Heq & _ & _ & Hin).
  split; [exact Hc|]. split; [reflexivity|].
  apply Hin. reflexivity.
Defined.

(** ** The clustering step *)

Section Clustering.
Context `{Externals}.
Variable options : RepeatDetectionOptions.

Lemma match_candidate_fold (box : list Q) (instance : IndexedDetection)
    (cands done : list DetectionLocation) (found : bool) :
  fold_left (match_candidate options box instance) cands (found, done)
  = (found || existsb (λ c, Qle_bool (iouThreshold options) (get_iou box (l_bbox c))) cands,
     done ++ map (λ c, if Qle_bool (iouThreshold options) (get_iou box (l_bbox c))
                       then set_instances c (instances c ++ [instance])
                       else c) cands).
Proof.
  revert done found. induction cands as [|c cands IH]; intros done found; simpl.
  - by rewrite orb_false_r, app_nil_r.
  - destruct (Qle_bool (iouThreshold options) (get_iou box (l_bbox c))); simpl;
      rewrite IH, <- app_assoc; simpl; [|done].
    by rewrite orb_true_r.
Qed.

Lemma add_detection_spec dirName row iDet detection cands :
  let instance :=
    mkIndexedDetection (Z.of_nat iDet) (file row) (bbox detection)
                       (conf detection) (category detection) in
  let matches c :=
    Qle_bool (iouThreshold options) (get_iou (bbox detection) (l_bbox c)) in
  add_detection options dirName row iDet detection cands
  = map (λ c, if matches c then set_instances c (instances c ++ [instance]) else c) cands
    ++ (if existsb matches cands then []
        else [DetectionLocation_init instance detection dirName]).
Proof.
  intros instance matches. unfold add_detection, match_candidates.
  rewrite match_candidate_fold. simpl. fold instance.
  destruct (existsb _ cands); simpl; [by rewrite app_nil_r | done].
Qed.
End Clustering.

Section Filters.
Context `{Externals}.
Variable options : RepeatDetectionOptions.

(** A detection that passes the confidence and class filters is decided by
    its area alone. *)
Lemma process_detection_area dirName row iDet detection cands w h :
  (0 <= conf detection)%Q → (conf detection <= 1)%Q →
  (confidenceMin options <= conf detection)%Q →
  (conf detection <= confidenceMax options)%Q →
  class_excluded options detection = Ok false →
  py_getitem (bbox detection) 2 = Ok w →
  py_getitem (bbox detection) 3 = Ok h →
  (0 <= float_mul h w)%Q → (float_mul h w <= 1)%Q →
  process_detection options dirName row iDet detection cands
  = if Qlt_bool (maxSuspiciousDetectionSize options) (float_mul h w)
    then Ok cands
    else Ok (add_detection options dirName row iDet detection cands).
Proof.
  intros H0 H1 Hmin Hmax Hcls Hw Hh Ha0 Ha1. unfold process_detection.
  apply Qle_bool_iff in H0, H1, Ha0, Ha1.
  apply Qlt_bool_false in Hmin, Hmax.
  rewrite H0, H1. simpl. rewrite Hmin, Hmax, Hcls. simpl.
  rewrite Hw. simpl. rewrite Hh. simpl. rewrite Ha0, Ha1. simpl. done.
Qed.

Lemma add_detection_joins dirName row iDet detection cands :
  ∃ c, c ∈ add_detection options dirName row iDet detection cands
       ∧ last (instances c)
         = Some (mkIndexedDetection (Z.of_nat iDet) (file row) (bbox detection)
                                    (conf detection) (category detection)).
Proof.
  rewrite add_detection_spec.
  destruct (existsb _ cands) eqn:Hex.
  - apply existsb_exists in Hex as (c & Hc & Hm).
    eexists. split.
    + rewrite app_nil_r. apply list_elem_of_In, in_map_iff.
      exists c. split; [reflexivity | exact Hc].
    + rewrite Hm. simpl. apply last_snoc.
  - eexists. split.
    + apply elem_of_app. right. apply list_elem_of_here.
    + reflexivity.
Qed.
End Filters.

(** C7. A detection that passes the confidence, class and area filters is
    appended, as a new instance, to every existing candidate whose box has
    an IoU of at least [iouThreshold] with the box of the detection: such a
    candidate keeps its box, its directory and its sample image name, and
    has the instance after the instances it had.  The other candidates are
    unchanged, and a new candidate, with the instance as its only instance
    and the box of the detection as its box, is added at the end exactly
    when no candidate matched.  The area is the floating-point product of
    the height and the width. *)
Theorem clustering_membership_policy `{Externals} options dirName row iDet
    detection cands w h :
  (0 <= conf detection)%Q → (conf detection <= 1)%Q →
  (confidenceMin options <= conf detection)%Q →
  (conf detection <= confidenceMax options)%Q →
  class_excluded options detection = Ok false →
  py_getitem (bbox detection) 2 = Ok w →
  py_getitem (bbox detection) 3 = Ok h →
  (0 <= float_mul h w)%Q → (float_mul h w <= 1)%Q →
  (float_mul h w <= maxSuspiciousDetectionSize options)%Q →
  let instance :=
    {| iDetection := Z.of_nat iDet;
       filename := file row;
       i_bbox := bbox detection;
       confidence := conf detection;
       i_category := category detection |} in
  let matches c :=
    Qle_bool (iouThreshold options) (get_iou (bbox detection) (l_bbox c)) in
  process_detection options dirName row iDet detection cands
  = Ok (map (λ c, if matches c
                  then {| instances := instances c ++ [instance];
                          l_bbox := l_bbox c;
                          relativeDir := relativeDir c;
                          sampleImageRelativeFileName :=
                            sampleImageRelativeFileName c |}
                  else c) cands
        ++ (if existsb matches cands then []
            else [ {| instances := [instance];
                      l_bbox := bbox detection;
                      relativeDir := dirName;
                      sampleImageRelativeFileName := "" |} ])).
Proof.
  intros H0 H1 Hmin Hmax Hcls Hw Hh Ha0 Ha1 Harea instance matches.
  rewrite (process_detection_area options dirName row iDet detection cands w h)
    by assumption.
  apply Qlt_bool_false in Harea. rewrite Harea.
  rewrite add_detection_spec. reflexivity.
Qed.

(** Evaluate a closed side condition. *)
Ltac by_eval :=
  first [ reflexivity
        | apply Qle_bool_iff; reflexivity
        | apply Qlt_bool_iff; reflexivity
        | vm_compute; done ].

(** Evaluate a closed side condition on floats. *)
Ltac by_compute := vm_compute; first [ reflexivity | done ].

(** A detection of 0.5 by 0.4 against three candidates, of which the first
    two have boxes that overlap its box with an IoU of 1 and of 0.98: it
    joins both, the third candidate is unchanged and no candidate is added.
    Against the third candidate alone it founds a new candidate. *)
Lemma clustering_membership_policy_witness :
  let p := float (9 # 10) in
  let x := float (1 # 10) in
  let box := [x; x; 1 # 2; float (4 # 10)]%Q in
  let near := [x; x; 1 # 2; 25 # 64]%Q in
  let far := [1 # 2; 1 # 2; 1 # 8; 1 # 8]%Q in
  let det := mkDetection "1" p box in
  let row := mkRow (Scenario.image 1) p [det; det] in
  let i0 := mkIndexedDetection 0 (Scenario.image 0) box p "1" in
  let i1 := mkIndexedDetection 1 (Scenario.image 1) box p "1" in
  let c0 := mkDetectionLocation [i0] box "A" "" in
  let c1 := mkDetectionLocation [i0] near "A" "" in
  let c2 := mkDetectionLocation [i0] far "A" "" in
  (float_mul (float (4 # 10)) (1 # 2) <= maxSuspiciousDetectionSize default_options)%Q
  ∧ process_detection (H := Scenario.env 20) default_options "A" row 1 det [c0; c1; c2]
    = Ok [mkDetectionLocation [i0; i1] box "A" "";
          mkDetectionLocation [i0; i1] near "A" "";
          c2]
  ∧ process_detection (H := Scenario.env 20) default_options "A" row 1 det [c2]
    = Ok [c2; mkDetectionLocation [i1] box "A" ""].
Proof.
  intros p x box near far det row i0 i1 c0 c1 c2.
  assert (Harea : (float_mul (float (4 # 10)) (1 # 2)
                   <= maxSuspiciousDetectionSize default_options)%Q) by by_compute.
  split; [exact Harea|]. split.
  - exact (clustering_membership_policy (H := Scenario.env 20) default_options "A"
             row 1 det [c0; c1; c2] (1 # 2) (float (4 # 10))
             ltac:(by_compute) ltac:(by_compute) ltac:(by_compute) ltac:(by_compute)
             ltac:(by_compute) ltac:(by_compute) ltac:(by_compute) ltac:(by_compute)
             ltac:(by_compute) Harea).
  - exact (clustering_membership_policy (H := Scenario.env 20) default_options "A"
             row 1 det [c2] (1 # 2) (float (4 # 10))
             ltac:(by_compute) ltac:(by_compute) ltac:(by_compute) ltac:(by_compute)
             ltac:(by_compute) ltac:(by_compute) ltac:(by_compute) ltac:(by_compute)
             ltac:(by_compute) Harea).
Defined.

(** C6, as stated, fails: with the default [maxSuspiciousDetectionSize] of
    0.2, a detection of width 0.5 and height 0.4 has an area equal to the
    bound, in floating point as in the rationals, and it is not excluded: it
    founds a candidate. *)
Lemma area_equal_to_bound_is_eligible :
  let p := float (9 # 10) in
  let det := mkDetection "1" p [float (1 # 10); float (1 # 10); 1 # 2; float (4 # 10)]%Q in
  let row := mkRow "A/image0000.jpg" p [det] in
  let inst := mkIndexedDetection 0 "A/image0000.jpg" (bbox det) p "1" in
  maxSuspiciousDetectionSize default_options = float (2 # 10)
  ∧ (float_mul (float (4 # 10)) (1 # 2) == maxSuspiciousDetectionSize default_options)%Q
  ∧ process_detection (H := Scenario.env 1) default_options "A" row 0 det []
    = Ok [mkDetectionLocation [inst] (bbox det) "A" ""]
  ∧ process_detection (H := Scenario.env 1) default_options "A" row 0 det [] ≠ Ok [].
Proof.
  intros p det row inst. split; [reflexivity|]. split; [by_compute|].
  split; [by_compute|].
  intros Heq. vm_compute in Heq. discriminate Heq.
Qed.

(** C6, amended.  A detection that passes the confidence and class filters is
    excluded from candidacy (the candidates stay as they are) when its area,
    the floating-point product of its height and its width, is strictly
    greater than [maxSuspiciousDetectionSize]; a detection whose area is
    equal to the bound, or below it, is eligible: it becomes the last
    instance of a candidate.  The bound is a float. *)
Theorem area_filter_boundary `{Externals} options dirName row iDet detection
    cands w h :
  (0 <= conf detection)%Q → (conf detection <= 1)%Q →
  (confidenceMin options <= conf detection)%Q →
  (conf detection <= confidenceMax options)%Q →
  class_excluded options detection = Ok false →
  py_getitem (bbox detection) 2 = Ok w →
  py_getitem (bbox detection) 3 = Ok h →
  double (maxSuspiciousDetectionSize options) →
  (0 <= float_mul h w)%Q → (float_mul h w <= 1)%Q →
  ((maxSuspiciousDetectionSize options < float_mul h w)%Q →
     process_detection options dirName row iDet detection cands = Ok cands)
  ∧ ((float_mul h w <= maxSuspiciousDetectionSize options)%Q →
     ∃ cands' c,
       process_detection options dirName row iDet detection cands = Ok cands'
       ∧ c ∈ cands'
       ∧ last (instances c)
         = Some (mkIndexedDetection (Z.of_nat iDet) (file row) (bbox detection)
                                    (conf detection) (category detection))).
Proof.
  intros H0 H1 Hmin Hmax Hcls Hw Hh _ Ha0 Ha1.
  rewrite (process_detection_area options dirName row iDet detection cands w h)
    by assumption.
  split.
  - intros Hbig. apply Qlt_bool_iff in Hbig. by rewrite Hbig.
  - intros Hsmall. apply Qlt_bool_false in Hsmall. rewrite Hsmall.
    destruct (add_detection_joins options dirName row iDet detection cands)
      as (c & Hc & Hlast).
    eauto.
Qed.

(** Three detections against the default bound of 0.2 and against a bound
    of 0.3: 0.5 by 0.4, whose area is the bound, is eligible; 0.5 by 0.5 is
    excluded; and 0.75 by 0.4 is excluded under the bound 0.3, since the
    floating-point product 0.30000000000000004 is greater than 0.3. *)
Lemma area_filter_boundary_witness :
  let p := float (9 # 10) in
  let x := float (1 # 10) in
  let det := mkDetection "1" p [x; x; 1 # 2; float (4 # 10)]%Q in
  let big := mkDetection "1" p [x; x; 1 # 2; 1 # 2]%Q in
  let odd := mkDetection "1" p [x; x; 3 # 4; float (4 # 10)]%Q in
  let row := mkRow "A/image0000.jpg" p [det; big; odd] in
  let options := set_maxSuspiciousDetectionSize default_options (float (3 # 10)) in
  double (maxSuspiciousDetectionSize default_options)
  ∧ double (maxSuspiciousDetectionSize options)
  ∧ (float_mul (float (4 # 10)) (1 # 2) <= maxSuspiciousDetectionSize default_options)%Q
  ∧ (maxSuspiciousDetectionSize default_options < float_mul (1 # 2) (1 # 2))%Q
  ∧ (maxSuspiciousDetectionSize options < float_mul (float (4 # 10)) (3 # 4))%Q
  ∧ (∃ cands' c,
       process_detection (H := Scenario.env 1) default_options "A" row 0 det []
       = Ok cands'
       ∧ c ∈ cands'
       ∧ last (instances c)
         = Some (mkIndexedDetection 0 "A/image0000.jpg" (bbox det) p "1"))
  ∧ process_detection (H := Scenario.env 1) default_options "A" row 1 big [] = Ok []
  ∧ process_detection (H := Scenario.env 1) options "A" row 2 odd [] = Ok [].
Proof.
  intros p x det big odd row options.
  assert (Hd : double (maxSuspiciousDetectionSize default_options)) by by_compute.
  assert (Hd' : double (maxSuspiciousDetectionSize options)) by by_compute.
  assert (Hle : (float_mul (float (4 # 10)) (1 # 2)
                 <= maxSuspiciousDetectionSize default_options)%Q) by by_compute.
  assert (Hlt : (maxSuspiciousDetectionSize default_options
                 < float_mul (1 # 2) (1 # 2))%Q) by by_compute.
  assert (Hodd : (maxSuspiciousDetectionSize options
                  < float_mul (float (4 # 10)) (3 # 4))%Q) by by_compute.
  do 5 (split; [assumption|]). split; [|split].
  - exact (proj2 (area_filter_boundary (H := Scenario.env 1) default_options "A"
             row 0 det [] (1 # 2) (float (4 # 10))
             ltac:(by_compute) ltac:(by_compute) ltac:(by_compute) ltac:(by_compute)
             ltac:(by_compute) ltac:(by_compute) ltac:(by_compute) Hd
             ltac:(by_compute) ltac:(by_compute)) Hle).
  - exact (proj1 (area_filter_boundary (H := Scenario.env 1) default_options "A"
             row 1 big [] (1 # 2) (1 # 2)
             ltac:(by_compute) ltac:(by_compute) ltac:(by_compute) ltac:(by_compute)
             ltac:(by_compute) ltac:(by_compute) ltac:(by_compute) Hd
             ltac:(by_compute) ltac:(by_compute)) Hlt).
  - exact (proj1 (area_filter_boundary (H := Scenario.env 1) options "A"
             row 2 odd [] (3 # 4) (float (4 # 10))
             ltac:(by_compute) ltac:(by_compute) ltac:(by_compute) ltac:(by_compute)
             ltac:(by_compute) ltac:(by_compute) ltac:(by_compute) Hd'
             ltac:(by_compute) ltac:(by_compute)) Hodd).
Defined.

(** ** The bounding-box check of the table update *)

Lemma Qeq_bool_false (a b : Q) : ¬ (a == b)%Q → Qeq_bool a b = false.
Proof.
  intros Hne. destruct (Qeq_bool a b) eqn:Heq; [|done].
  apply Qeq_bool_iff in Heq. done.
Qed.

(** C10. The check that an instance still matches the detection it points to
    compares the first three coordinates only.  For an instance whose box
    agrees with the box of the detection on [x_min], [y_min] and [width],
    whatever the two heights are, the check passes, although the comparison
    of the whole boxes fails when the heights differ; when the other
    assertions of the loop body pass and the confidence is not negative,
    the confidence is negated and the change is counted. *)
Theorem bbox_check_ignores_height `{Externals} options f2r locationBbox table n
    instance iRow row d x y w hi hd :
  Qle_bool (iouThreshold options) (get_iou (i_bbox instance) locationBbox) = true →
  f2r !! filename instance = Some iRow →
  table !! iRow = Some row →
  py_getitem (detections row) (iDetection instance) = Ok d →
  i_bbox instance = [x; y; w; hi] →
  bbox d = [x; y; w; hd] →
  (0 <= conf d)%Q →
  list_Qeq_bool (py_slice_to (i_bbox instance) 3) (py_slice_to (bbox d) 3) = true
  ∧ (¬ (hi == hd)%Q → list_Qeq_bool (i_bbox instance) (bbox d) = false)
  ∧ negate_instance options f2r locationBbox (table, n) instance
    = Ok (<[iRow := set_detections row
                      (py_setitem (detections row) (iDetection instance)
                                  (set_conf d (-1 * conf d)%Q))]> table,
          S n).
Proof.
  intros Hiou Hrow Htable Hd Hib Hdb Hconf.
  assert (Hcheck : list_Qeq_bool (py_slice_to (i_bbox instance) 3)
                                 (py_slice_to (bbox d) 3) = true).
  { rewrite Hib, Hdb. unfold py_slice_to. simpl.
    by rewrite !Qeq_bool_refl. }
  split; [exact Hcheck|]. split.
  - intros Hne. rewrite Hib, Hdb. simpl.
    rewrite !Qeq_bool_refl, (Qeq_bool_false hi hd Hne). done.
  - unfold negate_instance. rewrite Hiou, Hrow. simpl.
    rewrite Htable. simpl. rewrite Hd. simpl. rewrite Hcheck. simpl.
    apply Qle_bool_iff in Hconf. by rewrite Hconf.
Qed.

Lemma bbox_check_ignores_height_witness :
  let inst := mkIndexedDetection 0 "A/image0000.jpg"
                [1 # 10; 1 # 10; 5 # 100; 6 # 100]%Q (9 # 10) "1" in
  let f2r : gmap string nat := {[ "A/image0000.jpg" := 0%nat ]} in
  (0 <= 9 # 10)%Q
  ∧ ¬ (6 # 100 == 5 # 100)%Q
  ∧ negate_instance (H := Scenario.env 1) Scenario.options f2r
      [1 # 10; 1 # 10; 5 # 100; 6 # 100]%Q (Scenario.table 1, 0%nat) inst
    = Ok ([mkRow "A/image0000.jpg" (9 # 10)
             [mkDetection "1" (-1 * (9 # 10))%Q Scenario.box]], 1%nat).
Proof.
  intros inst f2r.
  split; [by_eval|]. split; [by_eval|].
  exact (proj2 (proj2 (bbox_check_ignores_height (H := Scenario.env 1)
           Scenario.options f2r [1 # 10; 1 # 10; 5 # 100; 6 # 100]%Q
           (Scenario.table 1) 0%nat inst 0%nat (Scenario.row (9 # 10) 0)
           (mkDetection "1" (9 # 10) Scenario.box)
           (1 # 10) (1 # 10) (5 # 100) (6 # 100) (5 # 100)
           ltac:(by_eval) ltac:(by_eval) ltac:(by_eval) ltac:(by_eval)
           ltac:(by_eval) ltac:(by_eval) ltac:(by_eval)))).
Defined.

(** ** The reload-mode filter *)

Section Reload.
Context `{Externals}.
Variable options : RepeatDetectionOptions.

Lemma compress_map_filter {A} (f : A → bool) (l : list A) :
  compress l (map f l) = List.filter f l.
Proof.
  induction l as [|x l IH]; simpl; [done|].
  destruct (f x); by rewrite IH.
Qed.

Lemma check_detections_flags fileList base dets flags :
  check_detections fileList base dets (length flags)
    (flags ++ replicate (length dets) true)
  = flags ++ map (is_valid_detection fileList base) dets.
Proof.
  revert flags. induction dets as [|c dets IH]; intros flags; simpl; [done|].
  assert (Hins : ∀ b : bool,
    <[length flags := b]> (flags ++ true :: replicate (length dets) true)
    = (flags ++ [b]) ++ replicate (length dets) true).
  { intros b. rewrite <- app_assoc. simpl.
    replace (length flags) with (length flags + 0)%nat by lia.
    by rewrite insert_app_r. }
  destruct (is_valid_detection fileList base c) eqn:Hv; simpl.
  - specialize (IH (flags ++ [true])).
    rewrite length_app in IH. simpl in IH.
    replace (length flags + 1)%nat with (S (length flags)) in IH by lia.
    rewrite <- app_assoc in IH. simpl in IH. rewrite IH.
    by rewrite <- app_assoc.
  - rewrite Hins.
    specialize (IH (flags ++ [false])).
    rewrite length_app in IH. simpl in IH.
    replace (length flags + 1)%nat with (S (length flags)) in IH by lia.
    rewrite IH. by rewrite <- app_assoc.
Qed.

Lemma filter_directory_filter fileList base dets :
  filter_directory fileList base dets
  = List.filter (is_valid_detection fileList base) dets.
Proof.
  unfold filter_directory.
  pose proof (check_detections_flags fileList base dets []) as Hf.
  simpl in Hf. rewrite Hf. apply compress_map_filter.
Qed.
End Reload.

(** C8. In reload mode the candidates of every directory are filtered: a
    candidate is kept exactly when a keep-list was given and holds the name
    of its sample image, or no keep-list was given and its sample image
    still exists in the folder of the review file.  The candidates that are
    kept are the loaded ones, unchanged and in their order; the others are
    dropped whole.  The reload fails only when the number of directories
    of the review file is not the number of directories searched. *)
Theorem reload_mode_filtering `{Externals} options dirs :
  let loaded := load_filter_file (filterFileToLoad options) in
  let base := dirname (filterFileToLoad options) in
  let valid := is_valid_detection (load_file_list options) base in
  reload options dirs
  = (if bool_decide (length loaded = length dirs)
     then Ok (map (List.filter valid) loaded)
     else Raise AssertionError)
  ∧ ∀ c, valid c = true
         ↔ (∃ f, filteredFileListToLoad options = Some f
                 ∧ sampleImageRelativeFileName c ∈ map strip (readlines f))
           ∨ (filteredFileListToLoad options = None
              ∧ isfile (join base (sampleImageRelativeFileName c)) = true).
Proof.
  intros loaded base valid. split.
  - unfold reload. fold loaded base.
    destruct (bool_decide (length loaded = length dirs)); simpl; [|done].
    f_equal. apply map_ext. intros dets. apply filter_directory_filter.
  - intros c. unfold valid, is_valid_detection, load_file_list.
    destruct (filteredFileListToLoad options) as [f|].
    + rewrite bool_decide_eq_true. split.
      * intros Hin. left. eauto.
      * intros [(f' & Hf & Hin)|[Hf _]]; by simplify_eq.
    + split.
      * intros Hf. right. done.
      * intros [(f' & Hf & _)|[_ Hf]]; by simplify_eq.
Qed.

(** ** The first pass of the table update *)

Lemma suppressed_conf_refl (a : Q) : suppressed_conf a a.
Proof. by left. Qed.

Lemma negate_zero (a : Q) : (0 <= a)%Q → (0 <= -1 * a)%Q → (-1 * a)%Q = a.
Proof.
  destruct a as [n d]. unfold Qle. simpl. intros Hn Hm.
  assert (n = 0) as -> by lia. reflexivity.
Qed.

Lemma suppressed_conf_trans (a b c : Q) :
  suppressed_conf a b → suppressed_conf b c → suppressed_conf a c.
Proof.
  intros [->|[Ha ->]] [->|[Hb ->]].
  - by left.
  - by right.
  - by right.
  - rewrite (negate_zero a Ha Hb). by right.
Qed.

Lemma suppressed_detection_refl (d : Detection) : suppressed_detection d d.
Proof. repeat split. apply suppressed_conf_refl. Qed.

Lemma suppressed_detection_trans (d1 d2 d3 : Detection) :
  suppressed_detection d1 d2 → suppressed_detection d2 d3 → suppressed_detection d1 d3.
Proof.
  intros (Hc1 & Hb1 & Hs1) (Hc2 & Hb2 & Hs2). repeat split.
  - congruence.
  - congruence.
  - eapply suppressed_conf_trans; eassumption.
Qed.

Lemma suppressed_row_refl (r : Row) : suppressed_row r r.
Proof.
  repeat split. apply Forall2_same_length_lookup. split; [done|].
  intros i d d' Hd Hd'. simplify_eq. apply suppressed_detection_refl.
Qed.

Lemma suppressed_row_trans (r1 r2 r3 : Row) :
  suppressed_row r1 r2 → suppressed_row r2 r3 → suppressed_row r1 r3.
Proof.
  intros (Hf1 & Hm1 & Hd1) (Hf2 & Hm2 & Hd2). repeat split.
  - congruence.
  - congruence.
  - eapply Forall2_trans; [apply suppressed_detection_trans | eassumption..].
Qed.

Lemma suppressed_table_refl (t : list Row) : suppressed_table t t.
Proof.
  apply Forall2_same_length_lookup. split; [done|].
  intros i r r' Hr Hr'. simplify_eq. apply suppressed_row_refl.
Qed.

Lemma suppressed_table_trans (t1 t2 t3 : list Row) :
  suppressed_table t1 t2 → suppressed_table t2 t3 → suppressed_table t1 t3.
Proof. apply Forall2_trans, suppressed_row_trans. Qed.

(** Reading and writing at a Python index are a lookup and an insert at one
    position of the list. *)
Lemma py_getitem_Ok {A} (l : list A) (i : Z) (x : A) :
  py_getitem l i = Ok x →
  ∃ j, l !! j = Some x ∧ ∀ y, py_setitem l i y = <[j := y]> l.
Proof.
  unfold py_getitem, py_setitem.
  set (j := if i <? 0 then i + Z.of_nat (length l) else i).
  destruct ((j <? 0) || (Z.of_nat (length l) <=? j)); [done|].
  destruct (l !! Z.to_nat j) as [x'|] eqn:Hl; [|done].
  intros [= ->]. eauto.
Qed.

Section FirstPass.
Context `{Externals}.
Variable options : RepeatDetectionOptions.
Variable f2r : gmap string nat.

(** What a successful loop body did: nothing to a detection whose confidence
    is negative, a negation to the others. *)
Lemma negate_instance_Ok locationBbox t n instance t' n' :
  negate_instance options f2r locationBbox (t, n) instance = Ok (t', n') →
  ∃ iRow row j d,
    f2r !! filename instance = Some iRow
    ∧ t !! iRow = Some row
    ∧ detections row !! j = Some d
    ∧ py_getitem (detections row) (iDetection instance) = Ok d
    ∧ (((conf d < 0)%Q ∧ t' = t ∧ n' = n)
       ∨ ((0 <= conf d)%Q
          ∧ t' = <[iRow := set_detections row
                             (<[j := set_conf d (-1 * conf d)%Q]> (detections row))]> t
          ∧ n' = S n)).
Proof.
  unfold negate_instance. intros Hn. inv_ok.
  rename a1 into iRow, a2 into row, a3 into d.
  destruct (py_getitem_Ok _ _ _ Ha3) as (j & Hj & Hset).
  exists iRow, row, j, d. do 4 (split; [done|]).
  destruct (Qle_bool 0 (conf d)) eqn:Hc.
  - right. apply Qle_bool_iff in Hc. rewrite Hset in Hn. by simplify_eq.
  - left. apply Qle_bool_false in Hc. by simplify_eq.
Qed.

Lemma negate_instance_suppressed locationBbox t n instance t' n' :
  negate_instance options f2r locationBbox (t, n) instance = Ok (t', n') →
  suppressed_table t t'
  ∧ ∀ k, f2r !! filename instance ≠ Some k → t' !! k = t !! k.
Proof.
  intros Hn. apply negate_instance_Ok in Hn
    as (iRow & row & j & d & Hf & Ht & Hd & _ & [(Hc & -> & ->)|(Hc & -> & ->)]).
  - split; [apply suppressed_table_refl | done].
  - split.
    + rewrite <- (list_insert_id t iRow row Ht) at 1.
      apply Forall2_insert; [apply suppressed_table_refl|].
      repeat split. simpl.
      rewrite <- (list_insert_id (detections row) j d Hd) at 1.
      apply Forall2_insert.
      * apply Forall2_same_length_lookup. split; [done|].
        intros i x y Hx Hy. simplify_eq. apply suppressed_detection_refl.
      * repeat split. simpl. right. done.
    + intros k Hk. apply list_lookup_insert_ne. congruence.
Qed.

Lemma negate_instances_suppressed locationBbox l t n t' n' :
  negate_instances options f2r locationBbox l (t, n) = Ok (t', n') →
  suppressed_table t t'
  ∧ ∀ k, (∀ inst, inst ∈ l → f2r !! filename inst ≠ Some k) → t' !! k = t !! k.
Proof.
  revert t n. induction l as [|inst l IH]; intros t n Hn;
    cbn [negate_instances] in Hn.
  - simplify_eq. split; [apply suppressed_table_refl | done].
  - apply bind_Ok in Hn as ([t1 n1] & Ha & Hn).
    apply negate_instance_suppressed in Ha as [Hs1 Hu1].
    apply IH in Hn as [Hs2 Hu2]. split.
    + eapply suppressed_table_trans; eassumption.
    + intros k Hk. rewrite Hu2, Hu1; [done|..].
      * apply Hk, list_elem_of_here.
      * intros i Hi. apply Hk, list_elem_of_further, Hi.
Qed.

Lemma negate_events_suppressed events t n t' n' :
  negate_events options f2r events (t, n) = Ok (t', n') →
  suppressed_table t t'
  ∧ ∀ k, (∀ c inst, c ∈ events → inst ∈ instances c → f2r !! filename inst ≠ Some k)
         → t' !! k = t !! k.
Proof.
  revert t n. induction events as [|c events IH]; intros t n Hn;
    cbn [negate_events] in Hn.
  - simplify_eq. split; [apply suppressed_table_refl | done].
  - apply bind_Ok in Hn as ([t1 n1] & Ha & Hn).
    apply negate_instances_suppressed in Ha as [Hs1 Hu1].
    apply IH in Hn as [Hs2 Hu2]. split.
    + eapply suppressed_table_trans; eassumption.
    + intros k Hk. rewrite Hu2, Hu1; [done|..].
      * intros i Hi. eapply Hk; [apply list_elem_of_here | done].
      * intros c' i Hc' Hi. eapply Hk; [apply list_elem_of_further, Hc' | done].
Qed.

Lemma negate_suspicious_suppressed susp t n t' n' :
  negate_suspicious options f2r susp (t, n) = Ok (t', n') →
  suppressed_table t t'
  ∧ ∀ k, ¬ targeted f2r susp k → t' !! k = t !! k.
Proof.
  revert t n. induction susp as [|events susp IH]; intros t n Hn;
    cbn [negate_suspicious] in Hn.
  - simplify_eq. split; [apply suppressed_table_refl | done].
  - apply bind_Ok in Hn as ([t1 n1] & Ha & Hn).
    apply negate_events_suppressed in Ha as [Hs1 Hu1].
    apply IH in Hn as [Hs2 Hu2]. split.
    + eapply suppressed_table_trans; eassumption.
    + intros k Hk. rewrite Hu2, Hu1; [done|..].
      * intros c i Hc Hi Hf. apply Hk. exists events, c, i.
        split; [apply list_elem_of_here | done].
      * intros (cands & c & i & Hcands & Hrest). apply Hk.
        exists cands, c, i. split; [apply list_elem_of_further, Hcands | done].
Qed.
End FirstPass.

(** ** The second pass of the table update *)

Lemma scan_fold (dets : list Detection) (m : Q) (n : nat) :
  ∃ m' n',
    fold_left scan_detection dets (Some m, n) = (Some m', n')
    ∧ (m <= m')%Q
    ∧ (∀ d, d ∈ dets → (conf d <= m')%Q)
    ∧ (m' = m ∨ ∃ d, d ∈ dets ∧ conf d = m').
Proof.
  revert m n. induction dets as [|d dets IH]; intros m n; simpl.
  - exists m, n. split; [done|]. split; [apply Qle_refl|].
    split; [|by left]. intros d Hd. by apply elem_of_nil in Hd.
  - destruct (Qlt_bool m (conf d)) eqn:Hlt.
    + destruct (IH (conf d) (if Qlt_bool (conf d) 0 then S n else n))
        as (m' & n' & Hf & Hle & Hall & Hex).
      exists m', n'. split; [done|]. apply Qlt_bool_iff in Hlt. split.
      { eapply Qle_trans; [apply Qlt_le_weak, Hlt | done]. }
      split.
      * intros d' [->|Hd']%elem_of_cons; [done | by apply Hall].
      * right. destruct Hex as [->|(d' & Hd' & Hc)].
        -- exists d. split; [apply list_elem_of_here | done].
        -- exists d'. split; [apply list_elem_of_further, Hd' | done].
    + destruct (IH m (if Qlt_bool (conf d) 0 then S n else n))
        as (m' & n' & Hf & Hle & Hall & Hex).
      exists m', n'. split; [done|]. apply Qlt_bool_false in Hlt.
      split; [done|]. split.
      * intros d' [->|Hd']%elem_of_cons; [|by apply Hall].
        eapply Qle_trans; eassumption.
      * destruct Hex as [->|(d' & Hd' & Hc)]; [by left|].
        right. exists d'. split; [apply list_elem_of_further, Hd' | done].
Qed.

(** The recomputed maximum of a row with detections is the largest of their
    confidences. *)
Lemma recomputed_max_spec (dets : list Detection) :
  dets ≠ [] →
  ∃ maxP,
    recomputed_max dets = Some maxP
    ∧ (∀ d, d ∈ dets → (conf d <= maxP)%Q)
    ∧ (∃ d, d ∈ dets ∧ conf d = maxP).
Proof.
  destruct dets as [|d dets]; [done|]. intros _.
  unfold recomputed_max, scan_detections. simpl.
  destruct (scan_fold dets (conf d) (if Qlt_bool (conf d) 0 then 1%nat else 0%nat))
    as (m' & n' & Hf & Hle & Hall & Hex).
  rewrite Hf. exists m'. split; [done|]. split.
  - intros d' [->|Hd']%elem_of_cons; [done | by apply Hall].
  - destruct Hex as [->|(d' & Hd' & Hc)].
    + exists d. split; [apply list_elem_of_here | done].
    + exists d'. split; [apply list_elem_of_further, Hd' | done].
Qed.

Section SecondPass.
Variable options : RepeatDetectionOptions.

Lemma update_max_Ok t c i row t' c' :
  update_max options (t, c) i row = Ok (t', c') →
  (detections row = [] ∧ t' = t)
  ∨ ∃ maxP,
      recomputed_max (detections row) = Some maxP
      ∧ detections row ≠ []
      ∧ (0 <= max_detection_conf row)%Q
      ∧ ((¬ (tolerance < Qabs (float_sub maxP (max_detection_conf row)))%Q ∧ t' = t)
         ∨ ((tolerance < Qabs (float_sub maxP (max_detection_conf row)))%Q
            ∧ (maxP < max_detection_conf row)%Q
            ∧ t' = alter (λ r, set_max_detection_conf r maxP) i t)).
Proof.
  unfold update_max. case_bool_decide as Hlen.
  - intros [= -> ->]. left. split; [|done].
    by destruct (detections row).
  - intros Hu. right.
    apply bind_Ok in Hu as ([] & H0 & Hu). apply assert_Ok, Qle_bool_iff in H0.
    unfold recomputed_max.
    destruct (scan_detections (detections row)) as [maxP nNegative].
    apply bind_Ok in Hu as (m & Hm & Hu). apply from_option_Ok in Hm as ->.
    exists m. split; [done|]. split; [by intros Hnil; rewrite Hnil in Hlen|].
    split; [done|].
    destruct (Qlt_bool tolerance (Qabs (float_sub m (max_detection_conf row)))) eqn:Htol.
    + right. apply Qlt_bool_iff in Htol.
      apply bind_Ok in Hu as ([] & Hlt & Hu). apply assert_Ok, Qlt_bool_iff in Hlt.
      apply bind_Ok in Hu as ([] & _ & Hu). by simplify_eq.
    + left. apply Qlt_bool_false in Htol. split; [by apply Qle_not_lt|].
      by simplify_eq.
Qed.

Lemma update_maxes_Ok rows i t c t' c' :
  update_maxes options rows i (t, c) = Ok (t', c') →
  ∀ k r, t !! k = Some r →
    ∃ r', t' !! k = Some r'
          ∧ file r' = file r
          ∧ detections r' = detections r
          ∧ if decide (i ≤ k)%nat
            then match rows !! (k - i)%nat with
                 | Some row => refreshed row r r'
                 | None => r' = r
                 end
            else r' = r.
Proof.
  revert i t c. induction rows as [|row rows IH]; intros i t c Hu k r Hr;
    cbn [update_maxes] in Hu.
  - simplify_eq. exists r. do 3 (split; [done|]). by case_decide.
  - apply bind_Ok in Hu as ([t1 c1] & Hrow & Hu).
    apply update_max_Ok in Hrow.
    assert (∃ r1, t1 !! k = Some r1 ∧ file r1 = file r
                  ∧ detections r1 = detections r
                  ∧ (k ≠ i → r1 = r) ∧ (k = i → refreshed row r r1))
      as (r1 & Hr1 & Hf1 & Hd1 & Hne & Heq).
    { destruct Hrow as [[Hnil ->]|(maxP & Hmax & Hdets & H0 & [[Htol ->]|(Htol & Hlt & ->)])].
      - exists r. do 4 (split; [done|]). intros _. by left.
      - exists r. do 4 (split; [done|]). intros _. right. exists maxP.
        do 3 (split; [done|]). by left.
      - destruct (decide (k = i)) as [->|Hki].
        + exists (set_max_detection_conf r maxP).
          rewrite list_lookup_alter, Hr. simpl. rewrite decide_True by done.
          do 3 (split; [done|]). split; [done|].
          intros _. right. exists maxP. do 3 (split; [done|]). by right.
        + exists r. rewrite list_lookup_alter_ne by done.
          do 3 (split; [done|]). split; done. }
    destruct (IH _ _ _ Hu k r1 Hr1) as (r' & Hr' & Hf' & Hd' & Hcase).
    exists r'. split; [done|]. split; [congruence|]. split; [congruence|].
    destruct (decide (i ≤ k)%nat) as [Hik|Hik].
    + destruct (decide (k = i)) as [->|Hki].
      * rewrite decide_False in Hcase by lia. subst r'.
        replace (i - i)%nat with 0%nat by lia. simpl. by apply Heq.
      * rewrite decide_True in Hcase by lia. rewrite <- (Hne Hki).
        replace (k - i)%nat with (S (k - S i)) by lia. simpl. done.
    + rewrite decide_False in Hcase by lia. subst r'. apply Hne. lia.
Qed.

Lemma update_max_Raise st i row e :
  update_max options st i row = Raise e → e = AssertionError.
Proof.
  destruct st as [t c]. unfold update_max. case_bool_decide as Hlen; [done|].
  intros Hu. apply bind_Raise in Hu as [Hu|([] & _ & Hu)];
    [by eapply assert_Raise|].
  destruct (recomputed_max_spec (detections row)) as (m & Hm & _).
  { intros Hnil. by rewrite Hnil in Hlen. }
  unfold recomputed_max in Hm.
  destruct (scan_detections (detections row)) as [maxP nNegative].
  simpl in Hm. subst maxP. simpl in Hu.
  destruct (Qlt_bool tolerance _); [|done].
  apply bind_Raise in Hu as [Hu|([] & _ & Hu)]; [by eapply assert_Raise|].
  apply bind_Raise in Hu as [Hu|([] & _ & Hu)]; [by eapply assert_Raise|].
  done.
Qed.

Lemma update_maxes_Raise rows i st e :
  update_maxes options rows i st = Raise e → e = AssertionError.
Proof.
  revert i st. induction rows as [|row rows IH]; intros i st Hu;
    cbn [update_maxes] in Hu; [done|].
  destruct (update_max options st i row) as [st1|e1] eqn:Hrow; simpl in Hu.
  - by eapply IH.
  - simplify_eq. by eapply update_max_Raise.
Qed.

Lemma update_max_offending st i row :
  offending row → update_max options st i row = Raise AssertionError.
Proof.
  intros (Hdets & maxP & Hmax & Htol & Hlt).
  destruct (update_max options st i row) as [[t' c']|e] eqn:Hu.
  - destruct st as [t c]. exfalso.
    apply update_max_Ok in Hu
      as [[Hnil _]|(m & Hm & _ & _ & [[Hn _]|(_ & Hsmall & _)])]; [done|..];
      rewrite Hmax in Hm; by simplify_eq.
  - f_equal. by eapply update_max_Raise.
Qed.

Lemma update_maxes_offending rows i st :
  (∃ k row, rows !! k = Some row ∧ offending row) →
  update_maxes options rows i st = Raise AssertionError.
Proof.
  intros (k & row & Hk & Hoff). revert i st k Hk.
  induction rows as [|row0 rows IH]; intros i st k Hk; [done|].
  cbn [update_maxes].
  destruct k as [|k]; simpl in Hk.
  - simplify_eq. by rewrite update_max_offending.
  - destruct (update_max options st i row0) as [st1|e] eqn:Hrow; simpl.
    + by eapply IH.
    + f_equal. by eapply update_max_Raise.
Qed.
End SecondPass.

(** ** The table update as a whole *)

Lemma update_detection_table_Ok `{Externals} options t f2r susp t' n c :
  update_detection_table options t f2r susp = Ok (t', (n, c)) →
  ∃ t1, negate_suspicious options f2r susp (t, 0%nat) = Ok (t1, n)
        ∧ update_maxes options t1 0 (t1, mkCounters 0 0 0) = Ok (t', c).
Proof.
  unfold update_detection_table. intros Hu.
  apply bind_Ok in Hu as ([t1 n1] & Hp1 & Hu).
  apply bind_Ok in Hu as ([t2 c2] & Hp2 & Hu).
  simplify_eq. eauto.
Qed.

Lemma negated_not_positive (a : Q) : (0 <= a)%Q → ¬ (0 < -1 * a)%Q.
Proof.
  destruct a as [n d]. unfold Qle, Qlt. simpl. lia.
Qed.

(** C3. The first pass negates a confidence only when it is not negative.
    After a successful first pass every detection of the table is still
    there, with its category and box; a confidence that was negative
    (negated for another candidate, or by an earlier run) is exactly what it
    was; any other confidence is unchanged or the negation of the old one;
    a confidence that is positive afterwards was never touched; and the
    second pass leaves the confidences as the first pass made them. *)
Theorem suppression_idempotent `{Externals} options t f2r susp t1 n :
  negate_suspicious options f2r susp (t, 0%nat) = Ok (t1, n) →
  ∀ i r j d,
    t !! i = Some r → detections r !! j = Some d →
    ∃ r1 d1,
      t1 !! i = Some r1 ∧ detections r1 !! j = Some d1
      ∧ category d1 = category d ∧ bbox d1 = bbox d
      ∧ ((conf d < 0)%Q → conf d1 = conf d)
      ∧ (conf d1 = conf d ∨ ((0 <= conf d)%Q ∧ conf d1 = (-1 * conf d)%Q))
      ∧ ((0 < conf d1)%Q → conf d1 = conf d)
      ∧ ∀ t' counters,
          update_detection_table options t f2r susp = Ok (t', counters) →
          ∃ r', t' !! i = Some r' ∧ detections r' !! j = Some d1.
Proof.
  intros Hp1 i r j d Hr Hd.
  pose proof (negate_suspicious_suppressed _ _ _ _ _ _ _ Hp1) as [Hs _].
  destruct (Forall2_lookup_l _ _ _ _ _ Hs Hr) as (r1 & Hr1 & _ & _ & Hdets).
  destruct (Forall2_lookup_l _ _ _ _ _ Hdets Hd) as (d1 & Hd1 & Hcat & Hbox & Hconf).
  exists r1, d1. do 4 (split; [done|]). split; [|split; [|split]].
  - intros Hneg. destruct Hconf as [Heq|[Hpos _]]; [done|].
    by apply Qlt_not_le in Hneg.
  - done.
  - intros Hpos. destruct Hconf as [Heq|[Hnn Heq]]; [done|].
    rewrite Heq in Hpos. by apply negated_not_positive in Hpos.
  - intros t' [n' c] Hu.
    apply update_detection_table_Ok in Hu as (t1' & Hp1' & Hp2).
    rewrite Hp1 in Hp1'. simplify_eq.
    destruct (update_maxes_Ok _ _ _ _ _ _ _ Hp2 i r1 Hr1) as (r' & Hr' & _ & Hd' & _).
    exists r'. by rewrite Hd'.
Qed.

Lemma suppression_idempotent_witness :
  let inst := mkIndexedDetection 0 (Scenario.image 0) Scenario.box (9 # 10) "1" in
  let c := mkDetectionLocation [inst] Scenario.box "A" "" in
  let f2r : gmap string nat := {[ Scenario.image 0 := 0%nat ]} in
  let once := [Scenario.row (-9 # 10) 0] in
  negate_suspicious (H := Scenario.env 1) Scenario.options f2r [[c; c]]
    (Scenario.table 1, 0%nat) = Ok (once, 1%nat)
  ∧ negate_suspicious (H := Scenario.env 1) Scenario.options f2r [[c; c]]
      (once, 0%nat) = Ok (once, 0%nat)
  ∧ ∃ r1 d1,
      once !! 0%nat = Some r1 ∧ detections r1 !! 0%nat = Some d1
      ∧ ((-9 # 10 < 0)%Q → conf d1 = (-9 # 10)%Q).
Proof.
  intros inst c f2r once.
  assert (Hrun : negate_suspicious (H := Scenario.env 1) Scenario.options f2r [[c; c]]
                   (Scenario.table 1, 0%nat) = Ok (once, 1%nat)) by by_eval.
  assert (Hagain : negate_suspicious (H := Scenario.env 1) Scenario.options f2r [[c; c]]
                     (once, 0%nat) = Ok (once, 0%nat)) by by_eval.
  split; [exact Hrun|]. split; [exact Hagain|].
  destruct (suppression_idempotent (H := Scenario.env 1) Scenario.options
              once f2r [[c; c]] once 0%nat Hagain 0%nat (Scenario.row (-9 # 10) 0)
              0%nat (mkDetection "1" (-9 # 10) Scenario.box) eq_refl eq_refl)
    as (r1 & d1 & Hr1 & Hd1 & _ & _ & Hneg & _).
  exists r1, d1. split; [exact Hr1|]. split; [exact Hd1 | exact Hneg].
Defined.

(** C4. After a successful update, the cached maximum of every row with a
    detection is at most what it was.  The recomputed maximum is the largest
    confidence of the row; when it is further than 1e-8 from the cached
    value (the difference is the floating-point one), it is strictly smaller
    and becomes the cached value, and within the tolerance the cache is
    kept.  When, after the first pass, some row
    has a recomputed maximum further than 1e-8 from the cached value and not
    smaller, the update raises an assertion error. *)
Theorem max_confidence_monotone `{Externals} options t f2r susp t1 n :
  negate_suspicious options f2r susp (t, 0%nat) = Ok (t1, n) →
  (∀ t' counters,
     update_detection_table options t f2r susp = Ok (t', counters) →
     ∀ i r r',
       t !! i = Some r → t' !! i = Some r' → detections r' ≠ [] →
       ∃ maxP,
         recomputed_max (detections r') = Some maxP
         ∧ (∀ d, d ∈ detections r' → (conf d <= maxP)%Q)
         ∧ (∃ d, d ∈ detections r' ∧ conf d = maxP)
         ∧ (max_detection_conf r' <= max_detection_conf r)%Q
         ∧ ((tolerance < Qabs (float_sub maxP (max_detection_conf r)))%Q
            → (maxP < max_detection_conf r)%Q ∧ max_detection_conf r' = maxP)
         ∧ (¬ (tolerance < Qabs (float_sub maxP (max_detection_conf r)))%Q
            → max_detection_conf r' = max_detection_conf r))
  ∧ ((∃ i r maxP,
        t1 !! i = Some r ∧ detections r ≠ []
        ∧ recomputed_max (detections r) = Some maxP
        ∧ (tolerance < Qabs (float_sub maxP (max_detection_conf r)))%Q
        ∧ ¬ (maxP < max_detection_conf r)%Q)
     → update_detection_table options t f2r susp = Raise AssertionError).
Proof.
  intros Hp1. split.
  - intros t' [n' c] Hu i r r' Hr Hr' Hdets.
    apply update_detection_table_Ok in Hu as (t1' & Hp1' & Hp2).
    rewrite Hp1 in Hp1'. simplify_eq.
    apply negate_suspicious_suppressed in Hp1 as [Hs _].
    destruct (Forall2_lookup_l _ _ _ _ _ Hs Hr) as (r1 & Hr1 & _ & Hmdc & _).
    destruct (update_maxes_Ok _ _ _ _ _ _ _ Hp2 i r1 Hr1)
      as (r2 & Hr2 & _ & Hd2 & Hcase).
    rewrite Hr' in Hr2. simplify_eq.
    rewrite decide_True in Hcase by lia.
    replace (i - 0)%nat with i in Hcase by lia. rewrite Hr1 in Hcase.
    rewrite Hd2 in Hdets |- *. rewrite <- Hmdc.
    destruct (recomputed_max_spec (detections r1) Hdets) as (maxP & Hmax & Hall & Hex).
    exists maxP. do 3 (split; [done|]).
    destruct Hcase as [[Hnil _]|(m & Hm & _ & _ & [[Htol ->]|(Htol & Hlt & Heq)])];
      [done|..]; rewrite Hmax in Hm; simplify_eq.
    + split; [apply Qle_refl|]. split; [done|]. done.
    + split; [by apply Qlt_le_weak|]. split; [done|]. done.
  - intros (i & r & maxP & Hr & Hdets & Hmax & Htol & Hlt).
    unfold update_detection_table. rewrite Hp1. simpl.
    rewrite update_maxes_offending; [done|].
    exists i, r. split; [done|]. split; [done|]. eauto.
Qed.

Lemma max_confidence_monotone_witness :
  let inst := mkIndexedDetection 0 (Scenario.image 0) Scenario.box (9 # 10) "1" in
  let c := mkDetectionLocation [inst] Scenario.box "A" "" in
  let f2r : gmap string nat := {[ Scenario.image 0 := 0%nat ]} in
  let stale := [mkRow (Scenario.image 0) (5 # 10)
                  [mkDetection "1" (9 # 10) Scenario.box]] in
  negate_suspicious (H := Scenario.env 1) Scenario.options f2r [[c]]
    (Scenario.table 1, 0%nat)
  = Ok ([Scenario.row (-9 # 10) 0], 1%nat)
  ∧ (∃ maxP,
       recomputed_max [mkDetection "1" (-9 # 10) Scenario.box] = Some maxP
       ∧ (-9 # 10 <= 9 # 10)%Q
       ∧ ((tolerance < Qabs (float_sub maxP (9 # 10)))%Q
          → (maxP < 9 # 10)%Q ∧ (-9 # 10)%Q = maxP))
  ∧ update_detection_table (H := Scenario.env 1) Scenario.options stale f2r []
    = Raise AssertionError.
Proof.
  intros inst c f2r stale.
  assert (Hp1 : negate_suspicious (H := Scenario.env 1) Scenario.options f2r [[c]]
                  (Scenario.table 1, 0%nat)
                = Ok ([Scenario.row (-9 # 10) 0], 1%nat)) by by_eval.
  split; [exact Hp1|]. split.
  - destruct (proj1 (max_confidence_monotone (H := Scenario.env 1) Scenario.options
                (Scenario.table 1) f2r [[c]] _ _ Hp1)
                (Scenario.suppressed 1) (1%nat, mkCounters 1 1 1) ltac:(by_eval)
                0%nat (Scenario.row (9 # 10) 0)
                (set_max_detection_conf (Scenario.row (-9 # 10) 0) (-9 # 10))
                eq_refl eq_refl ltac:(done))
      as (maxP & Hmax & _ & _ & Hle & Hfar & _).
    exists maxP. split; [exact Hmax|]. split; [exact Hle|]. exact Hfar.
  - apply (proj2 (max_confidence_monotone (H := Scenario.env 1) Scenario.options
                    stale f2r [] stale 0%nat eq_refl)).
    exists 0%nat, (mkRow (Scenario.image 0) (5 # 10)
                     [mkDetection "1" (9 # 10) Scenario.box]), (9 # 10)%Q.
    split; [reflexivity|]. split; [done|]. split; [reflexivity|].
    split; [by_eval|]. by_eval.
Defined.

(** ** The directory partitioner *)

Section Dictionaries.
Context {V : Type}.
Implicit Types d : list (string * V).

Lemma dict_get_set_eq d k v : dict_get (dict_set d k v) k = Some v.
Proof.
  induction d as [|[k' v'] d IH]; simpl.
  - by rewrite decide_True.
  - destruct (decide (k = k')) as [->|Hne]; simpl.
    + by rewrite decide_True.
    + by rewrite decide_False.
Qed.

Lemma dict_keys_get d k : k ∈ dict_keys d ↔ is_Some (dict_get d k).
Proof.
  unfold dict_keys. induction d as [|[k' v'] d IH]; simpl.
  - split; [by intros ?%elem_of_nil | by intros [? ?]].
  - rewrite elem_of_cons. destruct (decide (k = k')) as [->|Hne].
    + split; [eauto | by left].
    + rewrite IH. split; [by intros [?|?] | by right].
Qed.

Lemma dict_get_elem_of d k v : dict_get d k = Some v → (k, v) ∈ d.
Proof.
  induction d as [|[k' v'] d IH]; simpl; [done|].
  destruct (decide (k = k')) as [->|Hne].
  - intros [= ->]. apply list_elem_of_here.
  - intros Hg. apply list_elem_of_further, IH, Hg.
Qed.

Lemma dict_elem_of_get d k v : NoDup (dict_keys d) → (k, v) ∈ d → dict_get d k = Some v.
Proof.
  unfold dict_keys. induction d as [|[k' v'] d IH]; simpl.
  - by intros _ ?%elem_of_nil.
  - intros [Hk' Hnd]%NoDup_cons [Heq|Hin]%elem_of_cons.
    + simplify_eq. by rewrite decide_True.
    + destruct (decide (k = k')) as [->|Hne]; [|by apply IH].
      exfalso. apply Hk'. apply list_elem_of_fmap. by exists (k', v).
Qed.
End Dictionaries.

Section GroupAdd.
Implicit Types d : list (string * list Row).

(** The three dictionary statements of the loop body add the row to the
    group of its key. *)
Lemma dict_append_group_add d k row :
  let d1 := if negb (dict_mem d k) then dict_set d k [] else d in
  ∃ rows, dict_get d1 k = Some rows
          ∧ dict_set d1 k (rows ++ [row]) = group_add k row d.
Proof.
  unfold dict_mem. induction d as [|[k' v'] d IH]; simpl.
  - rewrite decide_True by done. exists []. split; [done|]. simpl.
    by rewrite decide_True.
  - destruct (decide (k = k')) as [->|Hne]; simpl.
    + rewrite decide_True by done. exists v'. split; [done|].
      simpl. by rewrite decide_True.
    + destruct IH as (rows & Hget & Hset).
      destruct (dict_get d k) as [v|] eqn:Hd; simpl in *.
      * rewrite decide_False by done. exists rows. split; [done|].
        rewrite decide_False by done. by rewrite Hset.
      * rewrite decide_False by done. exists rows. split; [done|].
        rewrite decide_False by done. by rewrite Hset.
Qed.

Lemma group_add_get d k row k' :
  dict_get (group_add k row d) k'
  = if decide (k' = k) then Some (default [] (dict_get d k) ++ [row])
    else dict_get d k'.
Proof.
  induction d as [|[k0 v0] d IH]; simpl.
  - destruct (decide (k' = k)) as [->|Hne]; [done | done].
  - destruct (decide (k = k0)) as [->|Hne]; simpl.
    + destruct (decide (k' = k0)) as [->|Hne']; [done | done].
    + rewrite IH. destruct (decide (k' = k0)) as [->|Hne'].
      * rewrite decide_False by done. done.
      * done.
Qed.

Lemma group_add_keys d k row :
  (k ∈ dict_keys d → dict_keys (group_add k row d) = dict_keys d)
  ∧ (k ∉ dict_keys d → dict_keys (group_add k row d) = dict_keys d ++ [k]).
Proof.
  unfold dict_keys. induction d as [|[k0 v0] d [IHin IHnin]]; simpl.
  - split; [by intros ?%elem_of_nil | done].
  - destruct (decide (k = k0)) as [->|Hne]; simpl.
    + split; [done|]. intros Hnin. exfalso. apply Hnin. by left.
    + split.
      * intros [?|Hin]%elem_of_cons; [done|]. f_equal. by apply IHin.
      * intros Hnin. f_equal. apply IHnin. intros Hin. apply Hnin. by right.
Qed.

Lemma group_add_NoDup d k row :
  NoDup (dict_keys d) → NoDup (dict_keys (group_add k row d)).
Proof.
  intros Hnd. destruct (group_add_keys d k row) as [Hin Hnin].
  destruct (decide (k ∈ dict_keys d)) as [Hk|Hk].
  - by rewrite Hin.
  - rewrite Hnin by done. apply NoDup_app. split; [done|]. split.
    + intros x Hx [->|?%elem_of_nil]%elem_of_cons; done.
    + apply NoDup_singleton.
Qed.
End GroupAdd.

Section Partitioner.
Context `{Externals}.
Variable options : RepeatDetectionOptions.

Lemma String_length_pos (s : string) :
  (0 <? Z.of_nat (String.length s)) = negb (bool_decide (s = "")).
Proof.
  destruct s as [|c s]; [done|].
  rewrite bool_decide_false by done. apply Z.ltb_lt.
  cbn [String.length]. lia.
Qed.

(** The loop body, by cases. *)
Lemma separate_row_cases rbd f2r i row :
  separate_row options (rbd, f2r) i row
  = if bool_decide (dir_key options (file row) = "") then Raise AssertionError
    else if bool_decide (is_Some (f2r !! file row)) then Raise AssertionError
    else Ok (group_add (dir_key options (file row)) row rbd,
             <[file row := i]> f2r).
Proof.
  unfold separate_row. rewrite String_length_pos.
  destruct (bool_decide (dir_key options (file row) = "")); simpl; [done|].
  destruct (dict_append_group_add rbd (dir_key options (file row)) row)
    as (rows & Hget & Hset).
  simpl in Hget, Hset. rewrite Hget. simpl. rewrite Hset.
  by destruct (bool_decide (is_Some (f2r !! file row))).
Qed.

Lemma well_formed_table_snoc pre row :
  well_formed_table options (pre ++ [row])
  ↔ well_formed_table options pre
    ∧ dir_key options (file row) ≠ ""
    ∧ file row ∉ file <$> pre.
Proof.
  unfold well_formed_table. rewrite fmap_app. simpl. rewrite NoDup_app. split.
  - intros (Hkeys & Hnd & Hdisj & _). split; [split|split].
    + intros r Hr. apply Hkeys, elem_of_app. by left.
    + done.
    + apply Hkeys, elem_of_app. right. apply list_elem_of_here.
    + intros Hin. eapply Hdisj; [exact Hin | apply list_elem_of_here].
  - intros ((Hkeys & Hnd) & Hkey & Hnin). split; [|split; [done|split]].
    + intros r [Hr|Hr%list_elem_of_singleton]%elem_of_app; [by apply Hkeys | by subst].
    + intros f Hf Hf'%list_elem_of_singleton. by subst.
    + apply NoDup_singleton.
Qed.

Lemma well_formed_table_prefix pre rest :
  well_formed_table options (pre ++ rest) → well_formed_table options pre.
Proof.
  unfold well_formed_table. rewrite fmap_app, NoDup_app.
  intros (Hkeys & Hnd & _). split; [|done].
  intros r Hr. apply Hkeys, elem_of_app. by left.
Qed.

Lemma partitions_nil : partitions options [] [] ∅.
Proof.
  split; [apply NoDup_nil_2|]. split; [done|].
  intros f i. rewrite lookup_empty. split; [done|].
  by intros (r & Hr & _).
Qed.

Lemma partitions_snoc pre rbd f2r row :
  partitions options pre rbd f2r →
  f2r !! file row = None →
  partitions options (pre ++ [row])
    (group_add (dir_key options (file row)) row rbd)
    (<[file row := length pre]> f2r).
Proof.
  intros (Hnd & Hget & Hidx) Hnew. split; [by apply group_add_NoDup|]. split.
  - intros k. rewrite group_add_get, filter_app, filter_cons, filter_nil.
    destruct (decide (k = dir_key options (file row))) as [->|Hne].
    + rewrite decide_True by done. rewrite Hget.
      destruct (filter _ pre); done.
    + rewrite decide_False by done. rewrite app_nil_r. apply Hget.
  - intros f i. destruct (decide (f = file row)) as [->|Hne].
    + rewrite lookup_insert_eq. split.
      * intros [= <-]. exists row. split; [|done].
        by rewrite lookup_app_r, Nat.sub_diag.
      * intros (r & Hr & Hf). f_equal.
        apply lookup_app_Some in Hr as [Hr|[Hlen Hr]].
        -- assert (f2r !! file row = Some i) as Hsome by (apply Hidx; eauto).
           congruence.
        -- destruct (i - length pre)%nat as [|n] eqn:Hn; [lia | done].
    + rewrite lookup_insert_ne by done. rewrite Hidx. split.
      * intros (r & Hr & Hf). exists r. split; [|done]. by apply lookup_app_l_Some.
      * intros (r & Hr & Hf). exists r. split; [|done].
        apply lookup_app_Some in Hr as [Hr|[Hlen Hr]]; [done|].
        destruct (i - length pre)%nat as [|n]; simpl in Hr; [|done].
        by simplify_eq.
Qed.

Lemma partitions_index_None pre rbd f2r f :
  partitions options pre rbd f2r → f2r !! f = None ↔ f ∉ file <$> pre.
Proof.
  intros (_ & _ & Hidx). split.
  - intros Hnone (r & -> & Hr)%list_elem_of_fmap.
    apply list_elem_of_lookup in Hr as (i & Hi).
    assert (f2r !! file r = Some i) as Hsome by (apply Hidx; eauto).
    congruence.
  - intros Hnin. destruct (f2r !! f) as [i|] eqn:Hf; [|done].
    apply Hidx in Hf as (r & Hr & <-). exfalso. apply Hnin.
    apply list_elem_of_fmap. exists r. split; [done|].
    by eapply list_elem_of_lookup_2.
Qed.

(** The loop from any point: it ends with the partition of the whole table
    when the table is well formed, and with an assertion error when not. *)
Lemma separate_rows_spec rest pre rbd f2r :
  partitions options pre rbd f2r →
  well_formed_table options pre →
  (well_formed_table options (pre ++ rest) →
     ∃ rbd' f2r',
       separate_rows options rest (length pre) (rbd, f2r) = Ok (rbd', f2r')
       ∧ partitions options (pre ++ rest) rbd' f2r')
  ∧ (¬ well_formed_table options (pre ++ rest) →
     separate_rows options rest (length pre) (rbd, f2r) = Raise AssertionError).
Proof.
  revert pre rbd f2r. induction rest as [|row rest IH]; intros pre rbd f2r Hpart Hwf.
  - rewrite app_nil_r. split; [|done]. intros _. simpl. eauto.
  - replace (pre ++ row :: rest) with ((pre ++ [row]) ++ rest)
      by (by rewrite <- app_assoc).
    cbn [separate_rows]. rewrite separate_row_cases.
    case_bool_decide as Hkey; [|case_bool_decide as Hdup].
    + split; [|done]. intros Hwf'.
      apply well_formed_table_prefix, well_formed_table_snoc in Hwf'
        as (_ & Hkey' & _). done.
    + split; [|done]. intros Hwf'.
      apply well_formed_table_prefix, well_formed_table_snoc in Hwf'
        as (_ & _ & Hnin).
      apply (partitions_index_None _ _ _ _ Hpart) in Hnin.
      rewrite Hnin in Hdup. by destruct Hdup.
    + assert (f2r !! file row = None) as Hnone.
      { destruct (f2r !! file row) eqn:Hf; [|done]. exfalso. apply Hdup. eauto. }
      assert (well_formed_table options (pre ++ [row])) as Hwf1.
      { apply well_formed_table_snoc. split; [done|]. split; [done|].
        by apply (partitions_index_None _ _ _ _ Hpart). }
      pose proof (partitions_snoc _ _ _ _ Hpart Hnone) as Hpart1.
      specialize (IH _ _ _ Hpart1 Hwf1).
      rewrite length_app in IH. simpl in IH.
      replace (length pre + 1)%nat with (S (length pre)) in IH by lia.
      simpl. exact IH.
Qed.
End Partitioner.

Lemma separate_files_spec `{Externals} options table :
  (well_formed_table options table →
     ∃ rbd f2r, separate_files options table = Ok (rbd, f2r)
                ∧ partitions options table rbd f2r)
  ∧ (¬ well_formed_table options table →
     separate_files options table = Raise AssertionError).
Proof.
  apply (separate_rows_spec options table [] [] ∅ (partitions_nil options)).
  split; [by intros r ?%elem_of_nil | apply NoDup_nil_2].
Qed.

Lemma separate_files_Ok `{Externals} options table rbd f2r :
  separate_files options table = Ok (rbd, f2r) →
  well_formed_table options table ∧ partitions options table rbd f2r.
Proof.
  intros Hsep. destruct (separate_files_spec options table) as [Hok Hbad].
  assert (Hwf : ¬ ¬ well_formed_table options table).
  { intros Hn. rewrite (Hbad Hn) in Hsep. discriminate Hsep. }
  assert (Hrun : ∀ P, (well_formed_table options table → P) → ¬ ¬ P) by tauto.
  assert (Hpart : ¬ ¬ partitions options table rbd f2r).
  { apply Hrun. intros Hw. destruct (Hok Hw) as (rbd' & f2r' & Hsep' & Hp).
    rewrite Hsep in Hsep'. by simplify_eq. }
  assert (Hkeys : ∀ r, r ∈ table → dir_key options (file r) ≠ "").
  { intros r Hr Hk. apply Hwf. intros [Hkeys _]. by apply (Hkeys r). }
  assert (Hnd : NoDup (file <$> table)).
  { destruct (decide (NoDup (file <$> table))) as [Hnd|Hnd]; [done|].
    exfalso. apply Hwf. intros [_ ?]. done. }
  assert (Hw : well_formed_table options table) by done.
  split; [done|]. destruct (Hok Hw) as (rbd' & f2r' & Hsep' & Hp).
  rewrite Hsep in Hsep'. by simplify_eq.
Qed.

Lemma partitions_group `{Externals} options table rbd f2r k rows :
  partitions options table rbd f2r →
  dict_get rbd k = Some rows ↔
    rows ≠ [] ∧ rows = filter (λ r, dir_key options (file r) = k) table.
Proof.
  intros (_ & Hget & _). rewrite Hget.
  destruct (filter _ table) as [|r g]; split.
  - done.
  - by intros [Hne ->].
  - by intros [= <-].
  - by intros [_ ->].
Qed.

(** C9. The partitioner raises an assertion error when the directory key of
    some row is the empty string or when a path occurs twice.  On a table
    with non-empty keys and distinct paths it returns the groups and the
    index: the index maps a path to the position of its row, and nothing
    else; the keys of the groups are distinct; a row is in the group of its
    directory key and in no other; and the group of a key holds the rows of
    that key, in table order. *)
Theorem partitioner_failure_conditions `{Externals} options table :
  ((∃ r, r ∈ table ∧ dir_key options (file r) = "") ∨ ¬ NoDup (file <$> table)
   → separate_files options table = Raise AssertionError)
  ∧ ((∀ r, r ∈ table → dir_key options (file r) ≠ "") →
     NoDup (file <$> table) →
     ∃ rbd f2r,
       separate_files options table = Ok (rbd, f2r)
       ∧ (∀ i r, table !! i = Some r → f2r !! file r = Some i)
       ∧ (∀ f i, f2r !! f = Some i → ∃ r, table !! i = Some r ∧ file r = f)
       ∧ NoDup (dict_keys rbd)
       ∧ (∀ r, r ∈ table →
            ∀ k, (∃ rows, dict_get rbd k = Some rows ∧ r ∈ rows)
                 ↔ k = dir_key options (file r))
       ∧ (∀ k rows, (k, rows) ∈ rbd →
            rows ≠ [] ∧ rows = filter (λ r, dir_key options (file r) = k) table)).
Proof.
  destruct (separate_files_spec options table) as [Hok Hbad]. split.
  - intros Hcase. apply Hbad. intros [Hkeys Hnd].
    destruct Hcase as [(r & Hr & Hk)|Hdup]; [by apply (Hkeys r) | done].
  - intros Hkeys Hnd. destruct (Hok (conj Hkeys Hnd)) as (rbd & f2r & Hsep & Hpart).
    exists rbd, f2r. split; [done|].
    pose proof Hpart as (Hkeysnd & Hget & Hidx).
    split; [|split; [|split; [done|split]]].
    + intros i r Hr. apply Hidx. eauto.
    + intros f i Hf. by apply Hidx.
    + intros r Hr k. split.
      * intros (rows & Hrows & Hin).
        apply (partitions_group _ _ _ _ _ _ Hpart) in Hrows as [_ ->].
        by apply list_elem_of_filter in Hin as [-> _].
      * intros ->. exists (filter (λ r', dir_key options (file r') = dir_key options (file r)) table).
        assert (r ∈ filter (λ r', dir_key options (file r') = dir_key options (file r)) table)
          as Hin by (by apply list_elem_of_filter).
        split; [|done]. apply (partitions_group _ _ _ _ _ _ Hpart).
        split; [|done]. intros Hnil. rewrite Hnil in Hin. by apply elem_of_nil in Hin.
    + intros k rows Hin. apply (partitions_group _ _ _ _ _ _ Hpart).
      by apply dict_elem_of_get.
Qed.

Lemma partitioner_failure_conditions_witness :
  let r (f : string) := mkRow f 0 [] in
  let good := [r "A/a.jpg"; r "B/b.jpg"; r "A/c.jpg"] in
  let twice := [r "A/a.jpg"; r "B/b.jpg"; r "A/a.jpg"] in
  let env := posix_env [] [] [] in
  ¬ NoDup (file <$> twice)
  ∧ NoDup (file <$> good)
  ∧ separate_files (H := env) default_options twice = Raise AssertionError
  ∧ ∃ rbd f2r,
      separate_files (H := env) default_options good = Ok (rbd, f2r)
      ∧ (∀ i row, good !! i = Some row → f2r !! file row = Some i)
      ∧ NoDup (dict_keys rbd).
Proof.
  intros r good twice env.
  assert (Htwice : ¬ NoDup (file <$> twice))
    by (apply (bool_decide_unpack _); vm_compute; exact I).
  assert (Hgood : NoDup (file <$> good))
    by (apply (bool_decide_unpack _); vm_compute; exact I).
  assert (Hkeys : ∀ row, row ∈ good → dir_key (H := env) default_options (file row) ≠ "").
  { apply Forall_forall. repeat constructor; by vm_compute. }
  split; [exact Htwice|]. split; [exact Hgood|]. split.
  - exact (proj1 (partitioner_failure_conditions (H := env) default_options twice)
             (or_intror Htwice)).
  - destruct (proj2 (partitioner_failure_conditions (H := env) default_options good)
                Hkeys Hgood) as (rbd & f2r & Hsep & Hidx & _ & Hnd & _).
    exists rbd, f2r. split; [exact Hsep|]. split; [exact Hidx | exact Hnd].
Defined.

(** ** Where the candidates of a directory come from *)

Section Provenance.
Context `{Externals}.
Variable options : RepeatDetectionOptions.

Lemma process_detection_Ok dirName row iDet detection cands cands' :
  process_detection options dirName row iDet detection cands = Ok cands' →
  cands' = cands ∨ cands' = add_detection options dirName row iDet detection cands.
Proof.
  unfold process_detection. intros Hp.
  apply bind_Ok in Hp as ([] & _ & Hp).
  destruct (Qlt_bool (conf detection) (confidenceMin options));
    [left; by simplify_eq|].
  destruct (Qlt_bool (confidenceMax options) (conf detection));
    [left; by simplify_eq|].
  apply bind_Ok in Hp as (excluded & _ & Hp).
  destruct excluded; [left; by simplify_eq|].
  apply bind_Ok in Hp as (w & _ & Hp).
  apply bind_Ok in Hp as (h & _ & Hp).
  apply bind_Ok in Hp as ([] & _ & Hp).
  destruct (Qlt_bool (maxSuspiciousDetectionSize options) (float_mul h w));
    [left | right]; by simplify_eq.
Qed.

Lemma add_detection_from d files row iDet detection cands :
  from_directory d files cands → file row ∈ files →
  from_directory d files (add_detection options d row iDet detection cands).
Proof.
  intros Hfrom Hrow c. rewrite add_detection_spec.
  intros [Hc|Hc]%elem_of_app.
  - apply list_elem_of_fmap in Hc as (c0 & -> & Hc0).
    destruct (Hfrom c0 Hc0) as [Hdir Hinst].
    destruct (Qle_bool _ _); [|done]. split; [done|]. simpl.
    intros inst [Hi|Hi%list_elem_of_singleton]%elem_of_app; [by apply Hinst|].
    by subst.
  - destruct (existsb _ cands); [by apply elem_of_nil in Hc|].
    apply list_elem_of_singleton in Hc as ->. split; [done|]. simpl.
    intros inst Hi%list_elem_of_singleton. by subst.
Qed.

Lemma process_detections_from d files row dets iDet cands cands' :
  process_detections options d row iDet dets cands = Ok cands' →
  from_directory d files cands → file row ∈ files →
  from_directory d files cands'.
Proof.
  revert iDet cands. induction dets as [|det dets IH]; intros iDet cands Hp Hfrom Hrow;
    cbn [process_detections] in Hp.
  - by simplify_eq.
  - apply bind_Ok in Hp as (cands1 & Hdet & Hp).
    eapply IH; [exact Hp| |done].
    apply process_detection_Ok in Hdet as [->| ->]; [done|].
    by apply add_detection_from.
Qed.

Lemma process_row_from d files row cands cands' :
  process_row options d row cands = Ok cands' →
  from_directory d files cands → file row ∈ files →
  from_directory d files cands'.
Proof.
  unfold process_row. intros Hp Hfrom Hrow.
  destruct (negb (is_image_file (file row))); [by simplify_eq|].
  destruct (Qlt_bool (max_detection_conf row) (confidenceMin options));
    [by simplify_eq|].
  apply bind_Ok in Hp as ([] & _ & Hp).
  by eapply process_detections_from.
Qed.

Lemma process_rows_from d files rows cands cands' :
  process_rows options d rows cands = Ok cands' →
  from_directory d files cands → (∀ row, row ∈ rows → file row ∈ files) →
  from_directory d files cands'.
Proof.
  revert cands. induction rows as [|row rows IH]; intros cands Hp Hfrom Hrows;
    cbn [process_rows] in Hp.
  - by simplify_eq.
  - apply bind_Ok in Hp as (cands1 & Hrow & Hp).
    eapply IH; [exact Hp| |].
    + eapply process_row_from; [exact Hrow | done |].
      apply Hrows, list_elem_of_here.
    + intros r Hr. apply Hrows, list_elem_of_further, Hr.
Qed.

Lemma find_matches_in_directory_from d rbd cands :
  find_matches_in_directory options d rbd = Ok cands →
  ∃ rows, dict_get rbd d = Some rows ∧ from_directory d (file <$> rows) cands.
Proof.
  unfold find_matches_in_directory. intros Hf.
  apply bind_Ok in Hf as (rows & Hrows%from_option_Ok & Hf).
  exists rows. split; [done|].
  eapply process_rows_from; [exact Hf | by intros c ?%elem_of_nil |].
  intros row Hrow. apply list_elem_of_fmap. eauto.
Qed.

Lemma find_all_matches_from dirs rbd allCandidates :
  find_all_matches options dirs rbd = Ok allCandidates →
  ∀ cands, cands ∈ allCandidates →
    ∃ d rows, d ∈ dirs ∧ dict_get rbd d = Some rows
              ∧ from_directory d (file <$> rows) cands.
Proof.
  revert allCandidates. induction dirs as [|d dirs IH]; intros allCandidates Hf;
    cbn [find_all_matches] in Hf.
  - simplify_eq. by intros cands ?%elem_of_nil.
  - apply bind_Ok in Hf as (c & Hc & Hf).
    apply bind_Ok in Hf as (cs & Hcs & Hf). simplify_eq.
    intros cands [->|Hin]%elem_of_cons.
    + apply find_matches_in_directory_from in Hc as (rows & Hrows & Hfrom).
      exists d, rows. split; [apply list_elem_of_here | done].
    + destruct (IH _ Hcs cands Hin) as (d' & rows & Hd' & Hrest).
      exists d', rows. split; [apply list_elem_of_further, Hd' | done].
Qed.

Lemma from_directory_filter d files cands (P : DetectionLocation → Prop)
    `{∀ c, Decision (P c)} :
  from_directory d files cands → from_directory d files (filter P cands).
Proof. intros Hfrom c [_ Hc]%list_elem_of_filter. by apply Hfrom. Qed.

Lemma write_samples_same iDir dets iDet dets' :
  write_samples options iDir dets iDet = Ok dets' → same_candidates dets dets'.
Proof.
  revert iDet dets'. induction dets as [|c dets IH]; intros iDet dets' Hw;
    cbn [write_samples] in Hw.
  - simplify_eq. constructor.
  - apply bind_Ok in Hw as (c' & Hc & Hw).
    apply bind_Ok in Hw as (cs & Hcs & Hw). simplify_eq.
    constructor; [|by eapply IH].
    unfold write_sample in Hc.
    apply bind_Ok in Hc as (inst & _ & Hc).
    apply bind_Ok in Hc as ([] & _ & Hc). by simplify_eq.
Qed.

Lemma write_filtering_folder_same susp iDir susp' :
  write_filtering_folder options susp iDir = Ok susp' →
  Forall2 same_candidates susp susp'.
Proof.
  revert iDir susp'. induction susp as [|dets susp IH]; intros iDir susp' Hw;
    cbn [write_filtering_folder] in Hw.
  - simplify_eq. constructor.
  - apply bind_Ok in Hw as (d & Hd & Hw).
    apply bind_Ok in Hw as (ds & Hds & Hw). simplify_eq.
    constructor; [by eapply write_samples_same | by eapply IH].
Qed.
End Provenance.

(** ** The directories that are searched *)

Lemma py_slice_to_minus_one {A} (l : list A) (x : A) :
  py_slice_to (l ++ [x]) (-1) = l.
Proof.
  unfold py_slice_to. simpl. rewrite length_app. simpl.
  replace (Z.to_nat (Z.max 0 (-1 + Z.of_nat (length l + 1)))) with (length l) by lia.
  by rewrite take_app_length.
Qed.

Lemma py_slice_to_skips_last (l : list string) (x : string) :
  last l = Some x → NoDup l → x ∉ py_slice_to l (-1).
Proof.
  intros (l' & ->)%last_Some Hnd. rewrite py_slice_to_minus_one.
  apply NoDup_app in Hnd as (_ & Hdisj & _).
  intros Hin. apply (Hdisj x Hin). apply list_elem_of_here.
Qed.

Lemma Forall2_elem_of_r {A B} (R : A → B → Prop) (l : list A) (l' : list B) (y : B) :
  Forall2 R l l' → y ∈ l' → ∃ x, x ∈ l ∧ R x y.
Proof.
  intros HF (i & Hi)%list_elem_of_lookup.
  destruct (Forall2_lookup_r _ _ _ _ _ HF Hi) as (x & Hx & HR).
  exists x. split; [by eapply list_elem_of_lookup_2 | done].
Qed.

(** In discover mode every instance of a candidate is a detection of a row of
    the table, in the directory of the candidate, which is a searched one. *)
Lemma discover_provenance `{Externals} options table rbd f2r dirs susp :
  partitions options table rbd f2r →
  discover options dirs rbd = Ok susp →
  ∀ cands c, cands ∈ susp → c ∈ cands →
    relativeDir c ∈ dirs
    ∧ ∀ inst, inst ∈ instances c →
        dir_key options (filename inst) = relativeDir c
        ∧ ∃ r, r ∈ table ∧ file r = filename inst.
Proof.
  intros Hpart Hd cands c Hcands Hc.
  apply discover_filter in Hd as (allCandidates & Hall & ->).
  apply list_elem_of_fmap in Hcands as (cands0 & -> & Hcands0).
  rewrite find_suspicious_filter in Hc. apply list_elem_of_filter in Hc as [_ Hc].
  destruct (find_all_matches_from _ _ _ _ Hall cands0 Hcands0)
    as (d & rows & Hd & Hrows & Hfrom).
  destruct (Hfrom c Hc) as [Hdir Hinst]. rewrite Hdir. split; [done|].
  intros inst Hi. apply Hinst, list_elem_of_fmap in Hi as (r & -> & Hr).
  apply (partitions_group _ _ _ _ _ _ Hpart) in Hrows as [_ ->].
  apply list_elem_of_filter in Hr as [Hkey Hr]. split; [done|]. eauto.
Qed.

Lemma dict_keys_shared_rows (t : list Row) (f2r : gmap string nat)
    (rbd : list (string * list Row)) :
  dict_keys (shared_rows t f2r rbd) = dict_keys rbd.
Proof.
  unfold dict_keys, shared_rows. induction rbd as [|[d rows] rbd IH]; [done|].
  simpl. by f_equal.
Qed.

Lemma find_repeat_detections_Ok `{Externals} options table res :
  find_repeat_detections options table = Ok res →
  ∃ rbd f2r susp counters,
    separate_files options table = Ok (rbd, f2r)
    ∧ (if bool_decide (String.length (filterFileToLoad options) = 0%nat)
       then discover options (py_slice_to (dict_keys rbd) (debugMaxDir options)) rbd
       else reload options (py_slice_to (dict_keys rbd) (debugMaxDir options)))
      = Ok susp
    ∧ update_detection_table options table f2r susp
      = Ok (detectionResults res, counters)
    ∧ Forall2 same_candidates susp (suspiciousDetections res)
    ∧ dict_keys (rowsByDirectory res) = dict_keys rbd
    ∧ filenameToRow res = f2r.
Proof.
  unfold find_repeat_detections. intros Hrun.
  apply bind_Ok in Hrun as ([rbd f2r] & Hsep & Hrun).
  apply bind_Ok in Hrun as (susp & Hsusp & Hrun).
  apply bind_Ok in Hrun as ([t' counters] & Hupd & Hrun).
  apply bind_Ok in Hrun as (susp' & Hwrite & Hrun).
  simplify_eq. cbn [detectionResults rowsByDirectory filenameToRow suspiciousDetections].
  exists rbd, f2r, susp, counters.
  do 3 (split; [done|]). split; [|split; [apply dict_keys_shared_rows | done]].
  destruct (bWriteFilteringFolder options).
  - by eapply write_filtering_folder_same.
  - simplify_eq. apply Forall2_same_length_lookup. split; [done|].
    intros i l l' Hl Hl'. simplify_eq.
    apply Forall2_same_length_lookup. split; [done|].
    intros j c c' Hc Hc'. by simplify_eq.
Qed.

(** C2, as stated, fails in reload mode.  With [debugMaxDir] at -1 and a
    review file, the directories searched are used for the length check
    only, and the update negates every instance of the review file: here
    the table has directories [A] and [B], the slice keeps [A] alone, the
    review file names the detection of the image of [B], and that detection
    ends with the confidence -0.9. *)
Lemma reload_negates_the_last_directory :
  debugMaxDir reviewed_options = -1
  ∧ ∃ res,
      find_repeat_detections (H := reviewed_env) reviewed_options reviewed_table
      = Ok res
      ∧ last (dict_keys (rowsByDirectory res)) = Some "B"
      ∧ py_slice_to (dict_keys (rowsByDirectory res)) (debugMaxDir reviewed_options)
        = ["A"]
      ∧ suspiciousDetections res = [[reviewed_candidate]]
      ∧ detectionResults res
        = [Scenario.row_in "A" (9 # 10) 0;
           set_max_detection_conf (Scenario.row_in "B" (-9 # 10) 0) (-9 # 10)].
Proof.
  split; [reflexivity|]. eexists. split; [vm_compute; reflexivity|].
  repeat split; vm_compute; reflexivity.
Qed.

(** C2, amended to the runs that look for matches.  With [debugMaxDir] at
    its default of -1 the slice [[0:-1]] drops the
    last directory.  In a run that looks for matches (no review file) and
    succeeds, the last directory of the table, in the order of first
    occurrence, has rows but is not among the directories searched; no
    suspicious candidate belongs to it or has an instance in one of its
    files; and the detections of its rows are in the output table as they
    were in the input, however often they repeat. *)
Theorem last_directory_is_skipped `{Externals} options table res dLast :
  debugMaxDir options = -1 →
  filterFileToLoad options = "" →
  find_repeat_detections options table = Ok res →
  last (dict_keys (rowsByDirectory res)) = Some dLast →
  (∃ r, r ∈ table ∧ dir_key options (file r) = dLast)
  ∧ (dLast ∉ py_slice_to (dict_keys (rowsByDirectory res)) (debugMaxDir options))
  ∧ (∀ cands c, cands ∈ suspiciousDetections res → c ∈ cands →
       relativeDir c ≠ dLast
       ∧ ∀ inst, inst ∈ instances c → dir_key options (filename inst) ≠ dLast)
  ∧ (∀ i r, table !! i = Some r → dir_key options (file r) = dLast →
       ∃ r', detectionResults res !! i = Some r' ∧ detections r' = detections r).
Proof.
  intros Hmax Hfilter Hrun Hlast.
  apply find_repeat_detections_Ok in Hrun
    as (rbd & f2r & susp & [n c] & Hsep & Hsusp & Hupd & Hsame & Hrbd & Hf2r).
  rewrite Hrbd in Hlast |- *. rewrite Hfilter in Hsusp. simpl in Hsusp.
  rewrite Hmax in Hsusp |- *.
  apply separate_files_Ok in Hsep as [_ Hpart].
  pose proof Hpart as (Hnd & Hget & Hidx).
  pose proof (py_slice_to_skips_last _ _ Hlast Hnd) as Hskip.
  pose proof (discover_provenance _ _ _ _ _ _ Hpart Hsusp) as Hprov.
  split; [|split; [done|split]].
  - assert (dLast ∈ dict_keys rbd) as Hin.
    { apply last_Some in Hlast as (l' & ->). apply elem_of_app. right.
      apply list_elem_of_here. }
    apply dict_keys_get in Hin as (rows & Hrows).
    apply (partitions_group _ _ _ _ _ _ Hpart) in Hrows as [Hne ->].
    destruct (filter _ table) as [|r g] eqn:Hg; [done|].
    assert (r ∈ filter (λ r, dir_key options (file r) = dLast) table) as Hr
      by (rewrite Hg; apply list_elem_of_here).
    apply list_elem_of_filter in Hr as [Hkey Hr]. eauto.
  - intros cands' c' Hcands' Hc'.
    destruct (Forall2_elem_of_r _ _ _ _ Hsame Hcands') as (cands & Hcands & Hsame').
    destruct (Forall2_elem_of_r _ _ _ _ Hsame' Hc') as (c0 & Hc0 & Hi & _ & Hdir).
    destruct (Hprov cands c0 Hcands Hc0) as [Hsearched Hinst].
    rewrite Hdir, Hi. split.
    + intros Heq. by rewrite Heq in Hsearched.
    + intros inst Hin. destruct (Hinst inst Hin) as [Hkey _].
      rewrite Hkey. intros Heq. by rewrite Heq in Hsearched.
  - intros i r Hr Hkey.
    apply update_detection_table_Ok in Hupd as (t1 & Hp1 & Hp2).
    apply negate_suspicious_suppressed in Hp1 as [_ Huntouched].
    assert (t1 !! i = Some r) as Hr1.
    { rewrite Huntouched; [done|].
      intros (cands & c0 & inst & Hcands & Hc0 & Hin & Hrow).
      destruct (Hprov cands c0 Hcands Hc0) as [Hsearched Hinst].
      destruct (Hinst inst Hin) as [Hk _].
      apply Hidx in Hrow as (r0 & Hr0 & Hfile). simplify_eq.
      rewrite Hfile, Hk in Hskip. done. }
    destruct (update_maxes_Ok _ _ _ _ _ _ _ Hp2 i r Hr1) as (r' & Hr' & _ & Hd' & _).
    eauto.
Qed.

Lemma last_directory_is_skipped_witness :
  let table := Scenario.two_directories in
  let env := posix_env (file <$> table) [] [] in
  let res := Scenario.two_directories_result in
  find_repeat_detections (H := env) Scenario.options table = Ok res
  ∧ last (dict_keys (rowsByDirectory res)) = Some "B"
  ∧ (length <$> suspiciousDetections res) = [1%nat]
  ∧ detectionResults res !! 0%nat
    = Some (set_max_detection_conf (Scenario.row_in "A" (-9 # 10) 0) (-9 # 10))
  ∧ ∀ i r, table !! i = Some r →
      dir_key (H := env) Scenario.options (file r) = "B" →
      ∃ r', detectionResults res !! i = Some r' ∧ detections r' = detections r.
Proof.
  intros table env res.
  assert (Hrun : find_repeat_detections (H := env) Scenario.options table = Ok res)
    by (vm_compute; reflexivity).
  assert (Hlast : last (dict_keys (rowsByDirectory res)) = Some "B")
    by (vm_compute; reflexivity).
  split; [exact Hrun|]. split; [exact Hlast|].
  split; [vm_compute; reflexivity|]. split; [vm_compute; reflexivity|].
  exact (proj2 (proj2 (proj2 (last_directory_is_skipped (H := env) Scenario.options
           table res "B" eq_refl eq_refl Hrun Hlast)))).
Defined.

(** ** The scenario of twenty images in one directory *)

(** C1, on the code.  The scenario expects one candidate of twenty instances,
    flagged suspicious, and twenty confidences of -0.9.  With the options of
    the scenario, [debugMaxDir] keeps its default of -1, the only directory
    is the last one and is not searched: the run succeeds, flags nothing, and
    leaves the table as it was, every confidence at 0.9. *)
Theorem scenario_is_not_suppressed :
  find_repeat_detections (H := Scenario.env 20) Scenario.options (Scenario.table 20)
  = Ok {| detectionResults := Scenario.table 20;
          rowsByDirectory := [("A", Scenario.table 20)];
          filenameToRow := list_to_map (zip (Scenario.image <$> seq 0 20) (seq 0 20));
          suspiciousDetections := [] |}.
Proof. vm_compute. reflexivity. Qed.

(** The same run with the directory limit at 1, which keeps the directory:
    one candidate with the twenty instances is flagged, and every
    confidence, and every cached maximum, becomes -0.9. *)
Lemma scenario_with_directory_limit :
  ∃ res c,
    find_repeat_detections (H := Scenario.env 20) (Scenario.options_max_dir 1)
      (Scenario.table 20) = Ok res
    ∧ suspiciousDetections res = [[c]]
    ∧ length (instances c) = 20%nat
    ∧ l_bbox c = Scenario.box
    ∧ detectionResults res = Scenario.suppressed 20.
Proof.
  eexists. eexists. split; [vm_compute; reflexivity|].
  repeat split; reflexivity.
Qed.

(** ** The reload filter on a review file *)

(** A review file with two candidates in one directory; the sample image of
    the second was deleted, and the second candidate is dropped whole while
    the first keeps its two instances. *)
Example reload_drops_deleted_sample :
  let i0 := mkIndexedDetection 0 (Scenario.image 0) Scenario.box (9 # 10) "1" in
  let i1 := mkIndexedDetection 0 (Scenario.image 1) Scenario.box (9 # 10) "1" in
  let kept := mkDetectionLocation [i0; i1] Scenario.box "A" "dir0000_det0000.jpg" in
  let gone := mkDetectionLocation [i1; i0] Scenario.box "A" "dir0000_det0001.jpg" in
  let env := posix_env ["out/dir0000_det0000.jpg"] [[kept; gone]] [] in
  let options := Scenario.options_max_dir 1 in
  reload (H := env)
    {| imageBase := imageBase options;
       outputBase := outputBase options;
       confidenceMin := confidenceMin options;
       confidenceMax := confidenceMax options;
       iouThreshold := iouThreshold options;
       occurrenceThreshold := occurrenceThreshold options;
       maxSuspiciousDetectionSize := maxSuspiciousDetectionSize options;
       excludeClasses := excludeClasses options;
       filterFileToLoad := "out/detectionIndex.json";
       filteredFileListToLoad := None;
       bWriteFilteringFolder := false;
       debugMaxDir := 1;
       nDirLevelsFromLeaf := 0 |} ["A"]
  = Ok [[kept]].
Proof. reflexivity. Qed.

(** ** What clustering guarantees *)

Section Clustered.
Context `{Externals}.
Variable options : RepeatDetectionOptions.

(** A successful loop body either skipped the detection or added it, and it
    adds only a detection that passes the filters. *)
Lemma process_detection_eligible dirName row iDet detection cands cands' :
  process_detection options dirName row iDet detection cands = Ok cands' →
  cands' = cands
  ∨ (cands' = add_detection options dirName row iDet detection cands
     ∧ passes_filters options detection).
Proof.
  unfold process_detection. intros Hp.
  apply bind_Ok in Hp as ([] & Hrange%assert_Ok & Hp).
  apply andb_true_iff in Hrange as [H0%Qle_bool_iff H1%Qle_bool_iff].
  destruct (Qlt_bool (conf detection) (confidenceMin options)) eqn:Hmin;
    [left; by simplify_eq|].
  destruct (Qlt_bool (confidenceMax options) (conf detection)) eqn:Hmax;
    [left; by simplify_eq|].
  apply Qlt_bool_false in Hmin, Hmax.
  apply bind_Ok in Hp as (excluded & Hcls & Hp).
  destruct excluded; [left; by simplify_eq|].
  apply bind_Ok in Hp as (w & Hw & Hp).
  apply bind_Ok in Hp as (h & Hh & Hp).
  apply bind_Ok in Hp as ([] & Harea%assert_Ok & Hp).
  apply andb_true_iff in Harea as [Ha0%Qle_bool_iff Ha1%Qle_bool_iff].
  destruct (Qlt_bool (maxSuspiciousDetectionSize options) (float_mul h w)) eqn:Hsize;
    [left; by simplify_eq|].
  apply Qlt_bool_false in Hsize. right. split; [by simplify_eq|].
  do 5 (split; [done|]). exists w, h. done.
Qed.

Lemma add_detection_clustered d rows row iDet detection cands :
  Forall (well_clustered options d rows) cands →
  searched_row options rows
    (mkIndexedDetection (Z.of_nat iDet) (file row) (bbox detection)
                        (conf detection) (category detection)) →
  Forall (well_clustered options d rows)
         (add_detection options d row iDet detection cands).
Proof.
  intros Hall Hinst. rewrite add_detection_spec. apply Forall_app. split.
  - apply Forall_fmap. eapply Forall_impl; [exact Hall|].
    intros c (Hdir & Hsample & first & rest & Hi & Hbox & Hiou & Hrows). simpl.
    destruct (Qle_bool _ _) eqn:Hm;
      [|by (split; [done|]; split; [done|]; exists first, rest)].
    split; [done|]. split; [done|].
    exists first, (rest ++ [mkIndexedDetection (Z.of_nat iDet) (file row)
                              (bbox detection) (conf detection) (category detection)]).
    simpl.
    split; [by rewrite Hi|]. split; [done|]. split.
    + apply Forall_app. split; [done|]. apply Forall_singleton. simpl.
      by apply Qle_bool_iff.
    + rewrite app_comm_cons. apply Forall_app. split; [done|].
      by apply Forall_singleton.
  - destruct (existsb _ cands); [constructor|]. apply Forall_singleton.
    split; [done|]. split; [done|]. eexists _, []. simpl.
    split; [done|]. split; [done|]. split; [constructor|].
    by apply Forall_singleton.
Qed.

Lemma process_detections_clustered d rows row seen dets cands cands' :
  process_detections options d row (length seen) dets cands = Ok cands' →
  detections row = seen ++ dets →
  row ∈ rows → is_image_file (file row) = true →
  (confidenceMin options <= max_detection_conf row)%Q →
  Forall (well_clustered options d rows) cands →
  Forall (well_clustered options d rows) cands'.
Proof.
  revert seen cands. induction dets as [|det dets IH];
    intros seen cands Hp Hdets Hrow Himg Hmax Hall; cbn [process_detections] in Hp.
  - by simplify_eq.
  - apply bind_Ok in Hp as (cands1 & Hdet & Hp).
    apply (IH (seen ++ [det]) cands1); try done.
    + by rewrite length_app, Nat.add_1_r.
    + by rewrite <- app_assoc.
    + apply process_detection_eligible in Hdet as [->|[-> Hpass]]; [done|].
      apply add_detection_clustered; [done|].
      exists row. do 3 (split; [done|]). split; [done|].
      exists (length seen), det. split; [done|]. split; [|done].
      rewrite Hdets. by rewrite lookup_app_r, Nat.sub_diag.
Qed.

Lemma process_row_clustered d rows row cands cands' :
  process_row options d row cands = Ok cands' →
  row ∈ rows →
  Forall (well_clustered options d rows) cands →
  Forall (well_clustered options d rows) cands'.
Proof.
  unfold process_row. intros Hp Hrow Hall.
  destruct (is_image_file (file row)) eqn:Himg; simpl in Hp; [|by simplify_eq].
  destruct (Qlt_bool (max_detection_conf row) (confidenceMin options)) eqn:Hmax;
    [by simplify_eq|].
  apply Qlt_bool_false in Hmax.
  apply bind_Ok in Hp as ([] & _ & Hp).
  by apply (process_detections_clustered d rows row [] (detections row) cands cands').
Qed.

Lemma process_rows_clustered d rows todo cands cands' :
  process_rows options d todo cands = Ok cands' →
  (∀ row, row ∈ todo → row ∈ rows) →
  Forall (well_clustered options d rows) cands →
  Forall (well_clustered options d rows) cands'.
Proof.
  revert cands. induction todo as [|row todo IH]; intros cands Hp Hsub Hall;
    cbn [process_rows] in Hp.
  - by simplify_eq.
  - apply bind_Ok in Hp as (cands1 & Hrow & Hp).
    eapply IH; [exact Hp| |].
    + intros r Hr. apply Hsub, list_elem_of_further, Hr.
    + eapply process_row_clustered; [exact Hrow| |done].
      apply Hsub, list_elem_of_here.
Qed.

Lemma find_matches_in_directory_clustered d rbd cands :
  find_matches_in_directory options d rbd = Ok cands →
  ∃ rows, dict_get rbd d = Some rows
          ∧ Forall (well_clustered options d rows) cands.
Proof.
  unfold find_matches_in_directory. intros Hf.
  apply bind_Ok in Hf as (rows & Hrows%from_option_Ok & Hf).
  exists rows. split; [done|].
  eapply process_rows_clustered; [exact Hf|done|constructor].
Qed.
End Clustered.

(** X1. Every candidate that the clustering of a directory returns has at
    least one instance; its box is the box of its first instance; every later
    instance has an IoU of at least [iouThreshold] with that box; it carries
    the name of the directory and no sample image name yet. *)
Theorem candidates_have_a_founder `{Externals} options d rbd cands c :
  find_matches_in_directory options d rbd = Ok cands →
  c ∈ cands →
  relativeDir c = d
  ∧ sampleImageRelativeFileName c = ""
  ∧ ∃ first rest,
      instances c = first :: rest
      ∧ l_bbox c = i_bbox first
      ∧ ∀ inst, inst ∈ rest →
          (iouThreshold options <= get_iou (i_bbox inst) (l_bbox c))%Q.
Proof.
  intros Hf Hc.
  apply find_matches_in_directory_clustered in Hf as (rows & _ & Hall).
  rewrite Forall_forall in Hall.
  destruct (Hall c Hc) as (Hdir & Hsample & first & rest & Hi & Hbox & Hiou & _).
  split; [done|]. split; [done|]. exists first, rest.
  split; [done|]. split; [done|]. by apply Forall_forall.
Qed.

(** X2. Every instance of every candidate that the clustering of a directory
    returns records a detection of a row of that directory: the row is an
    image file whose cached maximum is at least [confidenceMin], the
    instance holds the position, box, confidence and category of the
    detection, and the detection passes the confidence, class and area
    filters. *)
Theorem instances_resolve_to_detections `{Externals} options d rbd cands c inst :
  find_matches_in_directory options d rbd = Ok cands →
  c ∈ cands → inst ∈ instances c →
  ∃ rows row j det,
    dict_get rbd d = Some rows ∧ row ∈ rows
    ∧ is_image_file (file row) = true
    ∧ (confidenceMin options <= max_detection_conf row)%Q
    ∧ filename inst = file row
    ∧ iDetection inst = Z.of_nat j ∧ detections row !! j = Some det
    ∧ i_bbox inst = bbox det ∧ confidence inst = conf det
    ∧ i_category inst = category det
    ∧ passes_filters options det.
Proof.
  intros Hf Hc Hi.
  apply find_matches_in_directory_clustered in Hf as (rows & Hrows & Hall).
  rewrite Forall_forall in Hall.
  destruct (Hall c Hc) as (_ & _ & first & rest & Heq & _ & _ & Hsrc).
  rewrite <- Heq in Hsrc. rewrite Forall_forall in Hsrc.
  destruct (Hsrc inst Hi) as (row & Hrow & Himg & Hmax & Hfile & j & det & Hrest).
  exists rows, row, j, det. by do 5 (split; [done|]).
Qed.

Lemma candidates_have_a_founder_witness :
  let inst (i : nat) :=
    mkIndexedDetection 0 (Scenario.image i) Scenario.box (9 # 10) "1" in
  let c := mkDetectionLocation [inst 0%nat; inst 1%nat; inst 2%nat] Scenario.box "A" "" in
  let rbd := [("A", Scenario.table 3)] in
  find_matches_in_directory (H := Scenario.env 3) Scenario.options "A" rbd = Ok [c]
  ∧ ∃ first rest,
      instances c = first :: rest
      ∧ l_bbox c = i_bbox first
      ∧ ∀ i, i ∈ rest →
          (iouThreshold Scenario.options
           <= get_iou (Externals := Scenario.env 3) (i_bbox i) (l_bbox c))%Q.
Proof.
  intros inst c rbd.
  assert (Hrun : find_matches_in_directory (H := Scenario.env 3) Scenario.options
                   "A" rbd = Ok [c]) by by_eval.
  split; [exact Hrun|].
  exact (proj2 (proj2 (candidates_have_a_founder (H := Scenario.env 3)
           Scenario.options "A" rbd [c] c Hrun (list_elem_of_here c [])))).
Defined.

Lemma instances_resolve_to_detections_witness :
  let inst (i : nat) :=
    mkIndexedDetection 0 (Scenario.image i) Scenario.box (9 # 10) "1" in
  let c := mkDetectionLocation [inst 0%nat; inst 1%nat; inst 2%nat] Scenario.box "A" "" in
  let rbd := [("A", Scenario.table 3)] in
  find_matches_in_directory (H := Scenario.env 3) Scenario.options "A" rbd = Ok [c]
  ∧ ∃ rows row j det,
      dict_get rbd "A" = Some rows ∧ row ∈ rows
      ∧ filename (inst 1%nat) = file row
      ∧ iDetection (inst 1%nat) = Z.of_nat j ∧ detections row !! j = Some det
      ∧ i_bbox (inst 1%nat) = bbox det.
Proof.
  intros inst c rbd.
  assert (Hrun : find_matches_in_directory (H := Scenario.env 3) Scenario.options
                   "A" rbd = Ok [c]) by by_eval.
  split; [exact Hrun|].
  destruct (instances_resolve_to_detections (H := Scenario.env 3) Scenario.options
              "A" rbd [c] c (inst 1%nat) Hrun (list_elem_of_here c [])
              (list_elem_of_further _ _ _ (list_elem_of_here _ _)))
    as (rows & row & j & det & Hrows & Hrow & _ & _ & Hfile & Hj & Hdet & Hbox & _).
  exists rows, row, j, det. by do 5 (split; [assumption|]).
Defined.

(** ** Clustering only adds *)

Lemma extends_refl (c : DetectionLocation) : extends c c.
Proof. by repeat split. Qed.

Lemma extends_trans (c1 c2 c3 : DetectionLocation) :
  extends c1 c2 → extends c2 c3 → extends c1 c3.
Proof.
  intros (Hb1 & Hd1 & Hs1 & Hp1) (Hb2 & Hd2 & Hs2 & Hp2).
  split; [congruence|]. split; [congruence|]. split; [congruence|].
  by etrans.
Qed.

Lemma grows_refl (cands : list DetectionLocation) : grows cands cands.
Proof.
  exists cands, []. split; [by rewrite app_nil_r|].
  apply Forall2_same_length_lookup. split; [done|].
  intros i c c' Hc Hc'. simplify_eq. apply extends_refl.
Qed.

Lemma grows_trans (l1 l2 l3 : list DetectionLocation) :
  grows l1 l2 → grows l2 l3 → grows l1 l3.
Proof.
  intros (old1 & new1 & -> & H1) (old2 & new2 & -> & H2).
  apply Forall2_app_inv_l in H2 as (old2a & old2b & Ha & Hb & ->).
  exists old2a, (old2b ++ new2). split; [by rewrite app_assoc|].
  eapply Forall2_trans; [apply extends_trans | eassumption..].
Qed.

Section Growth.
Context `{Externals}.
Variable options : RepeatDetectionOptions.

Lemma add_detection_grows d row iDet detection cands :
  grows cands (add_detection options d row iDet detection cands).
Proof.
  rewrite add_detection_spec. eexists _, _. split; [reflexivity|].
  apply Forall2_fmap_r, Forall2_same_length_lookup. split; [done|].
  intros i c c' Hc Hc'. simplify_eq. simpl.
  destruct (Qle_bool _ _); [|apply extends_refl].
  repeat split. simpl. by apply prefix_app_r.
Qed.

Lemma process_detections_grows d row dets iDet cands cands' :
  process_detections options d row iDet dets cands = Ok cands' → grows cands cands'.
Proof.
  revert iDet cands. induction dets as [|det dets IH]; intros iDet cands Hp;
    cbn [process_detections] in Hp.
  - simplify_eq. apply grows_refl.
  - apply bind_Ok in Hp as (cands1 & Hdet & Hp).
    eapply grows_trans; [|by eapply IH].
    apply process_detection_Ok in Hdet as [->| ->];
      [apply grows_refl | apply add_detection_grows].
Qed.

Lemma process_row_grows d row cands cands' :
  process_row options d row cands = Ok cands' → grows cands cands'.
Proof.
  unfold process_row. intros Hp.
  destruct (negb (is_image_file (file row))); [simplify_eq; apply grows_refl|].
  destruct (Qlt_bool _ _); [simplify_eq; apply grows_refl|].
  apply bind_Ok in Hp as ([] & _ & Hp). by eapply process_detections_grows.
Qed.

Lemma process_rows_grows d rows cands cands' :
  process_rows options d rows cands = Ok cands' → grows cands cands'.
Proof.
  revert cands. induction rows as [|row rows IH]; intros cands Hp;
    cbn [process_rows] in Hp.
  - simplify_eq. apply grows_refl.
  - apply bind_Ok in Hp as (cands1 & Hrow & Hp).
    eapply grows_trans; [by eapply process_row_grows | by eapply IH].
Qed.

Lemma process_rows_app d rows more cands :
  process_rows options d (rows ++ more) cands
  = process_rows options d rows cands ≫= process_rows options d more.
Proof.
  revert cands. induction rows as [|row rows IH]; intros cands; [done|].
  cbn [process_rows app].
  destruct (process_row options d row cands) as [cands1|e]; simpl; [apply IH | done].
Qed.
End Growth.

(** X3. Rows added at the end of a directory only extend its clustering: the
    candidates found on the longer list of rows are the candidates found on
    the shorter one, in the same order, with the same boxes and with their
    instances as a prefix of the new instances, followed by new candidates. *)
Theorem more_rows_extend_the_candidates `{Externals} options d rbd rbd' rows more cands' :
  dict_get rbd d = Some rows →
  dict_get rbd' d = Some (rows ++ more) →
  find_matches_in_directory options d rbd' = Ok cands' →
  ∃ cands,
    find_matches_in_directory options d rbd = Ok cands
    ∧ (length cands ≤ length cands')%nat
    ∧ ∀ i c, cands !! i = Some c →
        ∃ c', cands' !! i = Some c'
              ∧ l_bbox c' = l_bbox c
              ∧ relativeDir c' = relativeDir c
              ∧ instances c `prefix_of` instances c'.
Proof.
  intros Hrows Hrows' Hf. unfold find_matches_in_directory in *.
  rewrite Hrows' in Hf. rewrite Hrows. simpl in *.
  rewrite process_rows_app in Hf. apply bind_Ok in Hf as (cands & Hfirst & Hmore).
  exists cands. split; [done|].
  apply process_rows_grows in Hmore as (old & new & -> & Hext).
  split.
  - rewrite length_app, <- (Forall2_length _ _ _ Hext). lia.
  - intros i c Hc.
    destruct (Forall2_lookup_l _ _ _ _ _ Hext Hc) as (c' & Hc' & Hb & Hd & _ & Hp).
    exists c'. split; [by apply lookup_app_l_Some | done].
Qed.

Lemma more_rows_extend_the_candidates_witness :
  let inst (i : nat) :=
    mkIndexedDetection 0 (Scenario.image i) Scenario.box (9 # 10) "1" in
  let short := [("A", Scenario.table 1)] in
  let long := [("A", Scenario.table 1 ++ [Scenario.row (9 # 10) 1])] in
  let c' := mkDetectionLocation [inst 0%nat; inst 1%nat] Scenario.box "A" "" in
  find_matches_in_directory (H := Scenario.env 2) Scenario.options "A" long = Ok [c']
  ∧ ∃ cands,
      find_matches_in_directory (H := Scenario.env 2) Scenario.options "A" short
      = Ok cands
      ∧ (length cands ≤ 1)%nat.
Proof.
  intros inst short long c'.
  assert (Hrun : find_matches_in_directory (H := Scenario.env 2) Scenario.options
                   "A" long = Ok [c']) by by_eval.
  split; [exact Hrun|].
  destruct (more_rows_extend_the_candidates (H := Scenario.env 2) Scenario.options
              "A" short long (Scenario.table 1) [Scenario.row (9 # 10) 1] [c']
              eq_refl eq_refl Hrun) as (cands & Hshort & Hlen & _).
  exists cands. split; [exact Hshort | exact Hlen].
Defined.

(** ** When clustering raises *)

Lemma py_getitem_Raise {A} (l : list A) (i : Z) (e : exn) :
  py_getitem l i = Raise e → e = IndexError.
Proof.
  unfold py_getitem. destruct (_ || _); [by intros [= <-]|].
  destruct (l !! _); [done | by intros [= <-]].
Qed.

Section ClusteringErrors.
Context `{Externals}.
Variable options : RepeatDetectionOptions.

Lemma class_excluded_Raise det e :
  class_excluded options det = Raise e →
  e = ValueError ∧ excludeClasses options ≠ [].
Proof.
  unfold class_excluded. destruct (excludeClasses options) as [|x l]; [done|].
  simpl. destruct (py_int (category det)); simpl; [done|].
  by intros [= <-].
Qed.

Lemma class_excluded_clean det :
  excludeClasses options = [] ∨ is_Some (py_int (category det)) →
  ∃ b, class_excluded options det = Ok b.
Proof.
  unfold class_excluded. intros [->|[z ->]]; simpl; [eauto|].
  destruct (0 <? _); simpl; eauto.
Qed.

Lemma process_detection_Raise d row iDet det cands e :
  process_detection options d row iDet det cands = Raise e → clustering_exn options e.
Proof.
  unfold process_detection, clustering_exn. intros Hp.
  apply bind_Raise in Hp as [Hp|([] & _ & Hp)];
    [left; by eapply assert_Raise|].
  destruct (Qlt_bool (conf det) (confidenceMin options)); [done|].
  destruct (Qlt_bool (confidenceMax options) (conf det)); [done|].
  apply bind_Raise in Hp as [Hp|(excluded & _ & Hp)];
    [right; right; by eapply class_excluded_Raise|].
  destruct excluded; [done|].
  apply bind_Raise in Hp as [Hp|(w & _ & Hp)];
    [right; left; by eapply py_getitem_Raise|].
  apply bind_Raise in Hp as [Hp|(h & _ & Hp)];
    [right; left; by eapply py_getitem_Raise|].
  apply bind_Raise in Hp as [Hp|([] & _ & Hp)];
    [left; by eapply assert_Raise|].
  by destruct (Qlt_bool (maxSuspiciousDetectionSize options) (float_mul h w)).
Qed.

Lemma process_detections_Raise d row dets iDet cands e :
  process_detections options d row iDet dets cands = Raise e → clustering_exn options e.
Proof.
  revert iDet cands. induction dets as [|det dets IH]; intros iDet cands Hp;
    cbn [process_detections] in Hp; [done|].
  apply bind_Raise in Hp as [Hp|(cands1 & _ & Hp)];
    [by eapply process_detection_Raise | by eapply IH].
Qed.

Lemma process_row_Raise d row cands e :
  process_row options d row cands = Raise e → clustering_exn options e.
Proof.
  unfold process_row. intros Hp.
  destruct (negb (is_image_file (file row))); [done|].
  destruct (Qlt_bool _ _); [done|].
  apply bind_Raise in Hp as [Hp|([] & _ & Hp)];
    [left; by eapply assert_Raise | by eapply process_detections_Raise].
Qed.

Lemma process_rows_Raise d rows cands e :
  process_rows options d rows cands = Raise e → clustering_exn options e.
Proof.
  revert cands. induction rows as [|row rows IH]; intros cands Hp;
    cbn [process_rows] in Hp; [done|].
  apply bind_Raise in Hp as [Hp|(cands1 & _ & Hp)];
    [by eapply process_row_Raise | by eapply IH].
Qed.

Lemma find_matches_in_directory_Raise d rbd e :
  find_matches_in_directory options d rbd = Raise e →
  (e = KeyError ∧ dict_get rbd d = None)
  ∨ (is_Some (dict_get rbd d) ∧ clustering_exn options e).
Proof.
  unfold find_matches_in_directory.
  destruct (dict_get rbd d) as [rows|]; simpl.
  - intros Hp. right. split; [eauto | by eapply process_rows_Raise].
  - intros [= <-]. by left.
Qed.

Lemma find_all_matches_Raise dirs rbd e :
  find_all_matches options dirs rbd = Raise e →
  ∃ d, d ∈ dirs ∧ find_matches_in_directory options d rbd = Raise e.
Proof.
  induction dirs as [|d dirs IH]; cbn [find_all_matches]; [done|]. intros Hp.
  apply bind_Raise in Hp as [Hp|(c & _ & Hp)].
  - exists d. split; [apply list_elem_of_here | done].
  - apply bind_Raise in Hp as [Hp|(cs & _ & Hp)]; [|done].
    destruct (IH Hp) as (d' & Hd' & Hr).
    exists d'. split; [apply list_elem_of_further, Hd' | done].
Qed.

Lemma process_detection_clean d row iDet det cands :
  clean_detection options det →
  ∃ cands', process_detection options d row iDet det cands = Ok cands'.
Proof.
  intros (H0 & H1 & Hcls & w & h & Hw & Hh & Ha0 & Ha1).
  unfold process_detection.
  apply Qle_bool_iff in H0, H1, Ha0, Ha1. rewrite H0, H1. simpl.
  destruct (Qlt_bool (conf det) (confidenceMin options)); [eauto|].
  destruct (Qlt_bool (confidenceMax options) (conf det)); [eauto|].
  destruct (class_excluded_clean det Hcls) as [b ->]. simpl.
  destruct b; [eauto|].
  rewrite Hw. simpl. rewrite Hh. simpl. rewrite Ha0, Ha1. simpl.
  destruct (Qlt_bool _ _); eauto.
Qed.

Lemma process_detections_clean d row dets iDet cands :
  Forall (clean_detection options) dets →
  ∃ cands', process_detections options d row iDet dets cands = Ok cands'.
Proof.
  intros Hall. revert iDet cands.
  induction Hall as [|det dets Hdet _ IH]; intros iDet cands;
    cbn [process_detections]; [eauto|].
  destruct (process_detection_clean d row iDet det cands Hdet) as [cands1 ->].
  simpl. apply IH.
Qed.

Lemma process_row_clean d row cands :
  clean_row options row → ∃ cands', process_row options d row cands = Ok cands'.
Proof.
  unfold clean_row, process_row. intros Hclean.
  destruct (is_image_file (file row)); simpl; [|eauto].
  destruct (Qlt_bool (max_detection_conf row) (confidenceMin options)) eqn:Hmax;
    [eauto|].
  apply Qlt_bool_false in Hmax. destruct (Hclean eq_refl Hmax) as [Hne Hall].
  assert ((0 <? Z.of_nat (length (detections row))) = true) as ->.
  { apply Z.ltb_lt. destruct (detections row); [done | simpl; lia]. }
  simpl. by apply process_detections_clean.
Qed.

Lemma process_rows_clean d rows cands :
  Forall (clean_row options) rows →
  ∃ cands', process_rows options d rows cands = Ok cands'.
Proof.
  intros Hall. revert cands. induction Hall as [|row rows Hrow _ IH]; intros cands;
    cbn [process_rows]; [eauto|].
  destruct (process_row_clean d row cands Hrow) as [cands1 ->]. simpl. apply IH.
Qed.
End ClusteringErrors.

Lemma elem_of_py_slice_to {A} (l : list A) (k : Z) (x : A) :
  x ∈ py_slice_to l k → x ∈ l.
Proof. unfold py_slice_to. apply subseteq_take. Qed.

(** X4. Clustering a directory succeeds when every row that the row loop does
    not skip (an image whose cached maximum reaches [confidenceMin]) has
    detections, each with a confidence in [0, 1], a box with a width and a
    height whose floating-point product is in [0, 1], and, when classes are
    excluded, a category that [int] reads. *)
Theorem clustering_succeeds_on_clean_rows `{Externals} options d rbd rows :
  dict_get rbd d = Some rows →
  Forall (clean_row options) rows →
  ∃ cands, find_matches_in_directory options d rbd = Ok cands.
Proof.
  intros Hrows Hclean. unfold find_matches_in_directory. rewrite Hrows. simpl.
  by apply process_rows_clean.
Qed.

Lemma clustering_succeeds_on_clean_rows_witness :
  let rbd := [("A", Scenario.table 2)] in
  Forall (clean_row (H := Scenario.env 2) Scenario.options) (Scenario.table 2)
  ∧ ∃ cands,
      find_matches_in_directory (H := Scenario.env 2) Scenario.options "A" rbd
      = Ok cands.
Proof.
  intros rbd.
  assert (Hclean : Forall (clean_row (H := Scenario.env 2) Scenario.options)
                          (Scenario.table 2)).
  { repeat constructor; try done.
    all: try (exists (5 # 100)%Q, (5 # 100)%Q; repeat split; by_eval).
    all: by_eval. }
  split; [exact Hclean|].
  exact (clustering_succeeds_on_clean_rows (H := Scenario.env 2) Scenario.options
           "A" rbd (Scenario.table 2) eq_refl Hclean).
Defined.

(** X5. Clustering a directory raises KeyError exactly when the directory is
    not a key of [rowsByDirectory]; it never raises TypeError, and it raises
    ValueError only when [excludeClasses] is not empty.  The driver, which
    takes the directories from the keys, never meets the KeyError. *)
Theorem clustering_exceptions `{Externals} options d rbd :
  (find_matches_in_directory options d rbd = Raise KeyError ↔ dict_get rbd d = None)
  ∧ (∀ e, find_matches_in_directory options d rbd = Raise e →
          e ≠ TypeError ∧ (e = ValueError → excludeClasses options ≠ []))
  ∧ (∀ k e, find_all_matches options (py_slice_to (dict_keys rbd) k) rbd = Raise e →
            e ≠ KeyError).
Proof.
  split; [|split].
  - split.
    + intros [[_ Hnone]|[_ [?|[?|[? _]]]]]%find_matches_in_directory_Raise; done.
    + intros Hnone. unfold find_matches_in_directory. by rewrite Hnone.
  - intros e [[-> _]|[_ [->|[->|[-> Hex]]]]]%find_matches_in_directory_Raise; done.
  - intros k e (d' & Hd' & Hr)%find_all_matches_Raise.
    apply elem_of_py_slice_to, dict_keys_get in Hd'.
    apply find_matches_in_directory_Raise in Hr as [[_ Hnone]|[_ [->|[->|[-> _]]]]];
      [|done..].
    rewrite Hnone in Hd'. by destruct Hd'.
Qed.

(** ** The second pass is a map *)

Section SecondPassMap.
Variable options : RepeatDetectionOptions.

Lemma count_rows_cons (f : Row → bool) (row : Row) (rows : list Row) :
  count_rows f (row :: rows) = ((if f row then 1 else 0) + count_rows f rows)%nat.
Proof. unfold count_rows. simpl. by destruct (f row). Qed.

(** One iteration of the second pass on the row it visits. *)
Lemma update_max_step pre row post c t' c' :
  update_max options (pre ++ row :: post, c) (length pre) row = Ok (t', c') →
  t' = pre ++ refresh_row row :: post
  ∧ nProbChanges c' = (nProbChanges c + if row_changes row then 1 else 0)%nat
  ∧ nProbChangesToNegative c'
    = (nProbChangesToNegative c + if changes_to_negative row then 1 else 0)%nat
  ∧ nProbChangesAcrossThreshold c'
    = (nProbChangesAcrossThreshold c + if changes_across options row then 1 else 0)%nat.
Proof.
  unfold update_max, refresh_row, row_changes, changes_to_negative, changes_across,
    refresh_row, row_changes, recomputed_max.
  destruct (detections row) as [|det dets] eqn:Hdets.
  - simpl. intros [= <- <-]. repeat split; lia.
  - rewrite bool_decide_false by done. intros Hu.
    apply bind_Ok in Hu as ([] & _ & Hu).
    destruct (scan_detections (det :: dets)) as [[maxP|] nNegative];
      cbn [fst from_option mbind result_bind] in *; [|done].
    destruct (Qlt_bool tolerance (Qabs (float_sub maxP (max_detection_conf row)))).
    + apply bind_Ok in Hu as ([] & _ & Hu).
      apply bind_Ok in Hu as ([] & _ & Hu). simplify_eq. simpl.
      split.
      * replace (length pre) with (length pre + 0)%nat by lia.
        by rewrite alter_app_r.
      * repeat case_match; repeat split; lia.
    + simplify_eq. simpl. repeat split; lia.
Qed.

Lemma update_maxes_map rows pre post c t' c' :
  update_maxes options rows (length pre) (pre ++ rows ++ post, c) = Ok (t', c') →
  t' = pre ++ map refresh_row rows ++ post
  ∧ nProbChanges c' = (nProbChanges c + count_rows row_changes rows)%nat
  ∧ nProbChangesToNegative c'
    = (nProbChangesToNegative c + count_rows changes_to_negative rows)%nat
  ∧ nProbChangesAcrossThreshold c'
    = (nProbChangesAcrossThreshold c + count_rows (changes_across options) rows)%nat.
Proof.
  revert pre c. induction rows as [|row rows IH]; intros pre c Hu;
    cbn [update_maxes] in Hu.
  - simplify_eq. unfold count_rows. simpl. repeat split; lia.
  - apply bind_Ok in Hu as ([t1 c1] & Hrow & Hu).
    apply update_max_step in Hrow as (-> & Hn & Hneg & Hacross).
    specialize (IH (pre ++ [refresh_row row]) c1).
    rewrite length_app, Nat.add_1_r, <- app_assoc in IH.
    destruct (IH Hu) as (-> & Hn' & Hneg' & Hacross').
    rewrite !count_rows_cons. split; [by rewrite <- app_assoc|].
    repeat split; lia.
Qed.
End SecondPassMap.

(** X6. The second pass is a map over the table that the first pass left:
    a successful update returns that table with every row refreshed (the
    cached maximum of a row with detections is replaced by the recomputed
    maximum when their floating-point difference is more than 1e-8 in
    absolute value, and nothing else changes),
    and its three counters are the numbers of rows whose cache moved, moved
    below zero, and moved from [confidenceMin] or above to below it. *)
Theorem second_pass_is_a_map `{Externals} options t f2r susp t' n c :
  update_detection_table options t f2r susp = Ok (t', (n, c)) →
  ∃ t1,
    negate_suspicious options f2r susp (t, 0%nat) = Ok (t1, n)
    ∧ t' = map refresh_row t1
    ∧ nProbChanges c = count_rows row_changes t1
    ∧ nProbChangesToNegative c = count_rows changes_to_negative t1
    ∧ nProbChangesAcrossThreshold c = count_rows (changes_across options) t1.
Proof.
  intros Hu. apply update_detection_table_Ok in Hu as (t1 & Hp1 & Hp2).
  exists t1. split; [done|].
  pose proof (update_maxes_map options t1 [] [] (mkCounters 0 0 0) t' c) as Hmap.
  simpl in Hmap. rewrite !app_nil_r in Hmap.
  destruct (Hmap Hp2) as (-> & Hn & Hneg & Hacross). done.
Qed.

(** Two updates.  In the first a flagged detection is negated and the cache
    of its row follows.  In the second nothing is flagged: the row has the
    cache 0.50000001 and the confidences 0.5 and -0.9; the rationals 1/2
    and 50000001/100000000 differ by 1e-8 exactly, but the doubles differ
    by 1.0000000050247593e-08, which is more than the double 1e-8, so the
    cache becomes 0.5 and one change is counted. *)
Lemma second_pass_is_a_map_witness :
  let inst := mkIndexedDetection 0 (Scenario.image 0) Scenario.box (9 # 10) "1" in
  let c := mkDetectionLocation [inst] Scenario.box "A" "" in
  let f2r : gmap string nat := {[ Scenario.image 0 := 0%nat ]} in
  let near :=
    mkRow (Scenario.image 0) (float (50000001 # 100000000))
      [mkDetection "1" (1 # 2) Scenario.box;
       mkDetection "1" (- float (9 # 10)) Scenario.box] in
  update_detection_table (H := Scenario.env 2) Scenario.options
    (Scenario.table 2) f2r [[c]]
  = Ok ([set_max_detection_conf (Scenario.row (-9 # 10) 0) (-9 # 10);
         Scenario.row (9 # 10) 1], (1%nat, mkCounters 1 1 1))
  ∧ (∃ t1,
      [set_max_detection_conf (Scenario.row (-9 # 10) 0) (-9 # 10);
       Scenario.row (9 # 10) 1] = map refresh_row t1
      ∧ 1%nat = count_rows row_changes t1)
  ∧ update_detection_table (H := Scenario.env 2) Scenario.options [near] ∅ []
    = Ok ([set_max_detection_conf near (1 # 2)], (0%nat, mkCounters 1 0 0))
  ∧ ∃ t1,
      [set_max_detection_conf near (1 # 2)] = map refresh_row t1
      ∧ 1%nat = count_rows row_changes t1.
Proof.
  intros inst c f2r near.
  assert (Hrun : update_detection_table (H := Scenario.env 2) Scenario.options
                   (Scenario.table 2) f2r [[c]]
                 = Ok ([set_max_detection_conf (Scenario.row (-9 # 10) 0) (-9 # 10);
                        Scenario.row (9 # 10) 1], (1%nat, mkCounters 1 1 1)))
    by (vm_compute; reflexivity).
  assert (Hnear : update_detection_table (H := Scenario.env 2) Scenario.options
                    [near] ∅ []
                  = Ok ([set_max_detection_conf near (1 # 2)],
                        (0%nat, mkCounters 1 0 0)))
    by (vm_compute; reflexivity).
  split; [exact Hrun|]. split; [|split; [exact Hnear|]].
  - destruct (second_pass_is_a_map (H := Scenario.env 2) Scenario.options
                _ _ _ _ _ _ Hrun) as (t1 & _ & Hmap & Hn & _).
    exists t1. split; [exact Hmap | exact Hn].
  - destruct (second_pass_is_a_map (H := Scenario.env 2) Scenario.options
                _ _ _ _ _ _ Hnear) as (t1 & _ & Hmap & Hn & _).
    exists t1. split; [exact Hmap | exact Hn].
Defined.

(** ** The cached maximum after the update *)

Lemma refresh_row_detections (r : Row) : detections (refresh_row r) = detections r.
Proof.
  unfold refresh_row. destruct (detections r) eqn:Hd; [done|].
  destruct (recomputed_max _); [|done]. by destruct (Qlt_bool _ _).
Qed.

Lemma float_sub_diag (a : Q) : float_sub a a = 0%Q.
Proof.
  unfold float_sub. set (b := float a). unfold float.
  assert (Qeq_bool (b - b) 0 = true) as -> by (apply Qeq_bool_iff; ring).
  reflexivity.
Qed.

Lemma Qabs_diag (a : Q) : (Qabs (float_sub a a) <= tolerance)%Q.
Proof. rewrite float_sub_diag. by vm_compute. Qed.

Lemma refresh_row_consistent (r : Row) :
  detections r ≠ [] →
  ∃ maxP,
    recomputed_max (detections r) = Some maxP
    ∧ (Qabs (float_sub maxP (max_detection_conf (refresh_row r))) <= tolerance)%Q.
Proof.
  intros Hne. destruct (recomputed_max_spec _ Hne) as (maxP & Hmax & _).
  exists maxP. split; [done|]. unfold refresh_row. rewrite Hmax.
  destruct (detections r); [done|].
  destruct (Qlt_bool tolerance (Qabs (float_sub maxP (max_detection_conf r)))) eqn:Htol.
  - simpl. apply Qabs_diag.
  - by apply Qlt_bool_false.
Qed.

(** X7. After a successful update the cached maximum of every row with
    detections agrees with its confidences: the largest confidence of the
    row is within 1e-8 of the cached value, the difference being the
    floating-point one. *)
Theorem cache_is_consistent_after_update `{Externals} options t f2r susp t' counters r' :
  update_detection_table options t f2r susp = Ok (t', counters) →
  r' ∈ t' → detections r' ≠ [] →
  ∃ maxP,
    recomputed_max (detections r') = Some maxP
    ∧ (∀ d, d ∈ detections r' → (conf d <= maxP)%Q)
    ∧ (∃ d, d ∈ detections r' ∧ conf d = maxP)
    ∧ (Qabs (float_sub maxP (max_detection_conf r')) <= tolerance)%Q.
Proof.
  destruct counters as [n c]. intros Hu Hr' Hne.
  apply update_detection_table_Ok in Hu as (t1 & _ & Hp2).
  pose proof (update_maxes_map options t1 [] [] (mkCounters 0 0 0) t' c) as Hmap.
  simpl in Hmap. rewrite !app_nil_r in Hmap. destruct (Hmap Hp2) as (-> & _).
  apply list_elem_of_fmap in Hr' as (r1 & -> & _).
  rewrite refresh_row_detections in Hne |- *.
  destruct (recomputed_max_spec _ Hne) as (maxP & Hmax & Hall & Hex).
  destruct (refresh_row_consistent r1 Hne) as (maxP' & Hmax' & Hcons).
  rewrite Hmax in Hmax'. simplify_eq. exists maxP'. done.
Qed.

Lemma cache_is_consistent_after_update_witness :
  let inst := mkIndexedDetection 0 (Scenario.image 0) Scenario.box (9 # 10) "1" in
  let c := mkDetectionLocation [inst] Scenario.box "A" "" in
  let f2r : gmap string nat := {[ Scenario.image 0 := 0%nat ]} in
  let r' := set_max_detection_conf (Scenario.row (-9 # 10) 0) (-9 # 10) in
  update_detection_table (H := Scenario.env 2) Scenario.options
    (Scenario.table 2) f2r [[c]]
  = Ok ([r'; Scenario.row (9 # 10) 1], (1%nat, mkCounters 1 1 1))
  ∧ ∃ maxP,
      recomputed_max (detections r') = Some maxP
      ∧ (Qabs (float_sub maxP (max_detection_conf r')) <= tolerance)%Q.
Proof.
  intros inst c f2r r'.
  assert (Hrun : update_detection_table (H := Scenario.env 2) Scenario.options
                   (Scenario.table 2) f2r [[c]]
                 = Ok ([r'; Scenario.row (9 # 10) 1], (1%nat, mkCounters 1 1 1)))
    by by_eval.
  split; [exact Hrun|].
  destruct (cache_is_consistent_after_update (H := Scenario.env 2) Scenario.options
              _ _ _ _ _ r' Hrun (list_elem_of_here _ _) ltac:(done))
    as (maxP & Hmax & _ & _ & Hcons).
  exists maxP. split; [exact Hmax | exact Hcons].
Defined.

(** X8. The update cannot succeed on a table with a row that has detections
    and a negative cached maximum: when the first pass succeeds, the second
    raises an assertion error. *)
Theorem negative_cache_aborts_update `{Externals} options t f2r susp i r :
  t !! i = Some r → detections r ≠ [] → (max_detection_conf r < 0)%Q →
  (∀ res, update_detection_table options t f2r susp ≠ Ok res)
  ∧ (∀ t1 n, negate_suspicious options f2r susp (t, 0%nat) = Ok (t1, n) →
             update_detection_table options t f2r susp = Raise AssertionError).
Proof.
  intros Hr Hne Hneg.
  assert (Hno : ∀ res, update_detection_table options t f2r susp ≠ Ok res).
  { intros [t' [n c]] Hu.
    apply update_detection_table_Ok in Hu as (t1 & Hp1 & Hp2).
    apply negate_suspicious_suppressed in Hp1 as [Hs _].
    destruct (Forall2_lookup_l _ _ _ _ _ Hs Hr) as (r1 & Hr1 & _ & Hmdc & Hdets).
    destruct (update_maxes_Ok _ _ _ _ _ _ _ Hp2 i r1 Hr1) as (r2 & _ & _ & _ & Hcase).
    rewrite decide_True in Hcase by lia.
    replace (i - 0)%nat with i in Hcase by lia. rewrite Hr1 in Hcase.
    assert (detections r1 ≠ []) as Hne1.
    { intros Hnil. rewrite Hnil in Hdets. apply Forall2_nil_inv_r in Hdets. done. }
    destruct Hcase as [[Hnil _]|(m & _ & _ & H0 & _)]; [done|].
    rewrite Hmdc in H0. by apply Qlt_not_le in Hneg. }
  split; [exact Hno|]. intros t1 n Hp1.
  destruct (update_detection_table options t f2r susp) as [res|e] eqn:Hu;
    [by destruct (Hno res)|].
  f_equal. unfold update_detection_table in Hu. rewrite Hp1 in Hu. simpl in Hu.
  apply bind_Raise in Hu as [Hu|([t2 c2] & _ & Hu)]; [|done].
  by eapply update_maxes_Raise.
Qed.

Lemma negative_cache_aborts_update_witness :
  let f2r : gmap string nat := {[ Scenario.image 0 := 0%nat ]} in
  let t := [set_max_detection_conf (Scenario.row (-9 # 10) 0) (-9 # 10)] in
  (-9 # 10 < 0)%Q
  ∧ update_detection_table (H := Scenario.env 1) Scenario.options t f2r []
    = Raise AssertionError.
Proof.
  intros f2r t.
  assert (Hneg : (-9 # 10 < 0)%Q) by by_eval.
  split; [exact Hneg|].
  exact (proj2 (negative_cache_aborts_update (H := Scenario.env 1) Scenario.options
           t f2r [] 0%nat
           (set_max_detection_conf (Scenario.row (-9 # 10) 0) (-9 # 10))
           eq_refl ltac:(done) Hneg) t 0%nat eq_refl).
Defined.

(** ** The first pass, instance by instance *)

Lemma py_getitem_index {A} (l : list A) (i : Z) (x : A) :
  py_getitem l i = Ok x ↔ ∃ j, py_index (length l) i = Some j ∧ l !! j = Some x.
Proof.
  unfold py_getitem, py_index.
  destruct (_ || _) eqn:Hrange; simpl.
  - split; [done | by intros (j & Hj & _)].
  - split.
    + destruct (l !! _) eqn:Hl; [|done]. intros [= ->]. eauto.
    + intros (j & [= <-] & ->). done.
Qed.

Lemma py_setitem_index {A} (l : list A) (i : Z) (j : nat) (y : A) :
  py_index (length l) i = Some j → py_setitem l i y = <[j := y]> l.
Proof.
  unfold py_setitem, py_index. destruct (_ || _); [done|]. by intros [= <-].
Qed.

Lemma py_getitem_Forall2 {A} (R : A → A → Prop) (l l' : list A) (i : Z) (x : A) :
  Forall2 R l l' → py_getitem l i = Ok x →
  ∃ x', py_getitem l' i = Ok x' ∧ R x x'.
Proof.
  intros HF (j & Hj & Hx)%py_getitem_index.
  destruct (Forall2_lookup_l _ _ _ _ _ HF Hx) as (x' & Hx' & HR).
  exists x'. split; [|done]. apply py_getitem_index. exists j.
  by rewrite <- (Forall2_length _ _ _ HF).
Qed.

Lemma py_getitem_Forall2_r {A} (R : A → A → Prop) (l l' : list A) (i : Z) (x' : A) :
  Forall2 R l l' → py_getitem l' i = Ok x' →
  ∃ x, py_getitem l i = Ok x ∧ R x x'.
Proof.
  intros HF (j & Hj & Hx)%py_getitem_index.
  destruct (Forall2_lookup_r _ _ _ _ _ HF Hx) as (x & Hx0 & HR).
  exists x. split; [|done]. apply py_getitem_index. exists j.
  by rewrite (Forall2_length _ _ _ HF).
Qed.

Lemma negated_nonpositive (a : Q) : (0 <= a)%Q → (-1 * a <= 0)%Q.
Proof. destruct a as [n d]. unfold Qle. simpl. lia. Qed.

Lemma suppressed_conf_nonpositive (a b : Q) :
  suppressed_conf a b → (a <= 0)%Q → (b <= 0)%Q.
Proof. intros [->|[Ha ->]] Hle; [done | by apply negated_nonpositive]. Qed.

Lemma list_Qeq_bool_refl (l : list Q) : list_Qeq_bool l l = true.
Proof. induction l as [|x l IH]; simpl; [done|]. by rewrite Qeq_bool_refl, IH. Qed.

Lemma elem_of_concat {A} (x : A) (ls : list (list A)) :
  x ∈ concat ls ↔ ∃ l, x ∈ l ∧ l ∈ ls.
Proof.
  induction ls as [|l ls IH]; simpl.
  - split; [by intros ?%elem_of_nil | by intros (l & _ & ?%elem_of_nil)].
  - rewrite elem_of_app, IH. split.
    + intros [Hx|(l' & Hx & Hl')].
      * exists l. split; [done | apply list_elem_of_here].
      * exists l'. split; [done | by apply list_elem_of_further].
    + intros (l' & Hx & [->|Hl']%elem_of_cons); [by left | right; eauto].
Qed.

Lemma elem_of_flagged (susp : list (list DetectionLocation)) b inst :
  (b, inst) ∈ flagged susp
  ↔ ∃ cands c, cands ∈ susp ∧ c ∈ cands ∧ inst ∈ instances c ∧ b = l_bbox c.
Proof.
  unfold flagged. rewrite list_elem_of_bind. split.
  - intros (c & Hin & Hc). apply list_elem_of_fmap in Hin as (inst' & [= -> ->] & Hi).
    apply elem_of_concat in Hc as (cands & Hc & Hcands). eauto 10.
  - intros (cands & c & Hcands & Hc & Hi & ->). exists c. split.
    + apply list_elem_of_fmap. eauto.
    + apply elem_of_concat. eauto.
Qed.

Section Pairs.
Context `{Externals}.
Variable options : RepeatDetectionOptions.
Variable f2r : gmap string nat.

Lemma negate_pairs_app l1 l2 st :
  negate_pairs options f2r (l1 ++ l2) st
  = negate_pairs options f2r l1 st ≫= negate_pairs options f2r l2.
Proof.
  revert st. induction l1 as [|[b inst] l1 IH]; intros st; [done|].
  cbn [negate_pairs app].
  destruct (negate_instance options f2r b st inst); simpl; [apply IH | done].
Qed.

Lemma negate_instances_pairs b l st :
  negate_instances options f2r b l st
  = negate_pairs options f2r ((λ inst, (b, inst)) <$> l) st.
Proof.
  revert st. induction l as [|inst l IH]; intros st; [done|].
  cbn [negate_instances negate_pairs fmap list_fmap].
  destruct (negate_instance options f2r b st inst); simpl; [apply IH | done].
Qed.

Lemma negate_events_pairs events st :
  negate_events options f2r events st
  = negate_pairs options f2r
      (c ← events; (λ inst, (l_bbox c, inst)) <$> instances c) st.
Proof.
  revert st. induction events as [|c events IH]; intros st; [done|].
  cbn [negate_events]. rewrite bind_cons, negate_pairs_app, negate_instances_pairs.
  destruct (negate_pairs _ _ _ st); simpl; [apply IH | done].
Qed.

(** The three loops of the first pass are one loop over [flagged]. *)
Lemma negate_suspicious_pairs susp st :
  negate_suspicious options f2r susp st
  = negate_pairs options f2r (flagged susp) st.
Proof.
  unfold flagged. revert st. induction susp as [|events susp IH]; intros st; [done|].
  cbn [negate_suspicious concat]. rewrite bind_app, negate_pairs_app, negate_events_pairs.
  destruct (negate_pairs _ _ _ st); simpl; [apply IH | done].
Qed.

(** The body of the loop, with the position it writes to. *)
Lemma negate_instance_at b t n inst t' n' :
  negate_instance options f2r b (t, n) inst = Ok (t', n') →
  ∃ i r j d,
    f2r !! filename inst = Some i ∧ t !! i = Some r
    ∧ py_index (length (detections r)) (iDetection inst) = Some j
    ∧ detections r !! j = Some d
    ∧ t' = if Qle_bool 0 (conf d)
           then <[i := set_detections r
                          (<[j := set_conf d (-1 * conf d)%Q]> (detections r))]> t
           else t.
Proof.
  unfold negate_instance. intros Hn.
  apply bind_Ok in Hn as ([] & _ & Hn).
  apply bind_Ok in Hn as ([] & _ & Hn).
  apply bind_Ok in Hn as (i & Hi%from_option_Ok & Hn).
  apply bind_Ok in Hn as (r & Hr%from_option_Ok & Hn).
  apply bind_Ok in Hn as (d & Hd & Hn).
  apply bind_Ok in Hn as ([] & _ & Hn).
  pose proof Hd as (j & Hj & Hdj)%py_getitem_index.
  exists i, r, j, d. do 4 (split; [done|]).
  rewrite (py_setitem_index _ _ j) in Hn by done.
  destruct (Qle_bool 0 (conf d)); by simplify_eq.
Qed.

Lemma verifiable_suppressed t t' p :
  suppressed_table t t' → verifiable options f2r t p ↔ verifiable options f2r t' p.
Proof.
  intros Hs. unfold verifiable. split.
  - intros (Hiou & i & r & d & Hi & Hr & Hd & Hbox). split; [done|].
    destruct (Forall2_lookup_l _ _ _ _ _ Hs Hr) as (r' & Hr' & _ & _ & Hdets).
    destruct (py_getitem_Forall2 _ _ _ _ _ Hdets Hd) as (d' & Hd' & _ & Hb & _).
    exists i, r', d'. by rewrite Hb.
  - intros (Hiou & i & r' & d' & Hi & Hr' & Hd' & Hbox). split; [done|].
    destruct (Forall2_lookup_r _ _ _ _ _ Hs Hr') as (r & Hr & _ & _ & Hdets).
    destruct (py_getitem_Forall2_r _ _ _ _ _ Hdets Hd') as (d & Hd & _ & Hb & _).
    exists i, r, d. by rewrite <- Hb.
Qed.

Lemma negate_instance_verifiable b t n inst :
  (∃ st', negate_instance options f2r b (t, n) inst = Ok st')
  ↔ verifiable options f2r t (b, inst).
Proof.
  unfold verifiable, negate_instance. simpl. split.
  - intros (st' & Hn).
    apply bind_Ok in Hn as ([] & Hiou%assert_Ok%Qle_bool_iff & Hn).
    apply bind_Ok in Hn as ([] & _ & Hn).
    apply bind_Ok in Hn as (i & Hi%from_option_Ok & Hn).
    apply bind_Ok in Hn as (r & Hr%from_option_Ok & Hn).
    apply bind_Ok in Hn as (d & Hd & Hn).
    apply bind_Ok in Hn as ([] & Hbox%assert_Ok & Hn).
    split; [done|]. exists i, r, d. done.
  - intros (Hiou%Qle_bool_iff & i & r & d & Hi & Hr & Hd & Hbox).
    rewrite Hiou, Hi. simpl.
    rewrite Hr. simpl. rewrite Hd. simpl. rewrite Hbox. simpl.
    destruct (Qle_bool 0 (conf d)); eauto.
Qed.

Lemma negate_pairs_verifiable l t n :
  (∃ st', negate_pairs options f2r l (t, n) = Ok st')
  ↔ Forall (verifiable options f2r t) l.
Proof.
  revert t n. induction l as [|[b inst] l IH]; intros t n; cbn [negate_pairs].
  - split; [constructor | eauto].
  - rewrite Forall_cons, <- negate_instance_verifiable. split.
    + intros (st' & ([t1 n1] & Hhead & Htail)%bind_Ok).
      split; [eauto|].
      apply negate_instance_suppressed in Hhead as Hs. destruct Hs as [Hs _].
      assert (Forall (verifiable options f2r t1) l) as Hall
        by (apply (IH t1 n1); eauto).
      eapply Forall_impl; [exact Hall|].
      intros p Hp. by apply (verifiable_suppressed t t1 p Hs).
    + intros [([t1 n1] & Hhead) Htail]. rewrite Hhead. simpl.
      apply negate_instance_suppressed in Hhead as Hs. destruct Hs as [Hs _].
      apply (IH t1 n1). eapply Forall_impl; [exact Htail|].
      intros p Hp. by apply (verifiable_suppressed t t1 p Hs).
Qed.

Lemma negate_instance_Raise b st inst e :
  negate_instance options f2r b st inst = Raise e →
  e = AssertionError ∨ e = IndexError.
Proof.
  destruct st as [t n]. unfold negate_instance. intros Hn.
  apply bind_Raise in Hn as [Hn|([] & _ & Hn)]; [left; by eapply assert_Raise|].
  apply bind_Raise in Hn as [Hn|([] & Hin%assert_Ok%bool_decide_eq_true & Hn)];
    [left; by eapply assert_Raise|].
  destruct Hin as [i Hi]. rewrite Hi in Hn. simpl in Hn.
  destruct (t !! i) as [r|]; simpl in Hn; [|right; by simplify_eq].
  apply bind_Raise in Hn as [Hn|(d & _ & Hn)];
    [right; by eapply py_getitem_Raise|].
  apply bind_Raise in Hn as [Hn|([] & _ & Hn)]; [left; by eapply assert_Raise|].
  by destruct (Qle_bool 0 (conf d)).
Qed.

Lemma negate_pairs_Raise l st e :
  negate_pairs options f2r l st = Raise e → e = AssertionError ∨ e = IndexError.
Proof.
  revert st. induction l as [|[b inst] l IH]; intros st Hn;
    cbn [negate_pairs] in Hn; [done|].
  apply bind_Raise in Hn as [Hn|(st1 & _ & Hn)];
    [by eapply negate_instance_Raise | by eapply IH].
Qed.

Lemma negate_pairs_suppressed l t n t1 n1 :
  negate_pairs options f2r l (t, n) = Ok (t1, n1) → suppressed_table t t1.
Proof.
  revert t n. induction l as [|[b inst] l IH]; intros t n Hn;
    cbn [negate_pairs] in Hn.
  - simplify_eq. apply suppressed_table_refl.
  - apply bind_Ok in Hn as ([t2 n2] & Hhead & Htail).
    apply negate_instance_suppressed in Hhead as [Hs _].
    eapply suppressed_table_trans; [exact Hs | by eapply IH].
Qed.

(** The detection an instance pointed to is not positive afterwards, and it
    stays so. *)
Lemma negate_pairs_suppresses l t n t1 n1 b inst :
  negate_pairs options f2r l (t, n) = Ok (t1, n1) →
  (b, inst) ∈ l →
  ∃ i r d,
    f2r !! filename inst = Some i ∧ t1 !! i = Some r
    ∧ py_getitem (detections r) (iDetection inst) = Ok d
    ∧ (conf d <= 0)%Q.
Proof.
  revert t n. induction l as [|[b0 inst0] l IH]; intros t n Hn Hin;
    cbn [negate_pairs] in Hn; [by apply elem_of_nil in Hin|].
  apply bind_Ok in Hn as ([t2 n2] & Hhead & Htail).
  apply elem_of_cons in Hin as [[= -> ->]|Hin]; [|by eapply IH].
  apply negate_pairs_suppressed in Htail as Hs.
  apply negate_instance_at in Hhead as (i & r & j & d & Hi & Hr & Hj & Hd & Ht2).
  assert (∃ r2 d2, t2 !! i = Some r2
                   ∧ py_getitem (detections r2) (iDetection inst0) = Ok d2
                   ∧ (conf d2 <= 0)%Q) as (r2 & d2 & Hr2 & Hd2 & Hle).
  { destruct (Qle_bool 0 (conf d)) eqn:Hc; subst t2.
    - apply Qle_bool_iff in Hc. eexists _, (set_conf d (-1 * conf d)%Q).
      split; [apply list_lookup_insert_eq; by eapply lookup_lt_Some|].
      split; [|by apply negated_nonpositive].
      apply py_getitem_index. exists j. simpl. rewrite length_insert.
      split; [done|]. apply list_lookup_insert_eq. by eapply lookup_lt_Some.
    - apply Qle_bool_false in Hc. exists r, d. split; [done|].
      split; [|by apply Qlt_le_weak].
      apply py_getitem_index. eauto. }
  destruct (Forall2_lookup_l _ _ _ _ _ Hs Hr2) as (r1 & Hr1 & _ & _ & Hdets).
  destruct (py_getitem_Forall2 _ _ _ _ _ Hdets Hd2) as (d1 & Hd1 & _ & _ & Hc).
  exists i, r1, d1. do 3 (split; [done|]).
  by eapply suppressed_conf_nonpositive.
Qed.
End Pairs.

Section Selectivity.
Context `{Externals}.
Variable options : RepeatDetectionOptions.
Variable f2r : gmap string nat.

Lemma negate_instance_other b t n inst t' n' i j r d :
  negate_instance options f2r b (t, n) inst = Ok (t', n') →
  t !! i = Some r → detections r !! j = Some d →
  ¬ (f2r !! filename inst = Some i
     ∧ py_index (length (detections r)) (iDetection inst) = Some j) →
  ∃ r', t' !! i = Some r' ∧ detections r' !! j = Some d
        ∧ length (detections r') = length (detections r).
Proof.
  intros (i0 & r0 & j0 & d0 & Hi0 & Hr0 & Hj0 & Hd0 & ->)%negate_instance_at Hr Hd Hnot.
  destruct (Qle_bool 0 (conf d0)); [|eauto].
  destruct (decide (i0 = i)) as [->|Hne].
  - simplify_eq. eexists. split; [apply list_lookup_insert_eq; by eapply lookup_lt_Some|].
    simpl. rewrite length_insert. split; [|done].
    rewrite list_lookup_insert_ne; [done|]. intros ->. by apply Hnot.
  - exists r. by rewrite list_lookup_insert_ne.
Qed.

Lemma negate_pairs_other l t n t1 n1 i j r d :
  negate_pairs options f2r l (t, n) = Ok (t1, n1) →
  t !! i = Some r → detections r !! j = Some d →
  (∀ b inst, (b, inst) ∈ l → f2r !! filename inst = Some i →
             py_index (length (detections r)) (iDetection inst) ≠ Some j) →
  ∃ r', t1 !! i = Some r' ∧ detections r' !! j = Some d
        ∧ length (detections r') = length (detections r).
Proof.
  revert t n r. induction l as [|[b inst] l IH]; intros t n r Hn Hr Hd Hnot;
    cbn [negate_pairs] in Hn.
  - simplify_eq. eauto.
  - apply bind_Ok in Hn as ([t2 n2] & Hhead & Htail).
    destruct (negate_instance_other _ _ _ _ _ _ i j r d Hhead Hr Hd)
      as (r2 & Hr2 & Hd2 & Hlen).
    { intros [Hi Hj]. eapply Hnot; [apply list_elem_of_here | done..]. }
    destruct (IH _ _ r2 Htail Hr2 Hd2) as (r' & Hr' & Hd' & Hlen').
    { intros b' inst' Hin Hi. rewrite Hlen.
      apply (Hnot b' inst'); [by apply list_elem_of_further | done]. }
    exists r'. split; [done|]. split; [done | congruence].
Qed.
End Selectivity.

(** X9. After a successful update, the detection that an instance of a
    suspicious candidate points to (the row of its file name, at its
    position) has a confidence that is not positive. *)
Theorem flagged_detections_are_suppressed `{Externals} options t f2r susp t' counters
    cands c inst :
  update_detection_table options t f2r susp = Ok (t', counters) →
  cands ∈ susp → c ∈ cands → inst ∈ instances c →
  ∃ i r' d',
    f2r !! filename inst = Some i ∧ t' !! i = Some r'
    ∧ py_getitem (detections r') (iDetection inst) = Ok d'
    ∧ (conf d' <= 0)%Q.
Proof.
  destruct counters as [n k]. intros Hu Hcands Hc Hi.
  apply update_detection_table_Ok in Hu as (t1 & Hp1 & Hp2).
  rewrite negate_suspicious_pairs in Hp1.
  destruct (negate_pairs_suppresses _ _ _ _ _ _ _ (l_bbox c) inst Hp1)
    as (i & r1 & d1 & Hrow & Hr1 & Hd1 & Hle).
  { apply elem_of_flagged. eauto 10. }
  destruct (update_maxes_Ok _ _ _ _ _ _ _ Hp2 i r1 Hr1) as (r' & Hr' & _ & Hd' & _).
  exists i, r', d1. rewrite Hd'. done.
Qed.

Lemma flagged_detections_are_suppressed_witness :
  let inst := mkIndexedDetection (-1) (Scenario.image 0) Scenario.box (9 # 10) "1" in
  let c := mkDetectionLocation [inst] Scenario.box "A" "" in
  let f2r : gmap string nat := {[ Scenario.image 0 := 0%nat ]} in
  update_detection_table (H := Scenario.env 1) Scenario.options
    (Scenario.table 1) f2r [[c]]
  = Ok (Scenario.suppressed 1, (1%nat, mkCounters 1 1 1))
  ∧ ∃ i r' d',
      f2r !! filename inst = Some i ∧ Scenario.suppressed 1 !! i = Some r'
      ∧ py_getitem (detections r') (iDetection inst) = Ok d'
      ∧ (conf d' <= 0)%Q.
Proof.
  intros inst c f2r.
  assert (Hrun : update_detection_table (H := Scenario.env 1) Scenario.options
                   (Scenario.table 1) f2r [[c]]
                 = Ok (Scenario.suppressed 1, (1%nat, mkCounters 1 1 1)))
    by by_eval.
  split; [exact Hrun|].
  exact (flagged_detections_are_suppressed (H := Scenario.env 1) Scenario.options
           _ _ _ _ _ [c] c inst Hrun (list_elem_of_here _ _) (list_elem_of_here _ _)
           (list_elem_of_here _ _)).
Defined.

(** X10. The update changes no detection that no instance points to: when no
    instance of a suspicious candidate has the file name of row [i] and a
    position that denotes detection [j] of that row, the detection is in the
    output as it was in the input. *)
Theorem unflagged_detections_are_kept `{Externals} options t f2r susp t' counters
    i j r d :
  update_detection_table options t f2r susp = Ok (t', counters) →
  t !! i = Some r → detections r !! j = Some d →
  (∀ cands c inst,
     cands ∈ susp → c ∈ cands → inst ∈ instances c →
     f2r !! filename inst = Some i →
     py_index (length (detections r)) (iDetection inst) ≠ Some j) →
  ∃ r', t' !! i = Some r' ∧ detections r' !! j = Some d.
Proof.
  destruct counters as [n k]. intros Hu Hr Hd Hnot.
  apply update_detection_table_Ok in Hu as (t1 & Hp1 & Hp2).
  rewrite negate_suspicious_pairs in Hp1.
  destruct (negate_pairs_other _ _ _ _ _ _ _ i j r d Hp1 Hr Hd)
    as (r1 & Hr1 & Hd1 & _).
  { intros b inst (cands & c & Hcands & Hc & Hi & _)%elem_of_flagged. eauto. }
  destruct (update_maxes_Ok _ _ _ _ _ _ _ Hp2 i r1 Hr1) as (r' & Hr' & _ & Hd' & _).
  exists r'. by rewrite Hd'.
Qed.

Lemma unflagged_detections_are_kept_witness :
  let inst := mkIndexedDetection 0 (Scenario.image 0) Scenario.box (9 # 10) "1" in
  let c := mkDetectionLocation [inst] Scenario.box "A" "" in
  let f2r : gmap string nat :=
    {[ Scenario.image 0 := 0%nat; Scenario.image 1 := 1%nat ]} in
  let d := mkDetection "1" (9 # 10) Scenario.box in
  update_detection_table (H := Scenario.env 2) Scenario.options
    (Scenario.table 2) f2r [[c]]
  = Ok ([set_max_detection_conf (Scenario.row (-9 # 10) 0) (-9 # 10);
         Scenario.row (9 # 10) 1], (1%nat, mkCounters 1 1 1))
  ∧ ∃ r', [set_max_detection_conf (Scenario.row (-9 # 10) 0) (-9 # 10);
           Scenario.row (9 # 10) 1] !! 1%nat = Some r'
          ∧ detections r' !! 0%nat = Some d.
Proof.
  intros inst c f2r d.
  assert (Hrun : update_detection_table (H := Scenario.env 2) Scenario.options
                   (Scenario.table 2) f2r [[c]]
                 = Ok ([set_max_detection_conf (Scenario.row (-9 # 10) 0) (-9 # 10);
                        Scenario.row (9 # 10) 1], (1%nat, mkCounters 1 1 1)))
    by by_eval.
  split; [exact Hrun|].
  apply (unflagged_detections_are_kept (H := Scenario.env 2) Scenario.options
           _ _ _ _ _ 1%nat 0%nat (Scenario.row (9 # 10) 1) d Hrun eq_refl eq_refl).
  intros cands c' inst' Hcands Hc' Hinst' Hrow.
  apply list_elem_of_singleton in Hcands as ->.
  apply list_elem_of_singleton in Hc' as ->.
  apply list_elem_of_singleton in Hinst' as ->.
  vm_compute in Hrow. discriminate Hrow.
Defined.

(** X11. The first pass succeeds exactly when every instance of every
    suspicious candidate verifies against the input table: its box has an
    IoU of at least [iouThreshold] with the box of its candidate, its file
    name is in [filenameToRow], the row and the detection it points to
    exist, and the first three coordinates of its box are those of the
    detection.  When it fails, it raises an assertion error or an index
    error. *)
Theorem first_pass_succeeds_iff `{Externals} options t f2r susp n0 :
  ((∃ t1 n, negate_suspicious options f2r susp (t, n0) = Ok (t1, n))
   ↔ ∀ cands c inst,
       cands ∈ susp → c ∈ cands → inst ∈ instances c →
       (iouThreshold options <= get_iou (i_bbox inst) (l_bbox c))%Q
       ∧ ∃ i r d,
           f2r !! filename inst = Some i ∧ t !! i = Some r
           ∧ py_getitem (detections r) (iDetection inst) = Ok d
           ∧ list_Qeq_bool (py_slice_to (i_bbox inst) 3)
                           (py_slice_to (bbox d) 3) = true)
  ∧ ∀ e, negate_suspicious options f2r susp (t, n0) = Raise e →
         e = AssertionError ∨ e = IndexError.
Proof.
  rewrite negate_suspicious_pairs. split.
  - transitivity (Forall (verifiable options f2r t) (flagged susp)).
    + rewrite <- (negate_pairs_verifiable options f2r (flagged susp) t n0). split.
      * intros (t1 & n & Hn). eauto.
      * intros ([t1 n] & Hn). eauto.
    + rewrite Forall_forall. split.
      * intros Hall cands c inst Hcands Hc Hi.
        apply (Hall (l_bbox c, inst)), elem_of_flagged. eauto 10.
      * intros Hall [b inst] (cands & c & Hcands & Hc & Hi & ->)%elem_of_flagged.
        by apply (Hall cands c inst).
  - intros e. apply negate_pairs_Raise.
Qed.

(** ** From clustering to the table update *)

Lemma py_getitem_nat {A} (l : list A) (j : nat) (x : A) :
  l !! j = Some x → py_getitem l (Z.of_nat j) = Ok x.
Proof.
  intros Hx. apply py_getitem_index. exists j. split; [|done].
  apply lookup_lt_Some in Hx. unfold py_index.
  destruct (Z.ltb_spec (Z.of_nat j) 0) as [Hneg|_]; [lia|].
  destruct (Z.ltb_spec (Z.of_nat j) 0) as [Hneg|_]; [lia|].
  destruct (Z.leb_spec (Z.of_nat (length l)) (Z.of_nat j)) as [Hbig|_]; [lia|].
  simpl. by rewrite Nat2Z.id.
Qed.

Lemma nonpositive_negation (a : Q) : (a <= 0)%Q → (0 <= -1 * a)%Q.
Proof. destruct a as [n d]. unfold Qle. simpl. lia. Qed.

Lemma suppressed_conf_negated (a b : Q) :
  suppressed_conf a b → (0 <= a)%Q → (b <= 0)%Q → b = (-1 * a)%Q.
Proof.
  intros [->|[_ ->]] Ha Hb; [|done].
  symmetry. apply negate_zero; [done | by apply nonpositive_negation].
Qed.

Section Composition.
Context `{Externals}.
Variable options : RepeatDetectionOptions.

Lemma find_all_matches_clustered dirs rbd allCandidates :
  find_all_matches options dirs rbd = Ok allCandidates →
  ∀ cands, cands ∈ allCandidates →
    ∃ d rows, d ∈ dirs ∧ dict_get rbd d = Some rows
              ∧ Forall (well_clustered options d rows) cands.
Proof.
  revert allCandidates. induction dirs as [|d dirs IH]; intros allCandidates Hf;
    cbn [find_all_matches] in Hf.
  - simplify_eq. by intros cands ?%elem_of_nil.
  - apply bind_Ok in Hf as (c & Hc & Hf).
    apply bind_Ok in Hf as (cs & Hcs & Hf). simplify_eq.
    intros cands [->|Hin]%elem_of_cons.
    + apply find_matches_in_directory_clustered in Hc as (rows & Hrows & Hall).
      exists d, rows. split; [apply list_elem_of_here | done].
    + destruct (IH _ Hcs cands Hin) as (d' & rows & Hd' & Hrest).
      exists d', rows. split; [apply list_elem_of_further, Hd' | done].
Qed.

(** Every candidate that discover mode flags was built by the clustering of a
    searched directory from the rows of that directory. *)
Lemma discover_clustered table rbd f2r dirs susp cands c :
  partitions options table rbd f2r →
  discover options dirs rbd = Ok susp →
  cands ∈ susp → c ∈ cands →
  ∃ d, d ∈ dirs
       ∧ well_clustered options d
           (filter (λ r, dir_key options (file r) = d) table) c.
Proof.
  intros Hpart Hd Hcands Hc.
  apply discover_filter in Hd as (allCandidates & Hall & ->).
  apply list_elem_of_fmap in Hcands as (cands0 & -> & Hcands0).
  rewrite find_suspicious_filter in Hc. apply list_elem_of_filter in Hc as [_ Hc].
  destruct (find_all_matches_clustered _ _ _ Hall cands0 Hcands0)
    as (d & rows & Hd & Hrows & Hwc).
  apply (partitions_group _ _ _ _ _ _ Hpart) in Hrows as [_ ->].
  rewrite Forall_forall in Hwc. eauto.
Qed.

(** An instance of a clustered candidate points to the detection it records,
    in the table and through the index of the partition. *)
Lemma clustered_instance_resolves table rbd f2r d c inst :
  partitions options table rbd f2r →
  well_clustered options d (filter (λ r, dir_key options (file r) = d) table) c →
  inst ∈ instances c →
  ∃ i j row det,
    table !! i = Some row ∧ f2r !! filename inst = Some i
    ∧ file row = filename inst
    ∧ iDetection inst = Z.of_nat j ∧ detections row !! j = Some det
    ∧ i_bbox inst = bbox det ∧ confidence inst = conf det
    ∧ i_category inst = category det
    ∧ passes_filters options det.
Proof.
  intros (_ & _ & Hidx) (_ & _ & first & rest & Heq & _ & _ & Hsrc) Hi.
  rewrite <- Heq in Hsrc. rewrite Forall_forall in Hsrc.
  destruct (Hsrc inst Hi) as (row & Hrow & _ & _ & Hfile & j & det & Hj & Hdet & Hrest).
  apply list_elem_of_filter in Hrow as [_ Hrow].
  apply list_elem_of_lookup in Hrow as (i & Hrow).
  exists i, j, row, det. split; [done|]. split.
  - apply Hidx. eauto.
  - by do 3 (split; [done|]).
Qed.

Lemma discover_verifiable table rbd f2r dirs susp :
  partitions options table rbd f2r →
  discover options dirs rbd = Ok susp →
  (∀ row det, row ∈ table → det ∈ detections row →
     (iouThreshold options <= get_iou (bbox det) (bbox det))%Q) →
  Forall (verifiable options f2r table) (flagged susp).
Proof.
  intros Hpart Hd Hself. apply Forall_forall.
  intros [b inst] (cands & c & Hcands & Hc & Hi & ->)%elem_of_flagged.
  destruct (discover_clustered _ _ _ _ _ _ _ Hpart Hd Hcands Hc) as (d & _ & Hwc).
  destruct (clustered_instance_resolves _ _ _ _ _ _ Hpart Hwc Hi)
    as (i & j & row & det & Hrow & Hidx & _ & Hj & Hdet & Hbox & _).
  split; simpl.
  - destruct Hwc as (_ & _ & first & rest & Heq & Hfirst & Hiou & _).
    rewrite Heq in Hi. apply elem_of_cons in Hi as [->|Hi].
    + rewrite Hfirst, Hbox. eapply Hself; [|by eapply list_elem_of_lookup_2].
      by eapply list_elem_of_lookup_2.
    + rewrite Forall_forall in Hiou. by apply Hiou.
  - exists i, row, det. split; [done|]. split; [done|]. split.
    + rewrite Hj. by apply py_getitem_nat.
    + rewrite Hbox. apply list_Qeq_bool_refl.
Qed.
End Composition.

(** X12. What discover mode flags always passes the checks of the first
    pass: on the groups and the index of the partition of a table, and when
    the box of every detection has an IoU of at least [iouThreshold] with
    itself, the first pass of the update on the candidates of discover mode
    raises nothing. *)
Theorem discovered_candidates_pass_the_checks `{Externals} options table rbd f2r dirs susp :
  separate_files options table = Ok (rbd, f2r) →
  discover options dirs rbd = Ok susp →
  (∀ row det, row ∈ table → det ∈ detections row →
     (iouThreshold options <= get_iou (bbox det) (bbox det))%Q) →
  ∃ t1 n, negate_suspicious options f2r susp (table, 0%nat) = Ok (t1, n).
Proof.
  intros [_ Hpart]%separate_files_Ok Hd Hself.
  rewrite negate_suspicious_pairs.
  destruct (proj2 (negate_pairs_verifiable options f2r (flagged susp) table 0%nat))
    as ([t1 n] & Hn); [|eauto].
  by eapply discover_verifiable.
Qed.

Lemma discovered_candidates_pass_the_checks_witness :
  let table := Scenario.table 15 in
  let rbd := [("A", table)] in
  let f2r : gmap string nat :=
    list_to_map (zip (Scenario.image <$> seq 0 15) (seq 0 15)) in
  let inst (i : nat) :=
    mkIndexedDetection 0 (Scenario.image i) Scenario.box (9 # 10) "1" in
  let susp := [[mkDetectionLocation (inst <$> seq 0 15) Scenario.box "A" ""]] in
  separate_files (H := Scenario.env 15) Scenario.options table = Ok (rbd, f2r)
  ∧ discover (H := Scenario.env 15) Scenario.options ["A"] rbd = Ok susp
  ∧ ∃ t1 n,
      negate_suspicious (H := Scenario.env 15) Scenario.options f2r susp
        (table, 0%nat) = Ok (t1, n).
Proof.
  intros table rbd f2r inst susp.
  assert (Hsep : separate_files (H := Scenario.env 15) Scenario.options table
                 = Ok (rbd, f2r)) by (vm_compute; reflexivity).
  assert (Hd : discover (H := Scenario.env 15) Scenario.options ["A"] rbd = Ok susp)
    by (vm_compute; reflexivity).
  split; [exact Hsep|]. split; [exact Hd|].
  apply (discovered_candidates_pass_the_checks (H := Scenario.env 15)
           Scenario.options table rbd f2r ["A"] susp Hsep Hd).
  intros row det (i & -> & _)%list_elem_of_fmap Hdet.
  apply list_elem_of_singleton in Hdet as ->. by_eval.
Defined.

(** X13. In a successful run of discover mode, every instance of every
    suspicious candidate of the result is a detection of the input table,
    with the confidence the instance recorded, which was not negative; and
    in the output table that detection, with the same category and box, has
    exactly the negated confidence. *)
Theorem discovered_instances_are_negated `{Externals} options table res cands c inst :
  filterFileToLoad options = "" →
  find_repeat_detections options table = Ok res →
  cands ∈ suspiciousDetections res → c ∈ cands → inst ∈ instances c →
  ∃ i j r d r' d',
    table !! i = Some r ∧ file r = filename inst
    ∧ iDetection inst = Z.of_nat j ∧ detections r !! j = Some d
    ∧ conf d = confidence inst ∧ (0 <= conf d)%Q
    ∧ detectionResults res !! i = Some r' ∧ detections r' !! j = Some d'
    ∧ category d' = category d ∧ bbox d' = bbox d
    ∧ conf d' = (-1 * confidence inst)%Q.
Proof.
  intros Hfilter Hrun Hcands Hc Hi.
  apply find_repeat_detections_Ok in Hrun
    as (rbd & f2r & susp & [n k] & Hsep & Hsusp & Hupd & Hsame & _ & _).
  rewrite Hfilter in Hsusp. simpl in Hsusp.
  apply separate_files_Ok in Hsep as [_ Hpart].
  destruct (Forall2_elem_of_r _ _ _ _ Hsame Hcands) as (cands0 & Hcands0 & Hsame').
  destruct (Forall2_elem_of_r _ _ _ _ Hsame' Hc) as (c0 & Hc0 & Hinst & _ & _).
  rewrite Hinst in Hi.
  destruct (discover_clustered _ _ _ _ _ _ _ _ Hpart Hsusp Hcands0 Hc0) as (dir & _ & Hwc).
  destruct (clustered_instance_resolves _ _ _ _ _ _ _ Hpart Hwc Hi)
    as (i & j & r & d & Hr & Hidx & Hfile & Hj & Hd & Hbox & Hconf & _ & Hpass).
  destruct Hpass as (H0 & _).
  apply update_detection_table_Ok in Hupd as (t1 & Hp1 & Hp2).
  rewrite negate_suspicious_pairs in Hp1.
  destruct (negate_pairs_suppresses _ _ _ _ _ _ _ (l_bbox c0) inst Hp1)
    as (i' & r1 & d1 & Hidx' & Hr1 & Hd1 & Hle).
  { apply elem_of_flagged. eauto 10. }
  rewrite Hidx in Hidx'. injection Hidx' as <-.
  apply negate_pairs_suppressed in Hp1 as Hs.
  destruct (Forall2_lookup_l _ _ _ _ _ Hs Hr) as (r1' & Hr1' & _ & _ & Hdets).
  rewrite Hr1 in Hr1'. injection Hr1' as <-.
  destruct (Forall2_lookup_l _ _ _ _ _ Hdets Hd) as (d1' & Hd1' & Hcat & Hb & Hsc).
  rewrite Hj, (py_getitem_nat _ _ _ Hd1') in Hd1. injection Hd1 as <-.
  destruct (update_maxes_Ok _ _ _ _ _ _ _ Hp2 i r1 Hr1) as (r' & Hr' & _ & Hd' & _).
  exists i, j, r, d, r', d1'. rewrite Hd'. do 4 (split; [done|]).
  split; [done|]. split; [done|]. do 4 (split; [done|]).
  rewrite Hconf. by apply suppressed_conf_negated.
Qed.

Lemma discovered_instances_are_negated_witness :
  let res := Scenario.two_directories_result in
  let table := Scenario.two_directories in
  let env := posix_env (file <$> table) [] [] in
  let inst (i : nat) :=
    mkIndexedDetection 0 (Scenario.image i) Scenario.box (9 # 10) "1" in
  let c := mkDetectionLocation (inst <$> seq 0 20) Scenario.box "A"
             "dir0000_det0000.jpg" in
  find_repeat_detections (H := env) Scenario.options table = Ok res
  ∧ [c] ∈ suspiciousDetections res
  ∧ inst 3%nat ∈ instances c
  ∧ ∃ i r' d',
      table !! i = Some (Scenario.row (9 # 10) 3)
      ∧ detectionResults res !! i = Some r' ∧ detections r' !! 0%nat = Some d'
      ∧ conf d' = (-1 * (9 # 10))%Q.
Proof.
  intros res table env inst c.
  assert (Hrun : find_repeat_detections (H := env) Scenario.options table = Ok res)
    by (vm_compute; reflexivity).
  assert (Hsusp : suspiciousDetections res = [[c]]) by (vm_compute; reflexivity).
  assert (Hcands : [c] ∈ suspiciousDetections res)
    by (rewrite Hsusp; apply list_elem_of_here).
  assert (Hin : inst 3%nat ∈ instances c)
    by (apply (list_elem_of_lookup_2 _ 3%nat); vm_compute; reflexivity).
  split; [exact Hrun|]. split; [exact Hcands|]. split; [exact Hin|].
  destruct (discovered_instances_are_negated (H := env) Scenario.options table res
              [c] c (inst 3%nat) eq_refl Hrun Hcands (list_elem_of_here c []) Hin)
    as (i & j & r & d & r' & d' & Hr & Hfile & Hj & Hd & _ & _ & Hr' & Hd' & _ & _ & Hc).
  assert (j = 0%nat) as -> by (simpl in Hj; lia).
  assert (Hnd : NoDup (file <$> table))
    by (apply (bool_decide_unpack _); vm_compute; exact I).
  assert (Hrow : table !! 3%nat = Some (Scenario.row (9 # 10) 3))
    by (vm_compute; reflexivity).
  assert (i = 3%nat) as ->.
  { eapply (NoDup_lookup _ i 3%nat (file r) Hnd).
    - by rewrite list_lookup_fmap, Hr.
    - rewrite list_lookup_fmap, Hrow, Hfile. reflexivity. }
  exists 3%nat, r', d'. split; [exact Hrow|]. split; [exact Hr'|].
  split; [exact Hd' | exact Hc].
Defined.

Lemma Forall2_elem_of_l {A B} (R : A → B → Prop) (l : list A) (l' : list B) (x : A) :
  Forall2 R l l' → x ∈ l → ∃ y, y ∈ l' ∧ R x y.
Proof.
  intros HF (i & Hi)%list_elem_of_lookup.
  destruct (Forall2_lookup_l _ _ _ _ _ HF Hi) as (y & Hy & HR).
  exists y. split; [by eapply list_elem_of_lookup_2 | done].
Qed.

(** X14. A run changes no detection that no instance of the result points
    to, in discover mode and in reload mode alike: when no instance of a
    suspicious candidate of the result has the path of row [i] and a position
    that denotes detection [j] of that row, the detection is in the output
    table as it was in the input. *)
Theorem run_keeps_unflagged_detections `{Externals} options table res i j r d :
  find_repeat_detections options table = Ok res →
  table !! i = Some r → detections r !! j = Some d →
  (∀ cands c inst,
     cands ∈ suspiciousDetections res → c ∈ cands → inst ∈ instances c →
     filename inst = file r →
     py_index (length (detections r)) (iDetection inst) ≠ Some j) →
  ∃ r', detectionResults res !! i = Some r' ∧ detections r' !! j = Some d.
Proof.
  intros Hrun Hr Hd Hnot.
  apply find_repeat_detections_Ok in Hrun
    as (rbd & f2r & susp & [n k] & Hsep & _ & Hupd & Hsame & _ & _).
  apply separate_files_Ok in Hsep as [_ (_ & _ & Hidx)].
  apply update_detection_table_Ok in Hupd as (t1 & Hp1 & Hp2).
  rewrite negate_suspicious_pairs in Hp1.
  destruct (negate_pairs_other _ _ _ _ _ _ _ i j r d Hp1 Hr Hd)
    as (r1 & Hr1 & Hd1 & _).
  { intros b inst (cands0 & c0 & Hcands0 & Hc0 & Hi & _)%elem_of_flagged Hrow.
    destruct (Forall2_elem_of_l _ _ _ _ Hsame Hcands0) as (cands & Hcands & Hsame').
    destruct (Forall2_elem_of_l _ _ _ _ Hsame' Hc0) as (c & Hc & Hinst & _).
    apply (Hnot cands c inst Hcands Hc); [by rewrite Hinst|].
    apply Hidx in Hrow as (r0 & Hr0 & Hfile). by simplify_eq. }
  destruct (update_maxes_Ok _ _ _ _ _ _ _ Hp2 i r1 Hr1) as (r' & Hr' & _ & Hd' & _).
  exists r'. by rewrite Hd'.
Qed.

Lemma run_keeps_unflagged_detections_witness :
  let res := Scenario.two_directories_result in
  let table := Scenario.two_directories in
  let env := posix_env (file <$> table) [] [] in
  let d := mkDetection "1" (9 # 10) Scenario.box in
  find_repeat_detections (H := env) Scenario.options table = Ok res
  ∧ table !! 25%nat = Some (Scenario.row_in "B" (9 # 10) 5)
  ∧ ∃ r', detectionResults res !! 25%nat = Some r' ∧ detections r' !! 0%nat = Some d.
Proof.
  intros res table env d.
  assert (Hrun : find_repeat_detections (H := env) Scenario.options table = Ok res)
    by (vm_compute; reflexivity).
  assert (Hrow : table !! 25%nat = Some (Scenario.row_in "B" (9 # 10) 5))
    by (vm_compute; reflexivity).
  split; [exact Hrun|]. split; [exact Hrow|].
  apply (run_keeps_unflagged_detections (H := env) Scenario.options table res
           25%nat 0%nat _ d Hrun Hrow eq_refl).
  intros cands c inst Hcands Hc Hinst Hfile _.
  assert (Hsusp : Forall (Forall (λ c, Forall (λ i, filename i ≠ "B/image0005.jpg")
                                              (instances c)))
                         (suspiciousDetections res))
    by (apply (bool_decide_unpack _); vm_compute; exact I).
  rewrite Forall_forall in Hsusp. specialize (Hsusp cands Hcands).
  rewrite Forall_forall in Hsusp. specialize (Hsusp c Hc).
  rewrite Forall_forall in Hsusp. apply (Hsusp inst Hinst).
  rewrite Hfile. vm_compute. reflexivity.
Defined.

(** ** The filtering folder *)

Section FilteringFolder.
Context `{Externals}.
Variable options : RepeatDetectionOptions.

Lemma py_getitem_first {A} (l : list A) (x : A) :
  py_getitem l 0 = Ok x ↔ ∃ rest, l = x :: rest.
Proof.
  rewrite py_getitem_index. split.
  - intros (j & Hj & Hx). destruct l as [|y l]; [done|].
    unfold py_index in Hj. simpl in Hj. simplify_eq. simpl in Hx. simplify_eq. eauto.
  - intros (rest & ->). exists 0%nat. done.
Qed.

Lemma write_sample_Ok iDir iDet c c' :
  write_sample options iDir iDet c = Ok c'
  ↔ sample_source_exists options c
    ∧ c' = set_sampleImageRelativeFileName c (sample_name iDir iDet).
Proof.
  unfold write_sample, sample_source_exists. split.
  - intros Hw. apply bind_Ok in Hw as (first & [rest Hi]%py_getitem_first & Hw).
    apply bind_Ok in Hw as ([] & Hfile%assert_Ok & Hw). simplify_eq. eauto.
  - intros [(first & rest & Hi & Hfile) ->].
    rewrite (proj2 (py_getitem_first (instances c) first)) by eauto.
    simpl. by rewrite Hfile.
Qed.

Lemma write_sample_Raise iDir iDet c e :
  write_sample options iDir iDet c = Raise e →
  (e = IndexError ∧ instances c = [])
  ∨ (e = AssertionError ∧ ∃ first rest,
       instances c = first :: rest
       ∧ isfile (join (imageBase options) (filename first)) = false).
Proof.
  unfold write_sample. destruct (instances c) as [|first rest] eqn:Hi; simpl.
  - intros [= <-]. by left.
  - destruct (isfile _) eqn:Hfile; simpl; [done|]. intros [= <-]. right. eauto.
Qed.

Lemma named_from_cons iDir iDet c dets :
  named_from iDir iDet (c :: dets)
  = set_sampleImageRelativeFileName c (sample_name iDir iDet)
    :: named_from iDir (S iDet) dets.
Proof.
  unfold named_from. simpl. rewrite Nat.add_0_r. f_equal.
  apply imap_ext. intros k c0 _. simpl. by rewrite Nat.add_succ_r.
Qed.

Lemma write_samples_Ok iDir dets iDet dets' :
  write_samples options iDir dets iDet = Ok dets'
  ↔ Forall (sample_source_exists options) dets ∧ dets' = named_from iDir iDet dets.
Proof.
  revert iDet dets'.
  induction dets as [|c dets IH]; intros iDet dets'; cbn [write_samples].
  - split; [intros [= <-]; by split | by intros [_ ->]].
  - rewrite named_from_cons, Forall_cons. split.
    + intros Hw. apply bind_Ok in Hw as (c' & [Hc ->]%write_sample_Ok & Hw).
      apply bind_Ok in Hw as (ds & [Hds ->]%IH & Hw). by simplify_eq.
    + intros [[Hc Hds] ->].
      rewrite (proj2 (write_sample_Ok iDir iDet c _) (conj Hc eq_refl)). simpl.
      by rewrite (proj2 (IH (S iDet) _) (conj Hds eq_refl)).
Qed.

Lemma write_filtering_folder_Ok susp iDir susp' :
  write_filtering_folder options susp iDir = Ok susp'
  ↔ Forall (Forall (sample_source_exists options)) susp
    ∧ susp' = imap (λ i dets, named_from (iDir + i) 0 dets) susp.
Proof.
  revert iDir susp'.
  induction susp as [|dets susp IH]; intros iDir susp'; cbn [write_filtering_folder].
  - split; [intros [= <-]; by split | by intros [_ ->]].
  - assert (Hshift : imap (λ i dets0, named_from (iDir + i) 0 dets0) (dets :: susp)
                     = named_from iDir 0 dets
                       :: imap (λ i dets0, named_from (S iDir + i) 0 dets0) susp).
    { simpl. rewrite Nat.add_0_r. f_equal.
      apply imap_ext. intros k c0 _. simpl. by rewrite Nat.add_succ_r. }
    rewrite Hshift, Forall_cons. split.
    + intros Hw. apply bind_Ok in Hw as (d & [Hd ->]%write_samples_Ok & Hw).
      apply bind_Ok in Hw as (ds & [Hds ->]%IH & Hw). by simplify_eq.
    + intros [[Hd Hds] ->].
      rewrite (proj2 (write_samples_Ok iDir dets 0 _) (conj Hd eq_refl)). simpl.
      by rewrite (proj2 (IH (S iDir) _) (conj Hds eq_refl)).
Qed.
End FilteringFolder.

(** X15. Writing the filtering folder succeeds exactly when every suspicious
    candidate has a first instance whose image is a file under [imageBase];
    it then returns the same candidates, where candidate number [k] of
    directory number [i] took the sample image name [dir<i>_det<k>.jpg], the
    numbers zero-padded to four digits, and nothing else changed. *)
Theorem filtering_folder_names `{Externals} options susp susp' :
  write_filtering_folder options susp 0 = Ok susp'
  ↔ (∀ cands c, cands ∈ susp → c ∈ cands →
       ∃ first rest,
         instances c = first :: rest
         ∧ isfile (join (imageBase options) (filename first)) = true)
    ∧ length susp' = length susp
    ∧ ∀ i cands, susp !! i = Some cands →
        ∃ cands', susp' !! i = Some cands' ∧ length cands' = length cands
          ∧ ∀ k c, cands !! k = Some c →
              cands' !! k
              = Some (set_sampleImageRelativeFileName c
                        ("dir" +:+ format_04d i +:+ "_det" +:+ format_04d k +:+ ".jpg")).
Proof.
  rewrite write_filtering_folder_Ok. simpl.
  assert (Hsrc : Forall (Forall (sample_source_exists options)) susp
                 ↔ ∀ cands c, cands ∈ susp → c ∈ cands → sample_source_exists options c).
  { rewrite Forall_forall. split.
    - intros Hall cands c Hcands Hc. specialize (Hall cands Hcands).
      rewrite Forall_forall in Hall. by apply Hall.
    - intros Hall cands Hcands. apply Forall_forall. intros c Hc. by eapply Hall. }
  rewrite Hsrc. unfold sample_source_exists. split.
  - intros [Hall ->]. split; [done|]. split; [by rewrite length_imap|].
    intros i cands Hi. exists (named_from i 0 cands).
    split; [by rewrite list_lookup_imap, Hi|].
    unfold named_from. split; [by rewrite length_imap|].
    intros k c Hk. by rewrite list_lookup_imap, Hk.
  - intros (Hall & Hlen & Hnames). split; [done|].
    apply list_eq_same_length with (length susp); [by rewrite length_imap | done|].
    intros i cands' named' Hlt Hi Hnamed.
    rewrite list_lookup_imap in Hnamed.
    destruct (susp !! i) as [cands|] eqn:Hc; [|done]. simpl in Hnamed. simplify_eq.
    destruct (Hnames i cands Hc) as (cands'' & Hi' & Hlen' & Hk).
    rewrite Hi in Hi'. simplify_eq.
    apply list_eq_same_length with (length cands);
      [by unfold named_from; rewrite length_imap | done|].
    intros k x y Hklt Hx Hy. unfold named_from in Hy. rewrite list_lookup_imap in Hy.
    destruct (cands !! k) as [c|] eqn:Hck; [|done]. simpl in Hy.
    rewrite (Hk k c Hck) in Hx. by simplify_eq.
Qed.

(** ** Sample image names are distinct *)

Lemma decode_zero (s : string) : decode (String "0" s) = decode s.
Proof.
  unfold decode. simpl. destruct (NilEmpty.uint_of_string s); reflexivity.
Qed.

Lemma decode_zeros (k : nat) (s : string) : decode (zeros k +:+ s) = decode s.
Proof.
  induction k as [|k IH]; [done|].
  change (zeros (S k) +:+ s) with (String "0" (zeros k +:+ s)).
  by rewrite decode_zero.
Qed.

Lemma decode_format_04d (n : nat) : decode (format_04d n) = Some n.
Proof.
  unfold format_04d. rewrite decode_zeros. unfold decode.
  rewrite NilEmpty.usu. simpl. by rewrite Unsigned.of_to.
Qed.

Lemma format_04d_inj (n m : nat) : format_04d n = format_04d m → n = m.
Proof.
  intros Heq. pose proof (decode_format_04d n) as Hn.
  rewrite Heq, decode_format_04d in Hn. by simplify_eq.
Qed.

Lemma all_digits_app (a b : string) :
  all_digits (a +:+ b) = all_digits a && all_digits b.
Proof.
  induction a as [|c a IH]; [done|]. simpl. by rewrite IH, andb_assoc.
Qed.

Lemma all_digits_zeros (k : nat) : all_digits (zeros k) = true.
Proof. induction k; [done | done]. Qed.

Lemma all_digits_string_of_uint (u : Decimal.uint) :
  all_digits (NilEmpty.string_of_uint u) = true.
Proof. induction u; simpl; done. Qed.

Lemma all_digits_format_04d (n : nat) : all_digits (format_04d n) = true.
Proof.
  unfold format_04d.
  by rewrite all_digits_app, all_digits_zeros, all_digits_string_of_uint.
Qed.

(** Two strings of digits followed by the same character, which is no digit,
    are cut at the same place. *)
Lemma split_at_nondigit (a a' : string) (c : ascii) (r r' : string) :
  all_digits a = true → all_digits a' = true → is_digit c = false →
  a +:+ String c r = a' +:+ String c r' → a = a' ∧ r = r'.
Proof.
  revert a'. induction a as [|x a IH]; intros [|x' a'] Ha Ha' Hc Heq; simpl in *.
  - by simplify_eq.
  - simplify_eq. apply andb_true_iff in Ha' as [Hx _]. congruence.
  - simplify_eq. apply andb_true_iff in Ha as [Hx _]. congruence.
  - apply andb_true_iff in Ha as [_ Ha]. apply andb_true_iff in Ha' as [_ Ha'].
    injection Heq as -> Heq. destruct (IH a' Ha Ha' Hc Heq) as [-> ->]. done.
Qed.

Lemma sample_name_inj (i k i' k' : nat) :
  sample_name i k = sample_name i' k' → i = i' ∧ k = k'.
Proof.
  unfold sample_name. simpl. intros [= Heq].
  apply split_at_nondigit in Heq as [Hi Heq];
    [|apply all_digits_format_04d..|done].
  simpl in Heq. injection Heq as Heq.
  apply split_at_nondigit in Heq as [Hk _];
    [|apply all_digits_format_04d..|done].
  split; by apply format_04d_inj.
Qed.

(** X16. The sample image names that the filtering folder gives are pairwise
    distinct: two candidates of the result with the same sample image name
    are the same candidate of the same directory.  The numbers are padded,
    not cut, so this holds beyond 9999 directories or candidates. *)
Theorem sample_names_are_distinct `{Externals} options susp susp' i k c i' k' c'
    cands cands' :
  write_filtering_folder options susp 0 = Ok susp' →
  susp' !! i = Some cands → cands !! k = Some c →
  susp' !! i' = Some cands' → cands' !! k' = Some c' →
  sampleImageRelativeFileName c = sampleImageRelativeFileName c' →
  i = i' ∧ k = k'.
Proof.
  intros [_ ->]%write_filtering_folder_Ok Hi Hk Hi' Hk' Heq.
  rewrite list_lookup_imap in Hi, Hi'.
  destruct (susp !! i) as [l|]; [|done]. destruct (susp !! i') as [l'|]; [|done].
  simpl in Hi, Hi'. simplify_eq. unfold named_from in Hk, Hk'.
  rewrite list_lookup_imap in Hk, Hk'.
  destruct (l !! k) as [c0|]; [|done]. destruct (l' !! k') as [c0'|]; [|done].
  simpl in Hk, Hk'. injection Hk as <-. injection Hk' as <-.
  by apply sample_name_inj.
Qed.

Lemma sample_names_are_distinct_witness :
  let inst := mkIndexedDetection 0 (Scenario.image 0) Scenario.box (9 # 10) "1" in
  let c := mkDetectionLocation [inst] Scenario.box "A" "" in
  let named (i k : nat) := set_sampleImageRelativeFileName c (sample_name i k) in
  let susp' := [[named 0%nat 0%nat; named 0%nat 1%nat]; [named 1%nat 0%nat]] in
  write_filtering_folder (H := Scenario.env 1) Scenario.options [[c; c]; [c]] 0
  = Ok susp'
  ∧ (sampleImageRelativeFileName (named 0%nat 1%nat)
     = sampleImageRelativeFileName (named 0%nat 1%nat) → 0%nat = 0%nat ∧ 1%nat = 1%nat).
Proof.
  intros inst c named susp'.
  assert (Hrun : write_filtering_folder (H := Scenario.env 1) Scenario.options
                   [[c; c]; [c]] 0 = Ok susp') by (vm_compute; reflexivity).
  split; [exact Hrun|].
  exact (sample_names_are_distinct (H := Scenario.env 1) Scenario.options _ _
           0%nat 1%nat _ 0%nat 1%nat _ _ _ Hrun eq_refl eq_refl eq_refl eq_refl).
Defined.

Section ReloadAfterExport.
Context `{Externals}.
Variable options : RepeatDetectionOptions.

Lemma reload_no_keep_list dirs :
  filteredFileListToLoad options = None →
  length dirs = length (load_filter_file (filterFileToLoad options)) →
  reload options dirs
  = Ok (map (List.filter
               (λ c, isfile (join (dirname (filterFileToLoad options))
                                  (sampleImageRelativeFileName c))))
            (load_filter_file (filterFileToLoad options))).
Proof.
  intros Hkeep Hlen. unfold reload, load_file_list. rewrite Hkeep.
  rewrite bool_decide_true by done. simpl. f_equal.
  apply map_ext. intros dets. by rewrite filter_directory_filter.
Qed.

Lemma filter_all (f : DetectionLocation → bool) (l : list DetectionLocation) :
  (∀ c, c ∈ l → f c = true) → List.filter f l = l.
Proof.
  induction l as [|c l IH]; intros Hall; simpl; [done|].
  rewrite (Hall c) by apply list_elem_of_here. f_equal.
  apply IH. intros c' Hc'. apply Hall, list_elem_of_further, Hc'.
Qed.

(** The candidates of directory [i0], named from [k1] on, filtered by a test
    that fails on the name of candidate [k0] only. *)
Lemma filter_named_from (f : string → bool) i0 k0 cands k1 :
  (∀ k c, cands !! k = Some c →
          f (sample_name i0 (k1 + k)) = bool_decide (k1 + k ≠ k0)%nat) →
  List.filter (λ c, f (sampleImageRelativeFileName c)) (named_from i0 k1 cands)
  = if decide (k1 ≤ k0)%nat
    then delete (k0 - k1)%nat (named_from i0 k1 cands)
    else named_from i0 k1 cands.
Proof.
  revert k1. induction cands as [|c cands IH]; intros k1 Hf.
  - unfold named_from. simpl. by case_decide.
  - rewrite named_from_cons. cbn [List.filter sampleImageRelativeFileName
      set_sampleImageRelativeFileName].
    pose proof (Hf 0%nat c eq_refl) as Hhead. rewrite Nat.add_0_r in Hhead.
    rewrite Hhead.
    assert (Htail : ∀ k c0, cands !! k = Some c0 →
              f (sample_name i0 (S k1 + k)) = bool_decide (S k1 + k ≠ k0)%nat).
    { intros k c0 Hk. specialize (Hf (S k) c0 Hk).
      by rewrite Nat.add_succ_r in Hf. }
    rewrite (IH (S k1) Htail).
    destruct (decide (k1 = k0)) as [->|Hne].
    + rewrite bool_decide_false by (intros ?; done).
      rewrite decide_False by lia. rewrite decide_True by lia.
      by rewrite Nat.sub_diag.
    + rewrite bool_decide_true by done.
      destruct (decide (k1 ≤ k0)%nat) as [Hle|Hgt].
      * rewrite decide_True by lia.
        replace (k0 - k1)%nat with (S (k0 - S k1)) by lia. done.
      * rewrite decide_False by lia. done.
Qed.
End ReloadAfterExport.

(** X17. Export, then reload, with nothing deleted: when the review file
    holds the candidates that the filtering folder wrote, no keep-list is
    given, and the sample image of every candidate is a file in the folder
    of the review file, reload mode returns exactly those candidates. *)
Theorem reload_returns_the_export `{Externals} export_options options susp susp' dirs :
  write_filtering_folder export_options susp 0 = Ok susp' →
  load_filter_file (filterFileToLoad options) = susp' →
  filteredFileListToLoad options = None →
  length dirs = length susp →
  (∀ i cands k c, susp !! i = Some cands → cands !! k = Some c →
     isfile (join (dirname (filterFileToLoad options)) (sample_name i k)) = true) →
  reload options dirs = Ok susp'.
Proof.
  intros [_ Hnamed]%write_filtering_folder_Ok Hload Hkeep Hlen Hfiles.
  rewrite reload_no_keep_list; [|done|by rewrite Hload, Hnamed, length_imap].
  rewrite Hload. f_equal. rewrite <- (map_id susp') at 2.
  apply map_ext_in. intros cands' Hin%list_elem_of_In. apply filter_all.
  intros c' Hc'. subst susp'.
  apply list_elem_of_lookup in Hin as (i & Hi). rewrite list_lookup_imap in Hi.
  destruct (susp !! i) as [cands|] eqn:Hs; [|done]. simpl in Hi. simplify_eq.
  apply list_elem_of_lookup in Hc' as (k & Hk). unfold named_from in Hk.
  rewrite list_lookup_imap in Hk.
  destruct (cands !! k) as [c|] eqn:Hc; [|done]. simpl in Hk. simplify_eq.
  simpl. by eapply Hfiles.
Qed.

Lemma reload_returns_the_export_witness :
  let inst := mkIndexedDetection 0 (Scenario.image 0) Scenario.box (9 # 10) "1" in
  let c := mkDetectionLocation [inst] Scenario.box "A" "" in
  let named (i k : nat) := set_sampleImageRelativeFileName c (sample_name i k) in
  let susp' := [[named 0%nat 0%nat; named 0%nat 1%nat]] in
  let env := posix_env [Scenario.image 0; "out/dir0000_det0000.jpg";
                        "out/dir0000_det0001.jpg"] susp' [] in
  write_filtering_folder (H := env) Scenario.options [[c; c]] 0 = Ok susp'
  ∧ reload (H := env) review_options ["A"] = Ok susp'.
Proof.
  intros inst c named susp' env.
  assert (Hrun : write_filtering_folder (H := env) Scenario.options [[c; c]] 0
                 = Ok susp') by (vm_compute; reflexivity).
  split; [exact Hrun|].
  apply (reload_returns_the_export (H := env) Scenario.options review_options
           [[c; c]] susp' ["A"] Hrun eq_refl eq_refl eq_refl).
  intros i cands k c0 Hi Hk. destruct i as [|i]; [|by destruct i].
  simpl in Hi. injection Hi as <-.
  destruct k as [|[|k]]; [by vm_compute.. | by destruct k].
Defined.

(** X18. Deleting one sample image removes exactly its candidate: when the
    review file holds the candidates that the filtering folder wrote, no
    keep-list is given, and the sample images are files in the folder of the
    review file except the one of candidate [k0] of directory [i0], reload
    mode returns the exported candidates without that one, every other
    candidate in its place and unchanged. *)
Theorem deleting_a_sample_removes_its_candidate `{Externals} export_options options
    susp susp' dirs i0 k0 :
  write_filtering_folder export_options susp 0 = Ok susp' →
  load_filter_file (filterFileToLoad options) = susp' →
  filteredFileListToLoad options = None →
  length dirs = length susp →
  (∀ i cands k c, susp !! i = Some cands → cands !! k = Some c →
     isfile (join (dirname (filterFileToLoad options)) (sample_name i k))
     = bool_decide ((i, k) ≠ (i0, k0))) →
  reload options dirs = Ok (alter (delete k0) i0 susp').
Proof.
  intros [_ Hnamed]%write_filtering_folder_Ok Hload Hkeep Hlen Hfiles.
  rewrite reload_no_keep_list; [|done|by rewrite Hload, Hnamed, length_imap].
  rewrite Hload. f_equal. subst susp'. apply list_eq. intros i.
  set (f := λ n, isfile (join (dirname (filterFileToLoad options)) n)).
  rewrite list_lookup_fmap.
  destruct (decide (i0 = i)) as [->|Hne];
    [rewrite list_lookup_alter_eq | rewrite list_lookup_alter_ne by done];
    rewrite list_lookup_imap;
    (destruct (susp !! i) as [cands|] eqn:Hs; simpl; [|done]).
  - f_equal.
    assert (Hfil : ∀ k c, cands !! k = Some c →
              f (sample_name i (0 + k)) = bool_decide (0 + k ≠ k0)%nat).
    { intros k c Hk. unfold f. simpl. rewrite (Hfiles i cands k c Hs Hk).
      apply bool_decide_ext. split; [intros Hp ->; done | intros Hk0 [= ?]; done]. }
    apply (filter_named_from f i k0 cands 0%nat) in Hfil.
    rewrite decide_True, Nat.sub_0_r in Hfil by lia. exact Hfil.
  - f_equal. apply filter_all. intros c' (k & Hk)%list_elem_of_lookup.
    unfold named_from in Hk. rewrite list_lookup_imap in Hk.
    destruct (cands !! k) as [c|] eqn:Hc; [|done]. simpl in Hk. simplify_eq. simpl.
    rewrite (Hfiles i cands k c Hs Hc). apply bool_decide_eq_true. congruence.
Qed.

Lemma deleting_a_sample_removes_its_candidate_witness :
  let inst := mkIndexedDetection 0 (Scenario.image 0) Scenario.box (9 # 10) "1" in
  let c := mkDetectionLocation [inst] Scenario.box "A" "" in
  let named (i k : nat) := set_sampleImageRelativeFileName c (sample_name i k) in
  let susp' := [[named 0%nat 0%nat; named 0%nat 1%nat]] in
  let env := posix_env [Scenario.image 0; "out/dir0000_det0000.jpg"] susp' [] in
  write_filtering_folder (H := env) Scenario.options [[c; c]] 0 = Ok susp'
  ∧ reload (H := env) review_options ["A"] = Ok [[named 0%nat 0%nat]].
Proof.
  intros inst c named susp' env.
  assert (Hrun : write_filtering_folder (H := env) Scenario.options [[c; c]] 0
                 = Ok susp') by (vm_compute; reflexivity).
  split; [exact Hrun|].
  apply (deleting_a_sample_removes_its_candidate (H := env) Scenario.options
           review_options [[c; c]] susp' ["A"] 0%nat 1%nat Hrun eq_refl eq_refl eq_refl).
  intros i cands k c0 Hi Hk. destruct i as [|i]; [|by destruct i].
  simpl in Hi. injection Hi as <-.
  destruct k as [|[|k]]; [by vm_compute.. | by destruct k].
Defined.

(** ** The order of the directories *)

Section KeyOrder.
Context `{Externals}.
Variable options : RepeatDetectionOptions.

Lemma partitions_keys pre rbd f2r k :
  partitions options pre rbd f2r →
  k ∈ dict_keys rbd ↔ ∃ r, r ∈ pre ∧ dir_key options (file r) = k.
Proof.
  intros (_ & Hget & _). rewrite dict_keys_get, Hget. split.
  - intros [g Hg]. destruct (filter _ pre) as [|r g'] eqn:Hf; [done|].
    assert (r ∈ filter (λ r, dir_key options (file r) = k) pre) as Hr
      by (rewrite Hf; apply list_elem_of_here).
    apply list_elem_of_filter in Hr as [Hk Hr]. eauto.
  - intros (r & Hr & Hk).
    assert (r ∈ filter (λ r, dir_key options (file r) = k) pre) as Hin
      by (by apply list_elem_of_filter).
    destruct (filter _ pre) as [|r' g]; [by apply elem_of_nil in Hin | eauto].
Qed.

Lemma first_occurrence_order_snoc pre rbd f2r row :
  partitions options pre rbd f2r →
  first_occurrence_order options pre (dict_keys rbd) →
  first_occurrence_order options (pre ++ [row])
    (dict_keys (group_add (dir_key options (file row)) row rbd)).
Proof.
  intros Hpart Hord. set (k := dir_key options (file row)).
  destruct (group_add_keys rbd k row) as [Hin Hnin].
  assert (Hold : ∀ i j a b, dict_keys rbd !! i = Some a →
            dict_keys rbd !! j = Some b → (i < j)%nat →
            (b = k → k ∈ dict_keys rbd) →
            ∃ n r, (pre ++ [row]) !! n = Some r ∧ dir_key options (file r) = a
              ∧ ∀ m r', (pre ++ [row]) !! m = Some r' →
                        dir_key options (file r') = b → (n < m)%nat).
  { intros i j a b Ha Hb Hij Hk.
    destruct (Hord i j a b Ha Hb Hij) as (n & r & Hn & Hr & Hlt).
    exists n, r. split; [by apply lookup_app_l_Some|]. split; [done|].
    intros m r' Hm Hb'. apply lookup_app_Some in Hm as [Hm|[Hlen Hm]].
    - by eapply Hlt.
    - apply lookup_lt_Some in Hn. lia. }
  destruct (decide (k ∈ dict_keys rbd)) as [Hk|Hk].
  - rewrite (Hin Hk). intros i j a b Ha Hb Hij. by eapply Hold.
  - rewrite (Hnin Hk). intros i j a b Ha Hb Hij.
    apply lookup_app_Some in Hb as [Hb|[Hlen Hb]].
    + assert (Ha' : dict_keys rbd !! i = Some a).
      { apply lookup_lt_Some in Hb.
        rewrite lookup_app_l in Ha by lia. done. }
      destruct (Hord i j a b Ha' Hb Hij) as (n & r & Hn & Hr & Hlt).
      exists n, r. split; [by apply lookup_app_l_Some|]. split; [done|].
      intros m r' Hm Hb'. apply lookup_app_Some in Hm as [Hm|[Hlen Hm]].
      * by eapply Hlt.
      * apply lookup_lt_Some in Hn. lia.
    + destruct (j - length (dict_keys rbd))%nat as [|j'] eqn:Hj; [|done].
      simpl in Hb. injection Hb as <-.
      assert (Ha' : dict_keys rbd !! i = Some a)
        by (rewrite lookup_app_l in Ha by lia; done).
      assert (a ∈ dict_keys rbd) as Hain by (by eapply list_elem_of_lookup_2).
      apply (partitions_keys _ _ _ _ Hpart) in Hain as (r & Hr & Hra).
      apply list_elem_of_lookup in Hr as (n & Hn).
      exists n, r. split; [by apply lookup_app_l_Some|]. split; [done|].
      intros m r' Hm Hb'. apply lookup_app_Some in Hm as [Hm|[Hlen' Hm]].
      * exfalso. apply Hk. apply (partitions_keys _ _ _ _ Hpart).
        exists r'. split; [by eapply list_elem_of_lookup_2 | done].
      * apply lookup_lt_Some in Hn. lia.
Qed.

Lemma separate_rows_order rest pre rbd f2r rbd' f2r' :
  partitions options pre rbd f2r →
  first_occurrence_order options pre (dict_keys rbd) →
  separate_rows options rest (length pre) (rbd, f2r) = Ok (rbd', f2r') →
  first_occurrence_order options (pre ++ rest) (dict_keys rbd').
Proof.
  revert pre rbd f2r. induction rest as [|row rest IH];
    intros pre rbd f2r Hpart Hord Hsep.
  - rewrite app_nil_r. simpl in Hsep. by simplify_eq.
  - cbn [separate_rows] in Hsep. rewrite separate_row_cases in Hsep.
    destruct (bool_decide (dir_key options (file row) = "")); [done|].
    case_bool_decide as Hdup; [done|]. simpl in Hsep.
    assert (f2r !! file row = None) as Hnone.
    { destruct (f2r !! file row) eqn:Hf; [|done]. exfalso. apply Hdup. eauto. }
    replace (pre ++ row :: rest) with ((pre ++ [row]) ++ rest)
      by (by rewrite <- app_assoc).
    eapply IH.
    + by apply partitions_snoc.
    + by eapply first_occurrence_order_snoc.
    + rewrite length_app. simpl.
      replace (length pre + 1)%nat with (S (length pre)) by lia. exact Hsep.
Qed.

Lemma find_all_matches_aligned dirs rbd allCandidates :
  find_all_matches options dirs rbd = Ok allCandidates →
  Forall2 candidates_of dirs allCandidates.
Proof.
  revert allCandidates. induction dirs as [|d dirs IH]; intros allCandidates Hf;
    cbn [find_all_matches] in Hf.
  - simplify_eq. constructor.
  - apply bind_Ok in Hf as (c & Hc & Hf).
    apply bind_Ok in Hf as (cs & Hcs & Hf). simplify_eq.
    constructor; [|by apply IH].
    apply find_matches_in_directory_from in Hc as (rows & _ & Hfrom).
    intros c' Hc'. by apply Hfrom.
Qed.
End KeyOrder.

(** X19. The directories are listed in the order in which they first occur
    in the table: when the partitioner succeeds, a directory listed before
    another has a row that comes before every row of the other. *)
Theorem directories_in_order_of_first_row `{Externals} options table rbd f2r :
  separate_files options table = Ok (rbd, f2r) →
  first_occurrence_order options table (dict_keys rbd).
Proof.
  intros Hsep.
  apply (separate_rows_order options table [] [] ∅ rbd f2r (partitions_nil options)).
  - by intros i j a b ?.
  - exact Hsep.
Qed.

Lemma directories_in_order_of_first_row_witness :
  separate_files (H := posix_env [] [] []) default_options interleaved
  = Ok ([("A", [Scenario.row_in "A" (9 # 10) 0; Scenario.row_in "A" (9 # 10) 1]);
         ("B", [Scenario.row_in "B" (9 # 10) 0])],
        list_to_map [(Scenario.image_in "A" 0, 0%nat);
                     (Scenario.image_in "B" 0, 1%nat);
                     (Scenario.image_in "A" 1, 2%nat)])
  ∧ first_occurrence_order (H := posix_env [] [] []) default_options interleaved
      ["A"; "B"].
Proof.
  split; [vm_compute; reflexivity|].
  apply (directories_in_order_of_first_row (H := posix_env [] [] []) default_options
           interleaved
           [("A", [Scenario.row_in "A" (9 # 10) 0; Scenario.row_in "A" (9 # 10) 1]);
            ("B", [Scenario.row_in "B" (9 # 10) 0])]
           (list_to_map [(Scenario.image_in "A" 0, 0%nat);
                         (Scenario.image_in "B" 0, 1%nat);
                         (Scenario.image_in "A" 1, 2%nat)])).
  vm_compute. reflexivity.
Defined.

(** X20. A run that succeeds returns one list of suspicious candidates per
    searched directory, in the order of the directories; when the run looks
    for matches (no review file), the candidates of the list at position i
    all belong to the directory at position i. *)
Theorem one_candidate_list_per_directory `{Externals} options table res :
  find_repeat_detections options table = Ok res →
  length (suspiciousDetections res)
  = length (py_slice_to (dict_keys (rowsByDirectory res)) (debugMaxDir options))
  ∧ (filterFileToLoad options = "" →
     Forall2 candidates_of
       (py_slice_to (dict_keys (rowsByDirectory res)) (debugMaxDir options))
       (suspiciousDetections res)).
Proof.
  intros Hrun.
  apply find_repeat_detections_Ok in Hrun
    as (rbd & f2r & susp & counters & _ & Hsusp & _ & Hsame & -> & _).
  pose proof (Forall2_length _ _ _ Hsame) as Hlen. rewrite <- Hlen.
  case_bool_decide as Hmode.
  - apply discover_filter in Hsusp as (allc & Hall & ->).
    apply find_all_matches_aligned in Hall.
    split; [rewrite length_map; symmetry; by eapply Forall2_length|].
    intros _. clear Hlen.
    apply Forall2_same_length_lookup. split.
    + rewrite (Forall2_length _ _ _ Hall). rewrite <- (Forall2_length _ _ _ Hsame).
      by rewrite length_map.
    + intros i d cands' Hd Hcands' c' Hc'.
      destruct (Forall2_lookup_r _ _ _ _ _ Hsame Hcands') as (cands & Hcands & Hsc).
      destruct (Forall2_elem_of_r _ _ _ _ Hsc Hc') as (c & Hc & _ & _ & ->).
      rewrite list_lookup_fmap in Hcands.
      destruct (allc !! i) as [all|] eqn:Hi; [|done]. simpl in Hcands. simplify_eq.
      rewrite find_suspicious_filter in Hc.
      apply list_elem_of_filter in Hc as [_ Hc].
      destruct (Forall2_lookup_l _ _ _ _ _ Hall Hd) as (all' & Hall' & Hof).
      simplify_eq. by apply Hof.
  - split.
    + unfold reload in Hsusp. apply bind_Ok in Hsusp as ([] & Hlenb%assert_Ok & Hsusp).
      simplify_eq. rewrite length_map. by apply bool_decide_eq_true in Hlenb.
    + intros Hfile. rewrite Hfile in Hmode. done.
Qed.

Lemma one_candidate_list_per_directory_witness :
  length (suspiciousDetections Scenario.two_directories_result)
  = length (py_slice_to (dict_keys (rowsByDirectory Scenario.two_directories_result))
              (debugMaxDir Scenario.options))
  ∧ (filterFileToLoad Scenario.options = "" →
     Forall2 candidates_of
       (py_slice_to (dict_keys (rowsByDirectory Scenario.two_directories_result))
          (debugMaxDir Scenario.options))
       (suspiciousDetections Scenario.two_directories_result)).
Proof.
  apply (one_candidate_list_per_directory
           (H := posix_env (file <$> Scenario.two_directories) [] [])
           Scenario.options Scenario.two_directories).
  vm_compute. reflexivity.
Defined.
